(** * Spam detection service: the decision pipeline and the IP blocklist

    A shallow embedding of the TypeScript sources [ip-blocker.ts],
    [spam-rules.ts], [gemini-service.ts] and [spam-detector.ts], and of the
    blocking middleware and the unblocking route of [server.ts], followed
    by the properties of the decision pipeline, of the CIDR/IP matcher, of
    the blocklist under sequences of calls, of the address syntax, of the
    client address of a request and of single rules.

    Conventions of the embedding.
    - A JavaScript [number] is a value of [JS.number]: NaN, the two
      infinities, or a finite rational.  Arithmetic on finite values is exact
      (no rounding to 53 bits) and the sign of zero is not tracked.
    - A JavaScript string is the list of its UTF-16 code units
      ([JS.jsstring]); [JS.js] turns a literal into such a list.
    - The object state of [IPBlocker] and [SpamDetector] is threaded
      explicitly through a small state monad ([St.M]).
    - Built-ins whose full definition lies outside the repository (Unicode
      lower-casing, number-to-string and string-to-number conversion) are
      operations of a [Host]; every general theorem holds for all hosts. *)

From Stdlib Require Import ZArith QArith Qround String Ascii List Bool Lia.
From Stdlib Require Import DecimalString Permutation.
From stdpp Require Import base gmap sets list.
Import ListNotations.

#[local] Set Warnings "-register-all".

(* ================================================================== *)
(** ** JavaScript numbers and strings *)
(* ================================================================== *)

Module JS.

Inductive number : Type :=
  | NaN
  | PosInf
  | NegInf
  | Fin (q : Q).

Definition ofZ (z : Z) : number := Fin (inject_Z z).
Definition ofN (n : N) : number := ofZ (Z.of_N n).
Definition ofNat (n : nat) : number := ofZ (Z.of_nat n).

Definition Qlt_bool (p q : Q) : bool := negb (Qle_bool q p).

(** [a < b] *)
Definition lt (a b : number) : bool :=
  match a, b with
  | NaN, _ => false
  | _, NaN => false
  | Fin p, Fin q => Qlt_bool p q
  | Fin _, PosInf => true
  | Fin _, NegInf => false
  | PosInf, _ => false
  | NegInf, NegInf => false
  | NegInf, _ => true
  end.

(** [a <= b] *)
Definition le (a b : number) : bool :=
  match a, b with
  | NaN, _ => false
  | _, NaN => false
  | _, _ => negb (lt b a)
  end.

(** [a > b] and [a >= b] *)
Definition gt (a b : number) : bool := lt b a.
Definition ge (a b : number) : bool := le b a.

(** [a === b] on numbers *)
Definition strict_eq (a b : number) : bool :=
  match a, b with
  | Fin p, Fin q => Qeq_bool p q
  | PosInf, PosInf => true
  | NegInf, NegInf => true
  | _, _ => false
  end.

Definition neg (a : number) : number :=
  match a with
  | NaN => NaN
  | PosInf => NegInf
  | NegInf => PosInf
  | Fin q => Fin (- q)
  end.

(** [a + b] *)
Definition add (a b : number) : number :=
  match a, b with
  | NaN, _ => NaN
  | _, NaN => NaN
  | PosInf, NegInf => NaN
  | NegInf, PosInf => NaN
  | PosInf, _ => PosInf
  | NegInf, _ => NegInf
  | Fin _, PosInf => PosInf
  | Fin _, NegInf => NegInf
  | Fin p, Fin q => Fin (p + q)
  end.

(** [a - b] *)
Definition sub (a b : number) : number := add a (neg b).

Definition inf_of_sign (negative : bool) : number :=
  if negative then NegInf else PosInf.

(** [a / b]; a zero divisor is read as [+0]. *)
Definition div (a b : number) : number :=
  match a, b with
  | NaN, _ => NaN
  | _, NaN => NaN
  | Fin p, Fin q =>
      if Qeq_bool q 0 then
        if Qeq_bool p 0 then NaN else inf_of_sign (Qlt_bool p 0)
      else Fin (p / q)
  | Fin _, _ => Fin 0
  | PosInf, Fin q => inf_of_sign (Qlt_bool q 0)
  | NegInf, Fin q => inf_of_sign (negb (Qlt_bool q 0))
  | _, _ => NaN
  end.

(** [Math.min(a, b)] and [Math.max(a, b)] *)
Definition min (a b : number) : number :=
  match a, b with
  | NaN, _ => NaN
  | _, NaN => NaN
  | _, _ => if lt b a then b else a
  end.

Definition max (a b : number) : number :=
  match a, b with
  | NaN, _ => NaN
  | _, NaN => NaN
  | _, _ => if lt a b then b else a
  end.

(** [Math.floor(a)] *)
Definition floor (a : number) : number :=
  match a with
  | Fin q => ofZ (Qfloor q)
  | _ => a
  end.

(** ToBoolean on a number: [NaN] and zero are falsy. *)
Definition number_truthy (a : number) : bool :=
  match a with
  | NaN => false
  | Fin q => negb (Qeq_bool q 0)
  | _ => true
  end.

(** *** 32-bit integer operators *)

Definition two32 : Z := 4294967296.
Definition two31 : Z := 2147483648.

(** Rounding toward zero, as ToInt32 and ToUint32 do first. *)
Definition truncate (q : Q) : Z := Z.quot (Qnum q) (Zpos (Qden q)).

Definition toUint32 (a : number) : Z :=
  match a with
  | Fin q => ((truncate q) mod two32)%Z
  | _ => 0
  end.

Definition wrap_int32 (z : Z) : Z :=
  let u := (z mod two32)%Z in
  if (u <? two31)%Z then u else (u - two32)%Z.

Definition toInt32 (a : number) : Z := wrap_int32 (toUint32 a).

(** [a << b]: the shift count is taken modulo 32. *)
Definition shl (a b : number) : number :=
  ofZ (wrap_int32 (Z.shiftl (toInt32 a) (toUint32 b mod 32)%Z)).

(** [a >>> b] *)
Definition ushr (a b : number) : number :=
  ofZ (Z.shiftr (toUint32 a) (toUint32 b mod 32)%Z).

(** [a & b] *)
Definition band (a b : number) : number :=
  ofZ (Z.land (toInt32 a) (toInt32 b)).

(** *** Strings *)

Abbreviation jsstring := (list N).

(** A string literal as its code units (ASCII literals only). *)
Fixpoint js (s : string) : jsstring :=
  match s with
  | EmptyString => []
  | String a rest => N_of_ascii a :: js rest
  end.

Definition str_eqb (a b : jsstring) : bool := bool_decide (a = b).

(** [s.length] *)
Definition str_length (s : jsstring) : number := ofNat (length s).

(** The characters matched by [\s], removed by [trim] and skipped by
    [parseInt]: WhiteSpace and LineTerminator of the language. *)
Definition isWhiteSpace (c : N) : bool :=
  ((9 <=? c) && (c <=? 13) || (c =? 32) || (c =? 160) || (c =? 5760)
   || (8192 <=? c) && (c <=? 8202) || (c =? 8232) || (c =? 8233)
   || (c =? 8239) || (c =? 8287) || (c =? 12288) || (c =? 65279))%N.

Fixpoint trimStart (s : jsstring) : jsstring :=
  match s with
  | [] => []
  | c :: rest => if isWhiteSpace c then trimStart rest else s
  end.

(** [s.trim()] *)
Definition trim (s : jsstring) : jsstring :=
  rev (trimStart (rev (trimStart s))).

Fixpoint startsWith (s prefix : jsstring) : bool :=
  match prefix, s with
  | [], _ => true
  | _ :: _, [] => false
  | p :: ps, c :: cs => (p =? c)%N && startsWith cs ps
  end.

(** [s.includes(sub)] *)
Fixpoint includes (s sub : jsstring) : bool :=
  startsWith s sub ||
  match s with
  | [] => false
  | _ :: rest => includes rest sub
  end.

(** [s.includes(c)] for a one-character needle. *)
Definition includes_char (s : jsstring) (c : N) : bool :=
  existsb (N.eqb c) s.

(** [s.split(sep)] for a one-character separator: always at least one
    part. *)
Fixpoint split (sep : N) (s : jsstring) : list jsstring :=
  match s with
  | [] => [[]]
  | c :: rest =>
      if (c =? sep)%N then [] :: split sep rest
      else match split sep rest with
           | [] => [[c]]
           | part :: parts => (c :: part) :: parts
           end
  end.

(** [s.substring(0, n)]: [NaN] and negative ends count as 0, ends past
    the string as its length. *)
Definition substring0 (s : jsstring) (n : number) : jsstring :=
  match n with
  | NaN | NegInf => []
  | PosInf => s
  | Fin q => take (Z.to_nat (truncate q)) s
  end.

Definition isDigit (c : N) : bool := ((48 <=? c) && (c <=? 57))%N.

Fixpoint digits_prefix (s : jsstring) : list N :=
  match s with
  | c :: rest => if isDigit c then (c - 48)%N :: digits_prefix rest else []
  | [] => []
  end.

Definition decimal_value (ds : list N) : Z :=
  fold_left (fun acc d => (10 * acc + Z.of_N d)%Z) ds 0%Z.

(** [parseInt(s, 10)]: leading white space is skipped, an optional sign is
    read, then the longest run of decimal digits; [NaN] when that run is
    empty.  Whatever follows the digits is ignored. *)
Definition parseInt (s : jsstring) : number :=
  let s := trimStart s in
  let '(negative, body) :=
    match s with
    | 45%N :: rest => (true, rest)
    | 43%N :: rest => (false, rest)
    | _ => (false, s)
    end in
  match digits_prefix body with
  | [] => NaN
  | ds => ofZ (if negative then - decimal_value ds else decimal_value ds)%Z
  end.

(** [parseInt(undefined, 10)] reads the text "undefined". *)
Definition parseInt_opt (s : option jsstring) : number :=
  match s with
  | Some s => parseInt s
  | None => NaN
  end.

(** The code unit of an ASCII character. *)
Definition ch (a : ascii) : N := N_of_ascii a.

(** *** Values read from JSON, and a post's [text] as it arrives *)

Inductive value : Type :=
  | VUndefined
  | VNull
  | VBool (b : bool)
  | VNum (n : number)
  | VStr (s : jsstring)
  | VArr (items : list value)
  | VObj (fields : list (jsstring * value)).

(** ToBoolean: what [!v], [v || d] and [Boolean(v)] test. *)
Definition truthy (v : value) : bool :=
  match v with
  | VUndefined | VNull => false
  | VBool b => b
  | VNum n => number_truthy n
  | VStr s => negb (str_eqb s [])
  | VArr _ | VObj _ => true
  end.

(** [typeof v === 'string'] *)
Definition is_string (v : value) : bool :=
  match v with
  | VStr _ => true
  | _ => false
  end.

(** [o.key] on a value produced by [JSON.parse]: [undefined] when the
    key is absent or [o] is not an object. *)
Fixpoint lookup_field (key : jsstring) (fields : list (jsstring * value))
  : value :=
  match fields with
  | [] => VUndefined
  | (k, v) :: rest => if str_eqb k key then v else lookup_field key rest
  end.

Definition get_prop (o : value) (key : jsstring) : value :=
  match o with
  | VObj fields => lookup_field key fields
  | _ => VUndefined
  end.

End JS.

Import JS.

(** Built-ins that the sources call and whose definition is the
    language's, not the repository's. *)
Class Host : Type := {
  (** [String.prototype.toLowerCase] *)
  toLowerCase : jsstring -> jsstring;
  (** a number inside a template literal *)
  numberToString : number -> jsstring;
  (** [Number(s)] for a string [s] *)
  stringToNumber : jsstring -> number;
  (** [String(o)] for an array or an object *)
  objectToString : value -> jsstring
}.

Section Conversions.
Context `{host : Host}.

(** [String(v)] *)
Definition ToString (v : value) : jsstring :=
  match v with
  | VUndefined => js "undefined"
  | VNull => js "null"
  | VBool true => js "true"
  | VBool false => js "false"
  | VNum n => numberToString n
  | VStr s => s
  | VArr _ | VObj _ => objectToString v
  end.

(** [Number(v)] *)
Definition ToNumber (v : value) : number :=
  match v with
  | VUndefined => NaN
  | VNull => ofZ 0
  | VBool true => ofZ 1
  | VBool false => ofZ 0
  | VNum n => n
  | VStr s => stringToNumber s
  | VArr _ | VObj _ => stringToNumber (objectToString v)
  end.

End Conversions.

(* ================================================================== *)
(** ** State threading *)
(* ================================================================== *)

Module St.

(** A method of an object whose fields are [S]: it reads and possibly
    replaces the fields and returns an [A]. *)
Definition M (S A : Type) : Type := S -> A * S.

Definition ret {S A} (a : A) : M S A := fun s => (a, s).

Definition bind {S A B} (m : M S A) (k : A -> M S B) : M S B :=
  fun s => let '(a, s') := m s in k a s'.

Definition get {S} : M S S := fun s => (s, s).

Definition put {S} (s' : S) : M S unit := fun _ => (tt, s').

(** Run a method of a sub-object held in a field. *)
Definition zoom {S T A} (proj : S -> T) (upd : T -> S -> S) (m : M T A)
  : M S A :=
  fun s => let '(a, t') := m (proj s) in (a, upd t' s).

Definition result {S A} (m : M S A) (s : S) : A := fst (m s).
Definition final {S A} (m : M S A) (s : S) : S := snd (m s).

(** A method is read-only when it hands back the state it was given. *)
Definition preserves {S A} (m : M S A) : Prop := forall s, final m s = s.

End St.

Import St.

Notation "'let*' x ':=' m 'in' k" := (bind m (fun x => k))
  (at level 10, x name, m at level 100, k at level 200).

(* ================================================================== *)
(** ** Regular expressions used for whole-string tests *)
(* ================================================================== *)

Module Regex.

(** The operators the patterns of [ip-blocker.ts] are built from. *)
Inductive regex : Type :=
  | Void
  | Eps
  | Class (p : N -> bool)
  | Seq (r1 r2 : regex)
  | Alt (r1 r2 : regex).

(** The words of a pattern. *)
Inductive lang : regex -> jsstring -> Prop :=
  | lang_Eps : lang Eps []
  | lang_Class (p : N -> bool) (c : N) : p c = true -> lang (Class p) [c]
  | lang_Seq (r1 r2 : regex) (s1 s2 : jsstring) :
      lang r1 s1 -> lang r2 s2 -> lang (Seq r1 r2) (s1 ++ s2)
  | lang_AltL (r1 r2 : regex) (s : jsstring) :
      lang r1 s -> lang (Alt r1 r2) s
  | lang_AltR (r1 r2 : regex) (s : jsstring) :
      lang r2 s -> lang (Alt r1 r2) s.

Fixpoint nullable (r : regex) : bool :=
  match r with
  | Void => false
  | Eps => true
  | Class _ => false
  | Seq r1 r2 => nullable r1 && nullable r2
  | Alt r1 r2 => nullable r1 || nullable r2
  end.

Definition seq (r1 r2 : regex) : regex :=
  match r1, r2 with
  | Void, _ => Void
  | _, Void => Void
  | Eps, _ => r2
  | _, Eps => r1
  | _, _ => Seq r1 r2
  end.

Definition alt (r1 r2 : regex) : regex :=
  match r1, r2 with
  | Void, _ => r2
  | _, Void => r1
  | _, _ => Alt r1 r2
  end.

(** The residual of [r] after reading [c]. *)
Fixpoint deriv (c : N) (r : regex) : regex :=
  match r with
  | Void => Void
  | Eps => Void
  | Class p => if p c then Eps else Void
  | Seq r1 r2 =>
      alt (seq (deriv c r1) r2) (if nullable r1 then deriv c r2 else Void)
  | Alt r1 r2 => alt (deriv c r1) (deriv c r2)
  end.

(** [/^r$/.test(s)]: the whole of [s] is a word of [r]. *)
Definition test (r : regex) (s : jsstring) : bool :=
  nullable (fold_left (fun r c => deriv c r) s r).

Definition chr (a : ascii) : regex := Class (N.eqb (ch a)).

(** [[a-b]] *)
Definition range (a b : ascii) : regex :=
  Class (fun c => (ch a <=? c) && (c <=? ch b))%N.

(** [r?] *)
Definition opt (r : regex) : regex := Alt r Eps.

(** [r{n}] *)
Fixpoint rep (n : nat) (r : regex) : regex :=
  match n with
  | O => Eps
  | S n' => Seq r (rep n' r)
  end.

(** [r{0,n}] *)
Fixpoint upto (n : nat) (r : regex) : regex :=
  match n with
  | O => Eps
  | S n' => opt (Seq r (upto n' r))
  end.

(** [r{m,n}] *)
Definition rep_range (m n : nat) (r : regex) : regex :=
  Seq (rep m r) (upto (n - m) r).

Fixpoint lit (s : jsstring) : regex :=
  match s with
  | [] => Eps
  | c :: rest => Seq (Class (N.eqb c)) (lit rest)
  end.

End Regex.

(* ================================================================== *)
(** ** ip-blocker.ts *)
(* ================================================================== *)

Module IPBlocker.
Import Regex.

Record IPBlocklist : Type := {
  blockedIPs : gset (list N);
  blockedRanges : list jsstring
}.

Record IPValidationResult : Type := {
  isBlocked : bool;
  reason : option jsstring;
  blockedIP : option jsstring
}.

(** [new IPBlocker()] *)
Definition empty : IPBlocklist :=
  {| blockedIPs := ∅; blockedRanges := [] |}.

(** [25[0-5]|2[0-4][0-9]|[01]?[0-9][0-9]?] *)
Definition octet : regex :=
  Alt (Seq (lit (js "25")) (range "0" "5"))
    (Alt (Seq (chr "2") (Seq (range "0" "4") (range "0" "9")))
       (Seq (opt (range "0" "1")) (Seq (range "0" "9") (opt (range "0" "9"))))).

(** [/^(?:(?:octet)\.){3}(?:octet)$/] *)
Definition ipv4Regex : regex :=
  Seq (rep 3 (Seq octet (chr "."))) octet.

(** [[0-9a-fA-F]] *)
Definition hex : regex :=
  Alt (range "0" "9") (Alt (range "a" "f") (range "A" "F")).

(** [/^(?:[0-9a-fA-F]{1,4}:){7}[0-9a-fA-F]{1,4}$|^::1$|^::$/] *)
Definition ipv6Regex : regex :=
  Alt (Seq (rep 7 (Seq (rep_range 1 4 hex) (chr ":"))) (rep_range 1 4 hex))
    (Alt (lit (js "::1")) (lit (js "::"))).

Definition isValidIP (ip : jsstring) : bool :=
  if test ipv4Regex ip then true else test ipv6Regex ip.

Definition isNaN (n : number) : bool :=
  match n with
  | NaN => true
  | _ => false
  end.

Definition isValidCIDR (cidr : jsstring) : bool :=
  match split (ch "/") cidr with
  | [ip; mask] =>
      if negb (isValidIP ip) then false
      else
        let maskNum := parseInt mask in
        if isNaN maskNum then false
        else if includes_char ip (ch ".") then
          ge maskNum (ofZ 0) && le maskNum (ofZ 32)
        else ge maskNum (ofZ 0) && le maskNum (ofZ 128)
  | _ => false
  end.

Definition ipv4ToNumber (ip : jsstring) : number :=
  ushr
    (fold_left (fun acc octet => add (shl acc (ofZ 8)) (parseInt octet))
       (split (ch ".") ip) (ofZ 0))
    (ofZ 0).

Definition isIPv4InRange (ip network : jsstring) (maskBits : number) : bool :=
  let ipNum := ipv4ToNumber ip in
  let networkNum := ipv4ToNumber network in
  let mask := ushr (shl (ofZ 4294967295) (sub (ofZ 32) maskBits)) (ofZ 0) in
  strict_eq (band ipNum mask) (band networkNum mask).

Section WithHost.
Context `{host : Host}.

Definition expandIPv6 (ip : jsstring) : jsstring :=
  if str_eqb ip (js "::") then js "0000:0000:0000:0000:0000:0000:0000:0000"
  else if str_eqb ip (js "::1") then
    js "0000:0000:0000:0000:0000:0000:0000:0001"
  else toLowerCase ip.

Definition isIPv6InRange (ip network : jsstring) (maskBits : number) : bool :=
  let ipExpanded := expandIPv6 ip in
  let networkExpanded := expandIPv6 network in
  if str_eqb ipExpanded [] || str_eqb networkExpanded [] then false
  else
    let hexCharsToCheck := floor (div maskBits (ofZ 4)) in
    str_eqb (substring0 ipExpanded hexCharsToCheck)
      (substring0 networkExpanded hexCharsToCheck).

(** [const [network, mask] = cidr.split('/')]: the first two parts, the
    second [undefined] when [cidr] has no slash. *)
Definition isIPInRange (ip cidr : jsstring) : bool :=
  let parts := split (ch "/") cidr in
  let network := hd [] parts in
  let mask := nth_error parts 1 in
  let maskBits := parseInt_opt mask in
  if includes_char ip (ch ".") && includes_char network (ch ".") then
    isIPv4InRange ip network maskBits
  else if includes_char ip (ch ":") && includes_char network (ch ":") then
    isIPv6InRange ip network maskBits
  else false.

Definition notBlocked : IPValidationResult :=
  {| isBlocked := false; reason := None; blockedIP := None |}.

Definition validateIP (ip : jsstring) : M IPBlocklist IPValidationResult :=
  if str_eqb ip [] || negb (isValidIP ip) then ret notBlocked
  else
    let* bl := get in
    if bool_decide (ip ∈ blockedIPs bl) then
      ret {| isBlocked := true;
             reason := Some (js "IP address is in blocklist");
             blockedIP := Some ip |}
    else
      match find (isIPInRange ip) (blockedRanges bl) with
      | Some range =>
          ret {| isBlocked := true;
                 reason :=
                   Some (js "IP address is in blocked range: " ++ range);
                 blockedIP := Some ip |}
      | None => ret notBlocked
      end.

End WithHost.

Definition addIP (ip : jsstring) : M IPBlocklist bool :=
  if negb (isValidIP ip) then ret false
  else
    let* bl := get in
    let* _ := put {| blockedIPs := {[ ip ]} ∪ blockedIPs bl;
                     blockedRanges := blockedRanges bl |} in
    ret true.

(** [Set.prototype.delete] answers whether the element was there. *)
Definition removeIP (ip : jsstring) : M IPBlocklist bool :=
  let* bl := get in
  let* _ := put {| blockedIPs := blockedIPs bl ∖ {[ ip ]};
                   blockedRanges := blockedRanges bl |} in
  ret (bool_decide (ip ∈ blockedIPs bl)).

Definition addRange (cidr : jsstring) : M IPBlocklist bool :=
  if negb (isValidCIDR cidr) then ret false
  else
    let* bl := get in
    let* _ :=
      if negb (existsb (str_eqb cidr) (blockedRanges bl)) then
        put {| blockedIPs := blockedIPs bl;
               blockedRanges := blockedRanges bl ++ [cidr] |}
      else ret tt in
    ret true.

(** [splice(index, 1)] at the first occurrence. *)
Fixpoint remove_first (x : jsstring) (l : list jsstring) : list jsstring :=
  match l with
  | [] => []
  | y :: rest => if str_eqb y x then rest else y :: remove_first x rest
  end.

Definition removeRange (cidr : jsstring) : M IPBlocklist bool :=
  let* bl := get in
  if existsb (str_eqb cidr) (blockedRanges bl) then
    let* _ := put {| blockedIPs := blockedIPs bl;
                     blockedRanges := remove_first cidr (blockedRanges bl) |} in
    ret true
  else ret false.

Definition clearAll : M IPBlocklist unit :=
  put empty.

(** [[...this.blocklist.blockedRanges]]: the ranges in the order they
    were added. *)
Definition getBlockedRanges : M IPBlocklist (list jsstring) :=
  let* bl := get in
  ret (blockedRanges bl).

(** *** The address a request comes from *)

(** [req.connection] and [req.socket], with the field that is read. *)
Record Connection : Type := {
  remoteAddress : option jsstring
}.

(** What [extractClientIP] reads of a request.  [req.headers] is an
    object, as Node provides it, and a header is a string or absent;
    [x_forwarded_for] stands for [req.headers['x-forwarded-for']], and so
    on. *)
Record Request : Type := {
  x_forwarded_for : option jsstring;
  x_real_ip : option jsstring;
  cf_connecting_ip : option jsstring;
  connection : option Connection;
  socket : option Connection;
  ip : option jsstring
}.

(** The string [o] when [o] is truthy: present and not empty. *)
Definition whenTruthy (o : option jsstring) : option jsstring :=
  match o with
  | Some s => if str_eqb s [] then None else Some s
  | None => None
  end.

(** [c?.remoteAddress] *)
Definition remoteAddressOf (c : option Connection) : option jsstring :=
  match c with
  | Some c => remoteAddress c
  | None => None
  end.

(** [null] is [None]. *)
Definition extractClientIP (req : Request) : option jsstring :=
  match whenTruthy (x_forwarded_for req) with
  | Some forwarded =>
      let ips := map trim (split (ch ",") forwarded) in
      nth_error ips 0
  | None =>
      match whenTruthy (x_real_ip req) with
      | Some realIP => Some realIP
      | None =>
          match whenTruthy (cf_connecting_ip req) with
          | Some cfConnectingIP => Some cfConnectingIP
          | None =>
              match whenTruthy (remoteAddressOf (connection req)) with
              | Some address => Some address
              | None =>
                  match whenTruthy (remoteAddressOf (socket req)) with
                  | Some address => Some address
                  | None => whenTruthy (ip req)
                  end
              end
          end
      end
  end.

End IPBlocker.

(* ================================================================== *)
(** ** types.ts *)
(* ================================================================== *)

(** A post as [detectSpam] receives it.  [text] is declared a string but
    arrives unchecked from the request body, so it is any value;
    [timestamp] is the date in milliseconds. *)
Record TwitterPost : Type := {
  text : value;
  username : option jsstring;
  timestamp : option Z;
  clientIP : option jsstring
}.

Record SpamRule : Type := {
  name : jsstring;
  check : TwitterPost -> bool;
  severity : number;
  description : jsstring
}.

Record DetectionConfig : Type := {
  spamThreshold : number;
  flagThreshold : number;
  maxTextLength : number;
  minTextLength : number;
  enableIPBlocking : bool;
  enableAIDetection : bool;
  geminiApiKey : option jsstring
}.

Inductive Severity : Type := low | medium | high.

Inductive Action : Type := allow | flag | reject.

Module AIDetectionResult.
Record t : Type := {
  isSpam : bool;
  confidence : number;
  reasoning : jsstring;
  categories : list jsstring;
  severity : Severity
}.
End AIDetectionResult.

Module SpamDetectionResult.
Record t : Type := {
  isSpam : bool;
  confidence : number;
  reasons : list jsstring;
  action : Action;
  aiAnalysis : option AIDetectionResult.t
}.
End SpamDetectionResult.

(* ================================================================== *)
(** ** spam-rules.ts *)
(* ================================================================== *)

Module SpamRules.

(** [post.text] as the rules read it.  [detectSpam] evaluates the rules
    only after [validatePost] has accepted the post, where the text is a
    string. *)
Definition post_text (post : TwitterPost) : jsstring :=
  match text post with
  | VStr s => s
  | _ => []
  end.

Definition count_if (p : N -> bool) (s : jsstring) : nat :=
  length (List.filter p s).

Definition isUpper (c : N) : bool := ((ch "A" <=? c) && (c <=? ch "Z"))%N.
Definition isLower (c : N) : bool := ((ch "a" <=? c) && (c <=? ch "z"))%N.

(** [\w] *)
Definition isWordChar (c : N) : bool :=
  isUpper c || isLower c || isDigit c || (c =? ch "_")%N.

(** The characters [.] does not match. *)
Definition isLineTerminator (c : N) : bool :=
  ((c =? 10) || (c =? 13) || (c =? 8232) || (c =? 8233))%N.

(** [s] starts with [n] copies of [c]. *)
Fixpoint run_of (c : N) (n : nat) (s : jsstring) : bool :=
  match n with
  | O => true
  | S n' =>
      match s with
      | x :: rest => (x =? c)%N && run_of c n' rest
      | [] => false
      end
  end.

(** [/(.)\1{4,}/.test(s)]: somewhere a character other than a line
    terminator is followed by four more copies of itself. *)
Fixpoint hasRepeatedCharacters (s : jsstring) : bool :=
  match s with
  | [] => false
  | c :: rest =>
      (negb (isLineTerminator c) && run_of c 4 rest)
      || hasRepeatedCharacters rest
  end.

Definition isHighSurrogate (c : N) : bool := ((55296 <=? c) && (c <=? 56319))%N.
Definition isLowSurrogate (c : N) : bool := ((56320 <=? c) && (c <=? 57343))%N.

(** The code points a regular expression with the [u] flag steps through:
    a surrogate pair is one code point, a lone surrogate is itself. *)
Fixpoint codePoints (s : jsstring) : list N :=
  match s with
  | [] => []
  | hi :: rest =>
      match rest with
      | lo :: rest' =>
          if isHighSurrogate hi && isLowSurrogate lo then
            (65536 + (hi - 55296) * 1024 + (lo - 56320))%N :: codePoints rest'
          else hi :: codePoints rest
      | [] => [hi]
      end
  end.

Definition between (a b c : N) : bool := ((a <=? c) && (c <=? b))%N.

(** The six ranges of [emojiRegex]. *)
Definition isEmoji (cp : N) : bool :=
  between 128512 128591 cp || between 127744 128511 cp
  || between 128640 128767 cp || between 127456 127487 cp
  || between 9728 9983 cp || between 9984 10175 cp.

Fixpoint takeWhile (p : N -> bool) (s : jsstring) : jsstring :=
  match s with
  | c :: rest => if p c then c :: takeWhile p rest else []
  | [] => []
  end.

(** [prefix] then one character that is no white space. *)
Definition urlAfter (prefix s : jsstring) : bool :=
  startsWith s prefix &&
  match drop (length prefix) s with
  | c :: _ => negb (isWhiteSpace c)
  | [] => false
  end.

(** [/https?:\/\/[^\s]+/] matches at the head of [s]. *)
Definition urlStartsAt (s : jsstring) : bool :=
  urlAfter (js "https://") s || urlAfter (js "http://") s.

(** [s.match(/https?:\/\/[^\s]+/g) || []].  A match runs to the next
    white space, so the scan resumes there; [inMatch] says the characters
    being read belong to the match found last. *)
Fixpoint matchUrls (inMatch : bool) (s : jsstring) : list jsstring :=
  match s with
  | [] => []
  | c :: rest =>
      if isWhiteSpace c then matchUrls false rest
      else if inMatch then matchUrls true rest
      else if urlStartsAt s then
        takeWhile (fun x => negb (isWhiteSpace x)) s :: matchUrls true rest
      else matchUrls false rest
  end.

(** The number of matches of [/@\w+/g] (with [tag] the at sign) or of
    [/#\w+/g]: the tag is no word character, so the matches are the tags
    that a word character follows. *)
Fixpoint countTagged (tag : N) (s : jsstring) : nat :=
  match s with
  | [] => O
  | c :: rest =>
      let here :=
        (c =? tag)%N &&
        match rest with
        | x :: _ => isWordChar x
        | [] => false
        end in
      ((if here then 1 else 0) + countTagged tag rest)%nat
  end.

Definition isAlphaNumeric (c : N) : bool :=
  isUpper c || isLower c || isDigit c.

Definition spamKeywords : list jsstring :=
  map js
    ["free money"; "click here"; "limited time"; "act now"; "guaranteed";
     "make money fast"; "work from home"; "lose weight fast"; "miracle cure";
     "buy now"; "special offer"; "congratulations you won";
     "claim your prize"]%string.

Definition profanityWords : list jsstring :=
  map js ["fuck"; "shit"; "bitch"; "asshole"; "damn"; "crap"]%string.

Section WithHost.
Context `{host : Host}.

Definition excessive_caps : SpamRule :=
  {| name := js "excessive_caps";
     check := fun post =>
       let text := post_text post in
       let capsRatio := div (ofNat (count_if isUpper text)) (str_length text) in
       gt capsRatio (Fin 0.7) && gt (str_length text) (ofZ 10);
     severity := ofZ 3;
     description := js "Post contains excessive capital letters" |}.

Definition repeated_characters : SpamRule :=
  {| name := js "repeated_characters";
     check := fun post => hasRepeatedCharacters (post_text post);
     severity := ofZ 2;
     description := js "Post contains repeated characters (5+ in a row)" |}.

Definition excessive_emojis : SpamRule :=
  {| name := js "excessive_emojis";
     check := fun post =>
       let text := post_text post in
       let emojiCount := ofNat (count_if isEmoji (codePoints text)) in
       gt emojiCount (ofZ 5)
       || (gt emojiCount (ofZ 2) && lt (str_length text) (ofZ 50));
     severity := ofZ 2;
     description := js "Post contains excessive emojis" |}.

Definition suspicious_urls : SpamRule :=
  {| name := js "suspicious_urls";
     check := fun post =>
       let urls := matchUrls false (post_text post) in
       gt (ofNat (length urls)) (ofZ 2)
       || existsb (fun url =>
            includes url (js "bit.ly") || includes url (js "tinyurl")
            || includes url (js "t.co") || gt (str_length url) (ofZ 100))
            urls;
     severity := ofZ 5;
     description := js "Post contains suspicious or excessive URLs" |}.

Definition spam_keywords : SpamRule :=
  {| name := js "spam_keywords";
     check := fun post =>
       let text := toLowerCase (post_text post) in
       existsb (fun keyword => includes text keyword) spamKeywords;
     severity := ofZ 5;
     description := js "Post contains spam keywords" |}.

Definition excessive_mentions : SpamRule :=
  {| name := js "excessive_mentions";
     check := fun post =>
       let mentions := ofNat (countTagged (ch "@") (post_text post)) in
       gt mentions (ofZ 3);
     severity := ofZ 3;
     description := js "Post contains excessive mentions" |}.

Definition excessive_hashtags : SpamRule :=
  {| name := js "excessive_hashtags";
     check := fun post =>
       let text := post_text post in
       let hashtags := ofNat (countTagged (ch "#") text) in
       gt hashtags (ofZ 5)
       || (gt hashtags (ofZ 2) && lt (str_length text) (ofZ 50));
     severity := ofZ 2;
     description := js "Post contains excessive hashtags" |}.

Definition profanity_filter : SpamRule :=
  {| name := js "profanity_filter";
     check := fun post =>
       let text := toLowerCase (post_text post) in
       existsb (fun word => includes text word) profanityWords;
     severity := ofZ 3;
     description := js "Post contains profanity" |}.

Definition too_short : SpamRule :=
  {| name := js "too_short";
     check := fun post => lt (str_length (trim (post_text post))) (ofZ 3);
     severity := ofZ 1;
     description := js "Post is too short to be meaningful" |}.

Definition all_numbers : SpamRule :=
  {| name := js "all_numbers";
     check := fun post =>
       let cleanText := List.filter isAlphaNumeric (post_text post) in
       gt (str_length cleanText) (ofZ 0) && forallb isDigit cleanText;
     severity := ofZ 2;
     description := js "Post contains only numbers" |}.

Definition spamRules : list SpamRule :=
  [excessive_caps; repeated_characters; excessive_emojis; suspicious_urls;
   spam_keywords; excessive_mentions; excessive_hashtags; profanity_filter;
   too_short; all_numbers].

End WithHost.

End SpamRules.

(* ================================================================== *)
(** ** gemini-service.ts *)
(* ================================================================== *)

Module Gemini.

(** The fields of [GeminiSpamDetector] that its methods read: the
    credential of [config] and whether the client [genAI] was built. *)
Record GeminiSpamDetector : Type := {
  apiKey : jsstring;
  genAI : bool
}.

(** [o || d] for an optional string. *)
Definition or_default (o : option jsstring) (d : jsstring) : jsstring :=
  match o with
  | Some s => if str_eqb s [] then d else s
  | None => d
  end.

(** [new GeminiSpamDetector(apiKey)], with [env] the value of
    [process.env.GEMINI_API_KEY]. *)
Definition create (key env : option jsstring) : GeminiSpamDetector :=
  let apiKey := or_default key (or_default env []) in
  {| apiKey := apiKey; genAI := negb (str_eqb apiKey []) |}.

Definition isConfigured : M GeminiSpamDetector bool :=
  let* this := get in
  ret (genAI this && gt (str_length (apiKey this)) (ofZ 0)).

(** What [parseAIResponse] finds in the provider's text: no [{...}] that
    [JSON.parse] accepts, or the object parsed from it, as its fields. *)
Inductive ResponseBody : Type :=
  | NoJson
  | Json (fields : list (jsstring * value)).

(** What the call to the provider yields: it throws, or it answers. *)
Inductive ProviderReply : Type :=
  | CallFails
  | Responds (body : ResponseBody).

Definition fallback : AIDetectionResult.t :=
  {| AIDetectionResult.isSpam := false;
     AIDetectionResult.confidence := ofZ 0;
     AIDetectionResult.reasoning := js "Failed to analyze content with AI";
     AIDetectionResult.categories := [js "analysis_error"];
     AIDetectionResult.severity := low |}.

Section WithHost.
Context `{host : Host}.

(** [['low', 'medium', 'high'].includes(v) ? v : 'low'] *)
Definition sanitizeSeverity (v : value) : Severity :=
  match v with
  | VStr s =>
      if str_eqb s (js "medium") then medium
      else if str_eqb s (js "high") then high
      else low
  | _ => low
  end.

Definition parseAIResponse (body : ResponseBody) : AIDetectionResult.t :=
  match body with
  | NoJson => fallback
  | Json fields =>
      let parsed := VObj fields in
      let confidence := ToNumber (get_prop parsed (js "confidence")) in
      let reasoning := get_prop parsed (js "reasoning") in
      {| AIDetectionResult.isSpam := truthy (get_prop parsed (js "isSpam"));
         AIDetectionResult.confidence :=
           max (ofZ 0)
             (min (ofZ 1)
                (if number_truthy confidence then confidence else ofZ 0));
         AIDetectionResult.reasoning :=
           ToString
             (if truthy reasoning then reasoning
              else VStr (js "No reasoning provided"));
         AIDetectionResult.categories :=
           match get_prop parsed (js "categories") with
           | VArr items => map ToString items
           | _ => []
           end;
         AIDetectionResult.severity :=
           sanitizeSeverity (get_prop parsed (js "severity")) |}
  end.

(** [analyzeSpam(post)]; [reply] is what the provider does if it is
    called. *)
Definition analyzeSpam (post : TwitterPost) (reply : ProviderReply)
  : M GeminiSpamDetector (option AIDetectionResult.t) :=
  let* configured := isConfigured in
  if negb configured then ret None
  else
    match reply with
    | CallFails => ret None
    | Responds body => ret (Some (parseAIResponse body))
    end.

End WithHost.

End Gemini.

(* ================================================================== *)
(** ** spam-detector.ts *)
(* ================================================================== *)

Module SpamDetector.
Import IPBlocker SpamRules Gemini.

Record SpamDetector : Type := {
  config : DetectionConfig;
  ipBlocker : IPBlocklist;
  geminiDetector : GeminiSpamDetector
}.

(** The fields a caller of the constructor or of [updateConfig] may
    supply. *)
Record PartialConfig : Type := {
  p_spamThreshold : option number;
  p_flagThreshold : option number;
  p_maxTextLength : option number;
  p_minTextLength : option number;
  p_enableIPBlocking : option bool;
  p_enableAIDetection : option bool;
  p_geminiApiKey : option jsstring
}.

Definition noChange : PartialConfig :=
  {| p_spamThreshold := None; p_flagThreshold := None;
     p_maxTextLength := None; p_minTextLength := None;
     p_enableIPBlocking := None; p_enableAIDetection := None;
     p_geminiApiKey := None |}.

(** [{ ...base, ...supplied }] *)
Definition merge (base : DetectionConfig) (supplied : PartialConfig)
  : DetectionConfig :=
  {| spamThreshold := default (spamThreshold base) (p_spamThreshold supplied);
     flagThreshold := default (flagThreshold base) (p_flagThreshold supplied);
     maxTextLength := default (maxTextLength base) (p_maxTextLength supplied);
     minTextLength := default (minTextLength base) (p_minTextLength supplied);
     enableIPBlocking :=
       default (enableIPBlocking base) (p_enableIPBlocking supplied);
     enableAIDetection :=
       default (enableAIDetection base) (p_enableAIDetection supplied);
     geminiApiKey :=
       match p_geminiApiKey supplied with
       | Some k => Some k
       | None => geminiApiKey base
       end |}.

Definition defaults (env : option jsstring) : DetectionConfig :=
  {| spamThreshold := ofZ 6;
     flagThreshold := ofZ 3;
     maxTextLength := ofZ 280;
     minTextLength := ofZ 1;
     enableIPBlocking := true;
     enableAIDetection := false;
     geminiApiKey := env |}.

(** [new SpamDetector(config)], with [env] the value of
    [process.env.GEMINI_API_KEY]. *)
Definition create (supplied : PartialConfig) (env : option jsstring)
  : SpamDetector :=
  let config := merge (defaults env) supplied in
  {| config := config;
     ipBlocker := IPBlocker.empty;
     geminiDetector := Gemini.create (geminiApiKey config) env |}.

Definition on_ipBlocker {A} (m : M IPBlocklist A) : M SpamDetector A :=
  zoom ipBlocker
    (fun b this => {| config := config this; ipBlocker := b;
                      geminiDetector := geminiDetector this |}) m.

Definition on_geminiDetector {A} (m : M GeminiSpamDetector A)
  : M SpamDetector A :=
  zoom geminiDetector
    (fun g this => {| config := config this; ipBlocker := ipBlocker this;
                      geminiDetector := g |}) m.

Definition updateConfig (newConfig : PartialConfig) (env : option jsstring)
  : M SpamDetector unit :=
  let* this := get in
  put {| config := merge (config this) newConfig;
         ipBlocker := ipBlocker this;
         geminiDetector :=
           match p_geminiApiKey newConfig with
           | Some k =>
               if str_eqb k [] then geminiDetector this
               else Gemini.create (Some k) env
           | None => geminiDetector this
           end |}.

Definition blockIP (ip : jsstring) : M SpamDetector bool :=
  on_ipBlocker (addIP ip).

Definition unblockIP (ip : jsstring) : M SpamDetector bool :=
  on_ipBlocker (removeIP ip).

Definition blockIPRange (cidr : jsstring) : M SpamDetector bool :=
  on_ipBlocker (addRange cidr).

Definition unblockIPRange (cidr : jsstring) : M SpamDetector bool :=
  on_ipBlocker (removeRange cidr).

Module Validation.
Record t : Type := {
  isValid : bool;
  reasons : list jsstring
}.
End Validation.

Section WithHost.
Context `{host : Host}.

Definition textRequired : jsstring :=
  js "Post text is required and must be a string".

Definition exceedsMaximum (maxTextLength : number) : jsstring :=
  js "Post exceeds maximum length of " ++ numberToString maxTextLength
  ++ js " characters".

Definition belowMinimum (minTextLength : number) : jsstring :=
  js "Post is below minimum length of " ++ numberToString minTextLength
  ++ js " characters".

Definition validatePost (post : TwitterPost) : M SpamDetector Validation.t :=
  let* this := get in
  let reasons :=
    if negb (truthy (text post)) || negb (is_string (text post)) then
      [textRequired]
    else
      (if gt (str_length (post_text post)) (maxTextLength (config this))
       then [exceedsMaximum (maxTextLength (config this))] else [])
      ++
      (if lt (str_length (trim (post_text post))) (minTextLength (config this))
       then [belowMinimum (minTextLength (config this))] else []) in
  ret {| Validation.isValid := Nat.eqb (length reasons) 0;
         Validation.reasons := reasons |}.

(** [spamRules.filter(rule => rule.check(post))] *)
Definition triggeredRules (post : TwitterPost) : list SpamRule :=
  List.filter (fun rule => check rule post) spamRules.

(** [triggeredRules.reduce((sum, rule) => sum + rule.severity, 0)] *)
Definition totalSeverity (post : TwitterPost) : number :=
  fold_left (fun sum rule => add sum (severity rule)) (triggeredRules post)
    (ofZ 0).

Definition rejected (reasons : list jsstring) : SpamDetectionResult.t :=
  {| SpamDetectionResult.isSpam := true;
     SpamDetectionResult.confidence := Fin 1;
     SpamDetectionResult.reasons := reasons;
     SpamDetectionResult.action := reject;
     SpamDetectionResult.aiAnalysis := None |}.

(** Lines 75 to 110 of [detectSpam], the synthesis of the decision, as a
    function of the locals they read: the configuration, [totalSeverity],
    [reasons] and [aiAnalysis].  The unused local [maxPossibleSeverity] is
    left out. *)
Definition synthesize (config : DetectionConfig) (totalSeverity : number)
  (reasons : list jsstring) (aiAnalysis : option AIDetectionResult.t)
  : SpamDetectionResult.t :=
  let confidence := min (div totalSeverity (spamThreshold config)) (Fin 1) in
  let confidence :=
    match aiAnalysis with
    | Some ai =>
        if AIDetectionResult.isSpam ai then
          max confidence (AIDetectionResult.confidence ai)
        else confidence
    | None => confidence
    end in
  let isSpam := ge totalSeverity (flagThreshold config) in
  let '(isSpam, action) :=
    match aiAnalysis with
    | Some ai =>
        if AIDetectionResult.isSpam ai
           && gt (AIDetectionResult.confidence ai) (Fin 0.8)
        then
          (true,
           match AIDetectionResult.severity ai with
           | high => reject
           | _ =>
               if ge totalSeverity (spamThreshold config) then reject
               else flag
           end)
        else
          (isSpam,
           if ge totalSeverity (spamThreshold config) then reject
           else if ge totalSeverity (flagThreshold config) then flag
           else allow)
    | None =>
        (isSpam,
         if ge totalSeverity (spamThreshold config) then reject
         else if ge totalSeverity (flagThreshold config) then flag
         else allow)
    end in
  {| SpamDetectionResult.isSpam := isSpam;
     SpamDetectionResult.confidence := confidence;
     SpamDetectionResult.reasons := reasons;
     SpamDetectionResult.action := action;
     SpamDetectionResult.aiAnalysis := aiAnalysis |}.

(** [detectSpam(post)]; [reply] is what the provider does if the analysis
    is run.  The unused local [aiSeverity] of the source is left out. *)
Definition detectSpam (post : TwitterPost) (reply : ProviderReply)
  : M SpamDetector SpamDetectionResult.t :=
  let* this := get in
  let* blocked :=
    match clientIP post with
    | Some ip =>
        if enableIPBlocking (config this) && negb (str_eqb ip []) then
          let* ipValidation := on_ipBlocker (validateIP ip) in
          if isBlocked ipValidation then
            ret (Some (rejected
                         [or_default (reason ipValidation)
                            (js "IP address is blocked")]))
          else ret None
        else ret None
    | None => ret None
    end in
  match blocked with
  | Some decision => ret decision
  | None =>
      let* validationResult := validatePost post in
      if negb (Validation.isValid validationResult) then
        ret (rejected (Validation.reasons validationResult))
      else
        let triggered := triggeredRules post in
        let total := totalSeverity post in
        let reasons := map description triggered in
        let* this := get in
        let* aiAnalysis :=
          if enableAIDetection (config this) then
            let* configured := on_geminiDetector isConfigured in
            if configured then on_geminiDetector (analyzeSpam post reply)
            else ret None
          else ret None in
        let reasons :=
          match aiAnalysis with
          | Some aiResult =>
              if AIDetectionResult.isSpam aiResult
                 && gt (AIDetectionResult.confidence aiResult) (Fin 0.7)
              then reasons
                   ++ [js "AI detected spam: "
                       ++ AIDetectionResult.reasoning aiResult]
              else reasons
          | None => reasons
          end in
        let* this := get in
        ret (synthesize (config this) total reasons aiAnalysis)
  end.

End WithHost.

Definition isAIConfigured : M SpamDetector bool :=
  on_geminiDetector isConfigured.

End SpamDetector.

(* ================================================================== *)
(** ** server.ts: the blocking middleware and the unblocking route *)
(* ================================================================== *)

Module Server.
Import IPBlocker SpamDetector.

(** What the middleware does with a request: it answers 403 with the
    reason and the address, or it calls [next()], having set
    [req.clientIP] when an address was found. *)
Inductive Passage : Type :=
  | Forbidden (reason : option jsstring) (address : jsstring)
  | Next (clientIP : option jsstring).

(** A JSON answer: the status and the [message] of its body. *)
Record Response : Type := {
  status : Z;
  message : jsstring
}.

Section WithHost.
Context `{host : Host}.

(** The IP blocking middleware of [setupMiddleware]. *)
Definition ipBlocking (req : Request) : M SpamDetector Passage :=
  match whenTruthy (extractClientIP req) with
  | Some clientIP =>
      let* ipValidation := on_ipBlocker (validateIP clientIP) in
      if isBlocked ipValidation then
        ret (Forbidden (reason ipValidation) clientIP)
      else ret (Next (Some clientIP))
  | None => ret (Next None)
  end.

End WithHost.

(** [type === 'range'] for [type] read from the query string. *)
Definition isRangeType (type : value) : bool :=
  match type with
  | VStr s => str_eqb s (js "range")
  | _ => false
  end.

(** The route [DELETE /blocked-ips/:identifier]. *)
Definition deleteBlockedIP (identifier : jsstring) (type : value)
  : M SpamDetector Response :=
  let* outcome :=
    if isRangeType type then
      let* success := unblockIPRange identifier in
      ret (success,
           if success then js "IP range unblocked successfully"
           else js "IP range not found in blocklist")
    else
      let* success := unblockIP identifier in
      ret (success,
           if success then js "IP address unblocked successfully"
           else js "IP address not found in blocklist") in
  let '(success, message) := outcome in
  if (success : bool) then ret {| status := 200; message := message |}
  else ret {| status := 404; message := message |}.

End Server.

(* ================================================================== *)
(** ** A host and sample data for evaluating the model *)
(* ================================================================== *)

Module Sample.
Import IPBlocker SpamRules Gemini SpamDetector.

Definition decimal (z : Z) : jsstring :=
  js (NilZero.string_of_int (Z.to_int z)).

(** A host that agrees with the language on what the examples below
    reach: lower-casing of ASCII text and printing of integers.  The two
    conversions of analyzer fields are given for decimal digit strings and
    plain objects only. *)
Definition asciiHost : Host :=
  {| toLowerCase := map (fun c => if isUpper c then (c + 32)%N else c);
     numberToString := fun n =>
       match n with
       | NaN => js "NaN"
       | PosInf => js "Infinity"
       | NegInf => js "-Infinity"
       | Fin q =>
           let r := Qred q in
           if Pos.eqb (Qden r) 1 then decimal (Qnum r)
           else decimal (Qnum r) ++ js "/" ++ decimal (Zpos (Qden r))
       end;
     stringToNumber := fun s =>
       if forallb isDigit s then ofZ (decimal_value (digits_prefix s))
       else NaN;
     objectToString := fun _ => js "[object Object]" |}.

(** The dotted-quad text of four octets, each printed in decimal. *)
Definition dotted (a b c d : Z) : jsstring :=
  decimal a ++ ch "." :: decimal b ++ ch "." :: decimal c ++ ch "."
  :: decimal d.

(** The 32-bit integer that encodes the address of four octets. *)
Definition encoding (a b c d : Z) : Z :=
  (a * 2 ^ 24 + b * 2 ^ 16 + c * 2 ^ 8 + d)%Z.

Definition post_of (t : jsstring) (ip : option jsstring) : TwitterPost :=
  {| text := VStr t; username := None; timestamp := None; clientIP := ip |}.

(** [new SpamDetector()] with no credential in the environment. *)
Definition fresh : SpamDetector := create noChange None.

(** [new SpamDetector({ spamThreshold, flagThreshold })] *)
Definition with_thresholds (spam flagAt : Z) : SpamDetector :=
  create
    {| p_spamThreshold := Some (ofZ spam); p_flagThreshold := Some (ofZ flagAt);
       p_maxTextLength := None; p_minTextLength := None;
       p_enableIPBlocking := None; p_enableAIDetection := None;
       p_geminiApiKey := None |}
    None.

(** [new SpamDetector({ enableAIDetection: true, geminiApiKey: 'test-key' })] *)
Definition with_analyzer : SpamDetector :=
  create
    {| p_spamThreshold := None; p_flagThreshold := None;
       p_maxTextLength := None; p_minTextLength := None;
       p_enableIPBlocking := None; p_enableAIDetection := Some true;
       p_geminiApiKey := Some (js "test-key") |}
    None.

(** A detector that blocks the address 10.0.0.1. *)
Definition blocking_10_0_0_1 : SpamDetector :=
  final (blockIP (js "10.0.0.1")) fresh.

Definition park : jsstring :=
  js "Just had a great day at the park! The weather was perfect.".

Definition freeMoney : jsstring := js "FREE MONEY!!! CLICK HERE NOW!!!".

(** The provider answers a high-severity spam verdict of confidence 0.9. *)
Definition highVerdict : ProviderReply :=
  Responds
    (Json
       [(js "isSpam", VBool true);
        (js "confidence", VNum (Fin 0.9));
        (js "reasoning", VStr (js "Contains spam indicators"));
        (js "categories", VArr [VStr (js "promotion")]);
        (js "severity", VStr (js "high"))]).

(** A blocklist holding the one range 192.168.1.0/24, and one holding
    the one range 0.0.0.0/0. *)
Definition range24 : IPBlocklist :=
  final (addRange (js "192.168.1.0/24")) IPBlocker.empty.

Definition rangeAll : IPBlocklist :=
  final (addRange (js "0.0.0.0/0")) IPBlocker.empty.

(** What [parseAIResponse] makes of [highVerdict]. *)
Definition highVerdictParsed : AIDetectionResult.t :=
  {| AIDetectionResult.isSpam := true;
     AIDetectionResult.confidence := Fin 0.9;
     AIDetectionResult.reasoning := js "Contains spam indicators";
     AIDetectionResult.categories := [js "promotion"];
     AIDetectionResult.severity := high |}.

Definition upperCaseAddress : jsstring :=
  js "2001:0DB8:85A3:0000:0000:8A2E:0370:7334".

Definition lowerCaseAddress : jsstring :=
  js "2001:0db8:85a3:0000:0000:8a2e:0370:7334".

End Sample.

(* ================================================================== *)
(** ** The stages of a decision, as the properties below name them *)
(* ================================================================== *)

Module Stage.
Import IPBlocker SpamRules Gemini SpamDetector.

(** [n] is a finite number of the closed interval from 0 to 1. *)
Definition in_unit (n : number) : Prop :=
  match n with
  | Fin q => (0 <= q /\ q <= 1)%Q
  | _ => False
  end.

Definition in_unit_b (n : number) : bool := ge n (ofZ 0) && le n (ofZ 1).

(** [n] is a finite number that is not negative. *)
Definition nonnegative (n : number) : Prop :=
  match n with
  | Fin q => (0 <= q)%Q
  | _ => False
  end.

(** The rule-based confidence, [Math.min(total / spamThreshold, 1.0)]. *)
Definition baseline (config : DetectionConfig) (total : number) : number :=
  min (div total (spamThreshold config)) (Fin 1).

(** The action the thresholds alone give. *)
Definition baselineAction (config : DetectionConfig) (total : number)
  : Action :=
  if ge total (spamThreshold config) then reject
  else if ge total (flagThreshold config) then flag
  else allow.

(** The 32-bit mask whose top [p] bits are ones. *)
Definition prefixMask (p : Z) : Z := (2 ^ 32 - 2 ^ (32 - p))%Z.

(** The mask [isIPv4InRange] computes for the prefix length [p]. *)
Definition codeMask (p : Z) : Z :=
  if (p =? 0)%Z then 4294967295%Z else prefixMask p.

Definition isOctet (x : Z) : bool := ((0 <=? x) && (x <=? 255))%Z.

(** [n] is the integer [z], written with the denominator 1. *)
Definition is_integer (n : number) (z : Z) : bool :=
  match n with
  | Fin (Qmake num 1) => (num =? z)%Z
  | _ => false
  end.

(** The printed octet holds neither a dot nor a slash, is read back by
    [parseInt] as itself, and is a word of the octet pattern. *)
Definition octet_prints_well (a : Z) : bool :=
  negb (includes_char (Sample.decimal a) (ch "."))
  && negb (includes_char (Sample.decimal a) (ch "/"))
  && is_integer (parseInt (Sample.decimal a)) a
  && Regex.test IPBlocker.octet (Sample.decimal a).

(** A rule's severity as an integer. *)
Definition severityZ (rule : SpamRule) : Z :=
  match severity rule with
  | Fin q => Qnum q
  | _ => 0%Z
  end.

Definition sumZ (zs : list Z) : Z := fold_right Z.add 0%Z zs.

(** The total severity as [detectSpam] computes it, over any rule table:
    [rules.filter(rule => rule.check(post)).reduce(...)]. *)
Definition totalOver (rules : list SpamRule) (post : TwitterPost) : number :=
  fold_left (fun sum rule => add sum (severity rule))
    (List.filter (fun rule => check rule post) rules) (ofZ 0).

(** The three violations [validatePost] reports. *)
Definition textMissing (post : TwitterPost) : bool :=
  negb (truthy (text post)) || negb (is_string (text post)).

Definition overLong (config : DetectionConfig) (post : TwitterPost) : bool :=
  negb (textMissing post)
  && gt (str_length (SpamRules.post_text post)) (maxTextLength config).

Definition tooShort (config : DetectionConfig) (post : TwitterPost) : bool :=
  negb (textMissing post)
  && lt (str_length (trim (SpamRules.post_text post))) (minTextLength config).

(** The verdict qualifies for the override of the synthesis: it marks
    spam with a confidence above 0.8. *)
Definition overrides (v : option AIDetectionResult.t) : bool :=
  match v with
  | Some ai =>
      AIDetectionResult.isSpam ai
      && gt (AIDetectionResult.confidence ai) (Fin 0.8)
  | None => false
  end.

Section WithHost.
Context `{host : Host}.

(** What the origin check of [detectSpam] learns from the blocklist. *)
Definition originVerdict (d : SpamDetector) (post : TwitterPost)
  : IPValidationResult :=
  match clientIP post with
  | Some ip =>
      if enableIPBlocking (config d) && negb (str_eqb ip []) then
        result (validateIP ip) (ipBlocker d)
      else notBlocked
  | None => notBlocked
  end.

Definition originBlocked (d : SpamDetector) (post : TwitterPost) : bool :=
  isBlocked (originVerdict d post).

Definition validation (d : SpamDetector) (post : TwitterPost) : Validation.t :=
  result (validatePost post) d.

(** The verdict [detectSpam] holds in [aiAnalysis] when it reaches the
    analyzer stage. *)
Definition analyzerVerdict (d : SpamDetector) (post : TwitterPost)
  (reply : ProviderReply) : option AIDetectionResult.t :=
  if enableAIDetection (config d)
     && result isConfigured (geminiDetector d)
  then result (analyzeSpam post reply) (geminiDetector d)
  else None.

(** The reasons [detectSpam] holds when it reaches the synthesis. *)
Definition gatheredReasons (post : TwitterPost)
  (aiAnalysis : option AIDetectionResult.t) : list jsstring :=
  let reasons := map description (triggeredRules post) in
  match aiAnalysis with
  | Some aiResult =>
      if AIDetectionResult.isSpam aiResult
         && gt (AIDetectionResult.confidence aiResult) (Fin 0.7)
      then reasons
           ++ [js "AI detected spam: " ++ AIDetectionResult.reasoning aiResult]
      else reasons
  | None => reasons
  end.

End WithHost.

End Stage.

(* ================================================================== *)
(** ** Vocabulary of the further properties *)
(* ================================================================== *)

Module Scenario.
Import IPBlocker SpamRules Gemini SpamDetector.

(** The actions by severity. *)
Definition rank (a : Action) : nat :=
  match a with
  | allow => 0
  | flag => 1
  | reject => 2
  end.

(** [{ enableAIDetection: false }] *)
Definition analyzerOff : PartialConfig :=
  {| p_spamThreshold := None; p_flagThreshold := None;
     p_maxTextLength := None; p_minTextLength := None;
     p_enableIPBlocking := None; p_enableAIDetection := Some false;
     p_geminiApiKey := None |}.

(** No credential: absent, or the empty string. *)
Definition noCredential (key : option jsstring) : bool :=
  match key with
  | Some k => str_eqb k []
  | None => true
  end.

(** The post with no client address. *)
Definition withoutOrigin (post : TwitterPost) : TwitterPost :=
  {| text := text post; username := username post;
     timestamp := timestamp post; clientIP := None |}.

(** *** Sequences of calls on the blocklist *)

(** A call that may change the blocklist. *)
Inductive Operation : Type :=
  | AddIP (ip : jsstring)
  | RemoveIP (ip : jsstring)
  | AddRange (cidr : jsstring)
  | RemoveRange (cidr : jsstring)
  | ClearAll.

Definition perform (op : Operation) : M IPBlocklist unit :=
  match op with
  | AddIP ip => let* _ := addIP ip in ret tt
  | RemoveIP ip => let* _ := removeIP ip in ret tt
  | AddRange cidr => let* _ := addRange cidr in ret tt
  | RemoveRange cidr => let* _ := removeRange cidr in ret tt
  | ClearAll => clearAll
  end.

(** The blocklist after a sequence of calls, from the first to the last. *)
Definition performAll (ops : list Operation) (bl : IPBlocklist)
  : IPBlocklist :=
  fold_left (fun bl op => final (perform op) bl) ops bl.

(** Every exact address is a valid address, every range a valid CIDR, and
    no range is listed twice. *)
Definition wellFormed (bl : IPBlocklist) : Prop :=
  (forall ip, ip ∈ blockedIPs bl -> isValidIP ip = true)
  /\ Forall (fun cidr => isValidCIDR cidr = true) (blockedRanges bl)
  /\ List.NoDup (blockedRanges bl).

(** *** Texts *)

(** The characters of the two address patterns. *)
Definition isIPv4Unit (c : N) : bool := isDigit c || (ch "." =? c)%N.

Definition isHexUnit (c : N) : bool :=
  isDigit c || between (ch "a") (ch "f") c || between (ch "A") (ch "F") c.

Definition isIPv6Unit (c : N) : bool := isHexUnit c || (ch ":" =? c)%N.

(** Every character class of [r] lies within [P]. *)
Fixpoint within (P : N -> bool) (r : Regex.regex) : Prop :=
  match r with
  | Regex.Class p => forall c, p c = true -> P c = true
  | Regex.Seq r1 r2 => within P r1 /\ within P r2
  | Regex.Alt r1 r2 => within P r1 /\ within P r2
  | _ => True
  end.

(** Lower-casing of one ASCII character. *)
Definition asciiLower (c : N) : N := if isUpper c then (c + 32)%N else c.

Definition isAsciiUnit (c : N) : bool := (c <? 128)%N.

(** The host lower-cases a text of ASCII characters one by one, as
    [String.prototype.toLowerCase] does. *)
Definition lowersAscii `{host : Host} : Prop :=
  forall s, forallb isAsciiUnit s = true -> toLowerCase s = map asciiLower s.

(** The text of [s] before its first [sep]. *)
Definition textBefore (sep : N) (s : jsstring) : jsstring :=
  takeWhile (fun c => negb (c =? sep)%N) s.

(** [s] is empty or ends with white space. *)
Definition endsAtSpace (s : jsstring) : bool :=
  match rev s with
  | [] => true
  | w :: _ => isWhiteSpace w
  end.

(** [s] is empty or starts with white space. *)
Definition startsAtSpace (s : jsstring) : bool :=
  match s with
  | [] => true
  | w :: _ => isWhiteSpace w
  end.

End Scenario.

(* ================================================================== *)
(** ** Further sample data *)
(* ================================================================== *)

Module Cases.
Import IPBlocker SpamRules Gemini SpamDetector Server.

(** [{ enableIPBlocking: false }] *)
Definition blockingOff : PartialConfig :=
  {| p_spamThreshold := None; p_flagThreshold := None;
     p_maxTextLength := None; p_minTextLength := None;
     p_enableIPBlocking := Some false; p_enableAIDetection := None;
     p_geminiApiKey := None |}.

(** [{ enableAIDetection: true }], with no key. *)
Definition analyzerOnWithoutKey : PartialConfig :=
  {| p_spamThreshold := None; p_flagThreshold := None;
     p_maxTextLength := None; p_minTextLength := None;
     p_enableIPBlocking := None; p_enableAIDetection := Some true;
     p_geminiApiKey := None |}.

(** A text that triggers the keyword rule and the links rule. *)
Definition freeMoneyLink : jsstring := js "free money http://bit.ly/a".

(** A text with a link to a well-known site. *)
Definition wellKnownLink : jsstring := js "see https://microsoft.com now".

(** Two addresses that differ in their last two groups only. *)
Definition sameStart : jsstring :=
  js "2001:0db8:85a3:0000:0000:8a2e:0399:ffff".

(** A request from the connection 10.0.0.1 that names 8.8.8.8 in its
    X-Forwarded-For header. *)
Definition forwardedRequest : Request :=
  {| x_forwarded_for := Some (js "8.8.8.8, 10.0.0.1");
     x_real_ip := None;
     cf_connecting_ip := None;
     connection := Some {| remoteAddress := Some (js "10.0.0.1") |};
     socket := None;
     ip := None |}.

(** The provider answers that the post is no spam. *)
Definition cleanVerdict : ResponseBody :=
  Json [(js "isSpam", VBool false); (js "confidence", VNum (Fin 0.9))].

End Cases.

(* ================================================================== *)
(** ** Facts about numbers *)
(* ================================================================== *)

Module NumberFacts.
Import Stage.

Lemma Qlt_bool_iff (p q : Q) : Qlt_bool p q = true <-> (p < q)%Q.
Proof.
  unfold Qlt_bool. rewrite negb_true_iff. split.
  - intros Hle. apply Qnot_le_lt. intros Hqp.
    apply Qle_bool_iff in Hqp. congruence.
  - intros Hlt. destruct (Qle_bool q p) eqn:E; [|reflexivity].
    apply Qle_bool_iff in E. exfalso. exact (Qlt_not_le _ _ Hlt E).
Qed.

Lemma Qlt_bool_false_iff (p q : Q) : Qlt_bool p q = false <-> (q <= p)%Q.
Proof.
  unfold Qlt_bool. rewrite negb_false_iff. apply Qle_bool_iff.
Qed.

(** [a >= b] and [b > c] give [a > c]. *)
Lemma ge_gt_trans (a b c : number) :
  ge a b = true -> gt b c = true -> gt a c = true.
Proof.
  unfold ge, gt, le.
  destruct a as [| | |p], b as [| | |q], c as [| | |r]; simpl;
    try discriminate; try reflexivity.
  rewrite negb_true_iff, Qlt_bool_false_iff, !Qlt_bool_iff.
  intros Hqp Hrq. eapply Qlt_le_trans; eassumption.
Qed.

Lemma gt_irrefl (a : number) : gt a a = false.
Proof.
  destruct a as [| | |p]; simpl; try reflexivity.
  apply Qlt_bool_false_iff. apply Qle_refl.
Qed.

(** A confidence above 0.8 is above 0.7. *)
Lemma gt_08_gt_07 (a : number) :
  gt a (Fin 0.8) = true -> gt a (Fin 0.7) = true.
Proof.
  destruct a as [| | |p]; simpl; try discriminate; try reflexivity.
  rewrite !Qlt_bool_iff. intros Hp.
  eapply Qlt_trans; [|exact Hp]. reflexivity.
Qed.

Lemma in_unit_b_spec (n : number) : in_unit_b n = true <-> in_unit n.
Proof.
  unfold in_unit_b, in_unit, ge, le, ofZ.
  destruct n as [| | |q]; simpl; try (split; [discriminate | tauto]).
  rewrite andb_true_iff, !negb_true_iff, !Qlt_bool_false_iff.
  reflexivity.
Qed.

Lemma in_unit_one : in_unit (Fin 1).
Proof. simpl. split; discriminate. Qed.

Lemma add_nonnegative (a b : number) :
  nonnegative a -> nonnegative b -> nonnegative (add a b).
Proof.
  destruct a as [| | |p], b as [| | |q]; simpl; try tauto.
  intros Hp Hq. change 0%Q with (0 + 0)%Q. apply Qplus_le_compat; assumption.
Qed.

(** [Math.min(t / s, 1.0)] lies between 0 and 1 when [t] is not negative
    and [s > 0]. *)
Lemma baseline_in_unit (t s : number) :
  nonnegative t -> gt s (ofZ 0) = true ->
  in_unit (min (div t s) (Fin 1)).
Proof.
  destruct t as [| | |p]; simpl; try tauto. intros Hp.
  destruct s as [| | |q]; simpl; try discriminate.
  - intros _. split; discriminate.
  - rewrite Qlt_bool_iff. intros Hq.
    assert (Hne : Qeq_bool q 0 = false).
    { destruct (Qeq_bool q 0) eqn:E; [|reflexivity].
      apply Qeq_bool_iff in E. rewrite E in Hq.
      exfalso. exact (Qlt_irrefl _ Hq). }
    rewrite Hne. simpl.
    assert (Hdiv : (0 <= p / q)%Q).
    { apply Qle_shift_div_l; [exact Hq|]. rewrite Qmult_0_l. exact Hp. }
    destruct (Qlt_bool 1 (p / q)) eqn:E; simpl.
    + split; discriminate.
    + apply Qlt_bool_false_iff in E. split; assumption.
Qed.

(** [Math.max] of two numbers of the unit interval is in it. *)
Lemma max_in_unit (a b : number) :
  in_unit a -> in_unit b -> in_unit (max a b).
Proof.
  destruct a as [| | |p], b as [| | |q]; simpl; try tauto.
  intros Hp Hq. destruct (Qlt_bool p q); assumption.
Qed.

(** [Math.max(0, Math.min(1, x))] is in the unit interval unless [x] is
    [NaN]. *)
Lemma clamp_in_unit (x : number) :
  x <> NaN -> in_unit (max (ofZ 0) (min (ofZ 1) x)).
Proof.
  destruct x as [| | |q]; simpl; intros Hx; try congruence.
  - split; discriminate.
  - split; discriminate.
  - destruct (Qlt_bool q (inject_Z 1)) eqn:E1; simpl.
    + destruct (Qlt_bool (inject_Z 0) q) eqn:E0; simpl.
      * apply Qlt_bool_iff in E0, E1. split; apply Qlt_le_weak; assumption.
      * split; discriminate.
    + split; discriminate.
Qed.

Lemma truthy_or_zero_not_nan (x : number) :
  (if number_truthy x then x else ofZ 0) <> NaN.
Proof.
  destruct x; simpl; try discriminate. destruct (negb _); discriminate.
Qed.

Lemma add_ofZ (x y : Z) : add (ofZ x) (ofZ y) = ofZ (x + y).
Proof.
  unfold add, ofZ, inject_Z, Qplus. cbn [Qnum Qden Pos.mul].
  rewrite !Z.mul_1_r. reflexivity.
Qed.

End NumberFacts.

(* ================================================================== *)
(** ** The matcher decides the language of a pattern *)
(* ================================================================== *)

Module RegexFacts.
Import Regex.

Lemma lang_Void_inv (s : jsstring) : ~ lang Void s.
Proof. intros Hl. inversion Hl. Qed.

Lemma lang_Eps_inv (s : jsstring) : lang Eps s -> s = [].
Proof. intros Hl. inversion Hl. reflexivity. Qed.

Lemma lang_Class_inv (p : N -> bool) (s : jsstring) :
  lang (Class p) s -> exists c, s = [c] /\ p c = true.
Proof. intros Hl. inversion Hl; subst. eauto. Qed.

Lemma lang_Seq_inv (r1 r2 : regex) (s : jsstring) :
  lang (Seq r1 r2) s ->
  exists s1 s2, s = s1 ++ s2 /\ lang r1 s1 /\ lang r2 s2.
Proof. intros Hl. inversion Hl; subst. eauto. Qed.

Lemma lang_Alt_inv (r1 r2 : regex) (s : jsstring) :
  lang (Alt r1 r2) s -> lang r1 s \/ lang r2 s.
Proof. intros Hl. inversion Hl; subst; auto. Qed.

Lemma nullable_spec (r : regex) : nullable r = true <-> lang r [].
Proof.
  induction r as [| |p|r1 IH1 r2 IH2|r1 IH1 r2 IH2]; simpl.
  - split; [discriminate | intros Hl; destruct (lang_Void_inv _ Hl)].
  - split; [intros _; constructor | reflexivity].
  - split; [discriminate|]. intros Hl.
    apply lang_Class_inv in Hl as (c & Hs & _). discriminate.
  - rewrite andb_true_iff, IH1, IH2. split.
    + intros [H1 H2]. exact (lang_Seq r1 r2 [] [] H1 H2).
    + intros Hl. apply lang_Seq_inv in Hl as (s1 & s2 & Hs & H1 & H2).
      symmetry in Hs. apply app_eq_nil in Hs as [-> ->]. split; assumption.
  - rewrite orb_true_iff, IH1, IH2. split.
    + intros [H1 | H2]; [apply lang_AltL | apply lang_AltR]; assumption.
    + apply lang_Alt_inv.
Qed.

Lemma seq_spec (r1 r2 : regex) (s : jsstring) :
  lang (seq r1 r2) s <-> lang (Seq r1 r2) s.
Proof.
  assert (Hvoid1 : forall r, lang Void s <-> lang (Seq Void r) s).
  { intros r. split; intros Hl; [destruct (lang_Void_inv _ Hl)|].
    apply lang_Seq_inv in Hl as (s1 & s2 & _ & H1 & _).
    destruct (lang_Void_inv _ H1). }
  assert (Hvoid2 : forall r, lang Void s <-> lang (Seq r Void) s).
  { intros r. split; intros Hl; [destruct (lang_Void_inv _ Hl)|].
    apply lang_Seq_inv in Hl as (s1 & s2 & _ & _ & H2).
    destruct (lang_Void_inv _ H2). }
  assert (Heps1 : forall r, lang r s <-> lang (Seq Eps r) s).
  { intros r. split; intros Hl.
    - exact (lang_Seq Eps r [] s lang_Eps Hl).
    - apply lang_Seq_inv in Hl as (s1 & s2 & -> & H1 & H2).
      apply lang_Eps_inv in H1 as ->. exact H2. }
  assert (Heps2 : forall r, lang r s <-> lang (Seq r Eps) s).
  { intros r. split; intros Hl.
    - rewrite <- (app_nil_r s). exact (lang_Seq r Eps s [] Hl lang_Eps).
    - apply lang_Seq_inv in Hl as (s1 & s2 & -> & H1 & H2).
      apply lang_Eps_inv in H2 as ->. rewrite app_nil_r. exact H1. }
  destruct r1, r2; simpl; auto; reflexivity.
Qed.

Lemma alt_spec (r1 r2 : regex) (s : jsstring) :
  lang (alt r1 r2) s <-> lang (Alt r1 r2) s.
Proof.
  assert (Hvoid1 : forall r, lang r s <-> lang (Alt Void r) s).
  { intros r. split; intros Hl; [apply lang_AltR, Hl|].
    apply lang_Alt_inv in Hl as [Hl | Hl];
      [destruct (lang_Void_inv _ Hl) | exact Hl]. }
  assert (Hvoid2 : forall r, lang r s <-> lang (Alt r Void) s).
  { intros r. split; intros Hl; [apply lang_AltL, Hl|].
    apply lang_Alt_inv in Hl as [Hl | Hl];
      [exact Hl | destruct (lang_Void_inv _ Hl)]. }
  destruct r1, r2; simpl; auto; reflexivity.
Qed.

Lemma deriv_spec (c : N) (r : regex) (s : jsstring) :
  lang (deriv c r) s <-> lang r (c :: s).
Proof.
  revert s. induction r as [| |p|r1 IH1 r2 IH2|r1 IH1 r2 IH2]; intros s; simpl.
  - split; intros Hl; destruct (lang_Void_inv _ Hl).
  - split; intros Hl; [destruct (lang_Void_inv _ Hl)|].
    apply lang_Eps_inv in Hl. discriminate.
  - destruct (p c) eqn:Hp; split; intros Hl.
    + apply lang_Eps_inv in Hl as ->. constructor. exact Hp.
    + apply lang_Class_inv in Hl as (c' & [= <- ->] & _). constructor.
    + destruct (lang_Void_inv _ Hl).
    + apply lang_Class_inv in Hl as (c' & [= <- ->] & Hp'). congruence.
  - rewrite alt_spec. split.
    + intros Hl. apply lang_Alt_inv in Hl as [Hleft | Hright].
      * apply seq_spec, lang_Seq_inv in Hleft as (s1 & s2 & -> & H1 & H2).
        apply IH1 in H1. exact (lang_Seq r1 r2 (c :: s1) s2 H1 H2).
      * destruct (nullable r1) eqn:Hnull;
          [|destruct (lang_Void_inv _ Hright)].
        apply nullable_spec in Hnull. apply IH2 in Hright.
        exact (lang_Seq r1 r2 [] (c :: s) Hnull Hright).
    + intros Hl. apply lang_Seq_inv in Hl as (s1 & s2 & Heq & H1 & H2).
      destruct s1 as [|c' s1]; simpl in Heq.
      * subst s2. apply lang_AltR.
        rewrite (proj2 (nullable_spec r1) H1). apply IH2. exact H2.
      * injection Heq as <- ->. apply lang_AltL, seq_spec.
        apply lang_Seq; [apply IH1; exact H1 | exact H2].
  - rewrite alt_spec. split; intros Hl;
      apply lang_Alt_inv in Hl as [Hl | Hl];
      solve [apply lang_AltL, IH1; exact Hl | apply lang_AltR, IH2; exact Hl].
Qed.

(** The matcher decides membership in the language of the pattern. *)
Lemma test_spec (r : regex) (s : jsstring) : test r s = true <-> lang r s.
Proof.
  unfold test. revert r. induction s as [|c s IH]; intros r; simpl.
  - apply nullable_spec.
  - rewrite IH. apply deriv_spec.
Qed.

End RegexFacts.

(* ================================================================== *)
(** ** Methods that only read the state *)
(* ================================================================== *)

Module ReadOnly.

Lemma preserves_run {S A} (m : M S A) :
  preserves m -> forall s, m s = (result m s, s).
Proof.
  intros Hm s. specialize (Hm s). unfold final, result in *.
  destruct (m s) as [a s']. simpl in *. congruence.
Qed.

Lemma preserves_ret {S A} (a : A) : preserves (@ret S A a).
Proof. intros s. reflexivity. Qed.

Lemma preserves_get {S} : preserves (@get S).
Proof. intros s. reflexivity. Qed.

Lemma preserves_bind {S A B} (m : M S A) (k : A -> M S B) :
  preserves m -> (forall a, preserves (k a)) -> preserves (bind m k).
Proof.
  intros Hm Hk s. unfold final, bind.
  rewrite (preserves_run m Hm s). apply Hk.
Qed.

(** A method of a field is read-only on the whole object when putting
    the field back where it came from changes nothing. *)
Lemma preserves_zoom {S T A} (proj : S -> T) (upd : T -> S -> S)
  (m : M T A) :
  (forall s, upd (proj s) s = s) -> preserves m -> preserves (zoom proj upd m).
Proof.
  intros Hlens Hm s. unfold final, zoom.
  rewrite (preserves_run m Hm (proj s)). simpl. apply Hlens.
Qed.

Lemma preserves_if {S A} (b : bool) (m1 m2 : M S A) :
  preserves m1 -> preserves m2 -> preserves (if b then m1 else m2).
Proof. destruct b; auto. Qed.

End ReadOnly.

(* ================================================================== *)
(** ** The pipeline, stage by stage *)
(* ================================================================== *)

Module PipelineFacts.
Import IPBlocker SpamRules Gemini SpamDetector Stage NumberFacts ReadOnly.

Ltac read_only :=
  repeat first
    [ apply preserves_ret
    | apply preserves_get
    | apply preserves_bind; [|intros ?]
    | apply preserves_if
    | match goal with
      | |- preserves (match ?x with _ => _ end) => destruct x
      end ].

Section WithHost.
Context `{host : Host}.

Lemma validateIP_preserves (ip : jsstring) : preserves (validateIP ip).
Proof. unfold validateIP. read_only. Qed.

Lemma isConfigured_preserves : preserves isConfigured.
Proof. unfold isConfigured. read_only. Qed.

Lemma analyzeSpam_preserves (post : TwitterPost) (reply : ProviderReply) :
  preserves (analyzeSpam post reply).
Proof.
  unfold analyzeSpam. apply preserves_bind; [apply isConfigured_preserves|].
  intros configured. read_only.
Qed.

Lemma validatePost_preserves (post : TwitterPost) :
  preserves (validatePost post).
Proof. unfold validatePost. read_only. Qed.

Lemma on_ipBlocker_preserves {A} (m : M IPBlocklist A) :
  preserves m -> preserves (on_ipBlocker m).
Proof.
  intros Hm. unfold on_ipBlocker. apply preserves_zoom; [|exact Hm].
  intros [c b g]. reflexivity.
Qed.

Lemma on_geminiDetector_preserves {A} (m : M GeminiSpamDetector A) :
  preserves m -> preserves (on_geminiDetector m).
Proof.
  intros Hm. unfold on_geminiDetector. apply preserves_zoom; [|exact Hm].
  intros [c b g]. reflexivity.
Qed.

Lemma detectSpam_preserves (post : TwitterPost) (reply : ProviderReply) :
  preserves (detectSpam post reply).
Proof.
  unfold detectSpam.
  apply preserves_bind; [apply preserves_get|]. intros this.
  apply preserves_bind.
  - destruct (clientIP post) as [ip|]; [|apply preserves_ret].
    apply preserves_if; [|apply preserves_ret].
    apply preserves_bind.
    + apply on_ipBlocker_preserves, validateIP_preserves.
    + intros v. read_only.
  - intros [decision|]; [apply preserves_ret|].
    apply preserves_bind; [apply validatePost_preserves|]. intros v.
    apply preserves_if; [apply preserves_ret|].
    apply preserves_bind; [apply preserves_get|]. intros this'.
    apply preserves_bind.
    + apply preserves_if; [|apply preserves_ret].
      apply preserves_bind.
      * apply on_geminiDetector_preserves, isConfigured_preserves.
      * intros configured. apply preserves_if; [|apply preserves_ret].
        apply on_geminiDetector_preserves, analyzeSpam_preserves.
    + intros ai. read_only.
Qed.

Lemma analyzer_stage_run (post : TwitterPost) (reply : ProviderReply)
  (d : SpamDetector) :
  (if enableAIDetection (config d) then
     let* configured := on_geminiDetector isConfigured in
     if configured then on_geminiDetector (analyzeSpam post reply)
     else ret None
   else ret None) d
  = (analyzerVerdict d post reply, d).
Proof.
  unfold analyzerVerdict. destruct d as [c b g].
  cbn [config geminiDetector].
  destruct (enableAIDetection c); cbn [andb]; [|reflexivity].
  unfold bind, on_geminiDetector, zoom. cbn [geminiDetector].
  rewrite (preserves_run _ isConfigured_preserves g).
  destruct (result isConfigured g); [|reflexivity].
  cbn [config ipBlocker geminiDetector].
  rewrite (preserves_run _ (analyzeSpam_preserves post reply) g).
  reflexivity.
Qed.

(** [detectSpam] seen as its four outcomes: rejection at the origin
    check, rejection at validation, or the synthesis over the rules'
    total and the analyzer's verdict; the detector is handed back as it
    was. *)
Lemma detectSpam_run (post : TwitterPost) (reply : ProviderReply)
  (d : SpamDetector) :
  detectSpam post reply d
  = (if originBlocked d post then
       rejected [or_default (reason (originVerdict d post))
                   (js "IP address is blocked")]
     else if negb (Validation.isValid (validation d post)) then
       rejected (Validation.reasons (validation d post))
     else
       synthesize (config d) (totalSeverity post)
         (gatheredReasons post (analyzerVerdict d post reply))
         (analyzerVerdict d post reply),
     d).
Proof.
  assert (Htail :
    (let* validationResult := validatePost post in
     if negb (Validation.isValid validationResult) then
       ret (rejected (Validation.reasons validationResult))
     else
       let triggered := triggeredRules post in
       let total := totalSeverity post in
       let reasons := map description triggered in
       let* this := get in
       let* aiAnalysis :=
         if enableAIDetection (config this) then
           let* configured := on_geminiDetector isConfigured in
           if configured then on_geminiDetector (analyzeSpam post reply)
           else ret None
         else ret None in
       let reasons :=
         match aiAnalysis with
         | Some aiResult =>
             if AIDetectionResult.isSpam aiResult
                && gt (AIDetectionResult.confidence aiResult) (Fin 0.7)
             then reasons
                  ++ [js "AI detected spam: "
                      ++ AIDetectionResult.reasoning aiResult]
             else reasons
         | None => reasons
         end in
       let* this := get in
       ret (synthesize (config this) total reasons aiAnalysis)) d
    = (if negb (Validation.isValid (validation d post)) then
         rejected (Validation.reasons (validation d post))
       else
         synthesize (config d) (totalSeverity post)
           (gatheredReasons post (analyzerVerdict d post reply))
           (analyzerVerdict d post reply),
       d)).
  { unfold bind at 1.
    rewrite (preserves_run _ (validatePost_preserves post) d).
    fold (validation d post).
    destruct (negb (Validation.isValid (validation d post)));
      [reflexivity|].
    cbv zeta. unfold bind at 1. unfold get at 1.
    unfold bind at 1. rewrite analyzer_stage_run.
    reflexivity. }
  unfold detectSpam. unfold bind at 1. unfold get at 1.
  unfold bind at 1. unfold originBlocked, originVerdict.
  destruct (clientIP post) as [ip|].
  - destruct (enableIPBlocking (config d) && negb (str_eqb ip [])).
    + unfold bind at 1.
      rewrite (preserves_run _
                 (on_ipBlocker_preserves _ (validateIP_preserves ip)) d).
      replace (result (on_ipBlocker (validateIP ip)) d)
        with (result (validateIP ip) (ipBlocker d)).
      2:{ unfold result, on_ipBlocker, zoom.
          destruct (validateIP ip (ipBlocker d)); reflexivity. }
      destruct (isBlocked (result (validateIP ip) (ipBlocker d)));
        [reflexivity|].
      unfold ret at 1. exact Htail.
    + unfold ret at 1. simpl isBlocked. exact Htail.
  - unfold ret at 1. simpl isBlocked. exact Htail.
Qed.

(** *** The fields of a synthesized decision *)

Lemma synthesize_confidence config total reasons ai :
  SpamDetectionResult.confidence (synthesize config total reasons ai)
  = match ai with
    | Some a =>
        if AIDetectionResult.isSpam a then
          max (baseline config total) (AIDetectionResult.confidence a)
        else baseline config total
    | None => baseline config total
    end.
Proof.
  unfold synthesize, baseline. destruct ai as [a|]; [|reflexivity].
  destruct (AIDetectionResult.isSpam a); cbn [andb];
    [destruct (gt (AIDetectionResult.confidence a) (Fin 0.8))|];
    reflexivity.
Qed.

Lemma synthesize_isSpam config total reasons ai :
  SpamDetectionResult.isSpam (synthesize config total reasons ai)
  = overrides ai || ge total (flagThreshold config).
Proof.
  unfold synthesize, overrides. destruct ai as [a|]; [|reflexivity].
  destruct (AIDetectionResult.isSpam a
            && gt (AIDetectionResult.confidence a) (Fin 0.8));
    reflexivity.
Qed.

Lemma synthesize_action config total reasons ai :
  SpamDetectionResult.action (synthesize config total reasons ai)
  = match ai with
    | Some a =>
        if overrides ai then
          match AIDetectionResult.severity a with
          | high => reject
          | _ => if ge total (spamThreshold config) then reject else flag
          end
        else baselineAction config total
    | None => baselineAction config total
    end.
Proof.
  unfold synthesize, overrides, baselineAction.
  destruct ai as [a|]; [|reflexivity].
  destruct (AIDetectionResult.isSpam a
            && gt (AIDetectionResult.confidence a) (Fin 0.8));
    reflexivity.
Qed.

Lemma synthesize_reasons config total reasons ai :
  SpamDetectionResult.reasons (synthesize config total reasons ai) = reasons.
Proof.
  unfold synthesize. destruct ai as [a|]; [|reflexivity].
  destruct (AIDetectionResult.isSpam a
            && gt (AIDetectionResult.confidence a) (Fin 0.8));
    reflexivity.
Qed.

Lemma synthesize_aiAnalysis config total reasons ai :
  SpamDetectionResult.aiAnalysis (synthesize config total reasons ai) = ai.
Proof.
  unfold synthesize. destruct ai as [a|]; [|reflexivity].
  destruct (AIDetectionResult.isSpam a
            && gt (AIDetectionResult.confidence a) (Fin 0.8));
    reflexivity.
Qed.

(** *** The rules' total *)

Lemma spamRules_severities :
  Forall (fun rule => nonnegative (severity rule)) spamRules.
Proof. unfold spamRules. repeat constructor; discriminate. Qed.

Lemma total_nonnegative (rules : list SpamRule) (start : number) :
  Forall (fun rule => nonnegative (severity rule)) rules ->
  nonnegative start ->
  nonnegative (fold_left (fun sum rule => add sum (severity rule)) rules start).
Proof.
  intros Hrules. revert start.
  induction Hrules as [|rule rules Hrule _ IH]; intros start Hstart.
  - exact Hstart.
  - simpl. apply IH. apply add_nonnegative; assumption.
Qed.

Lemma totalSeverity_nonnegative (post : TwitterPost) :
  nonnegative (totalSeverity post).
Proof.
  unfold totalSeverity, triggeredRules. apply total_nonnegative.
  - apply List.Forall_forall. intros rule Hin. apply filter_In in Hin.
    destruct Hin as [Hin _].
    exact (proj1 (List.Forall_forall _ _) spamRules_severities rule Hin).
  - simpl. discriminate.
Qed.

(** *** The total over a reordered rule table *)

Lemma sumZ_permutation (xs ys : list Z) :
  Permutation xs ys -> sumZ xs = sumZ ys.
Proof.
  intros Hperm. induction Hperm as [|x xs ys _ IH|x y xs|xs ys zs _ IH1 _ IH2];
    simpl; lia.
Qed.

Lemma filter_permutation {A} (f : A -> bool) (xs ys : list A) :
  Permutation xs ys -> Permutation (List.filter f xs) (List.filter f ys).
Proof.
  intros Hperm.
  induction Hperm as [|x xs ys _ IH|x y xs|xs ys zs _ IH1 _ IH2]; simpl.
  - constructor.
  - destruct (f x); [constructor|]; exact IH.
  - destruct (f x), (f y); try reflexivity. constructor.
  - etransitivity; eassumption.
Qed.

Lemma total_of_integers (rules : list SpamRule) (start : Z) :
  Forall (fun rule => severity rule = ofZ (severityZ rule)) rules ->
  fold_left (fun sum rule => add sum (severity rule)) rules (ofZ start)
  = ofZ (start + sumZ (map severityZ rules)).
Proof.
  intros Hall. revert start.
  induction Hall as [|rule rules Hrule _ IH]; intros start;
    cbn [fold_left map sumZ fold_right].
  - rewrite Z.add_0_r. reflexivity.
  - rewrite Hrule, add_ofZ, IH. unfold sumZ. f_equal. lia.
Qed.

(** *** The analyzer's verdict *)

Lemma parseAIResponse_confidence (body : ResponseBody) :
  in_unit (AIDetectionResult.confidence (parseAIResponse body)).
Proof.
  destruct body as [|fields].
  - simpl. split; discriminate.
  - cbn [parseAIResponse AIDetectionResult.confidence].
    apply clamp_in_unit, truthy_or_zero_not_nan.
Qed.

Lemma analyzerVerdict_confidence d post reply ai :
  analyzerVerdict d post reply = Some ai ->
  in_unit (AIDetectionResult.confidence ai).
Proof.
  unfold analyzerVerdict, analyzeSpam.
  destruct (enableAIDetection (config d)
            && result isConfigured (geminiDetector d)); [|discriminate].
  unfold result, bind.
  rewrite (preserves_run _ isConfigured_preserves (geminiDetector d)).
  destruct (negb (result isConfigured (geminiDetector d)));
    [discriminate|].
  destruct reply as [|body]; [discriminate|].
  cbn. intros [= <-]. apply parseAIResponse_confidence.
Qed.

(** *** Validation *)

Lemma validation_isValid d post :
  Validation.isValid (validation d post)
  = Nat.eqb (length (Validation.reasons (validation d post))) 0.
Proof. reflexivity. Qed.

Lemma validation_reasons d post :
  Validation.reasons (validation d post)
  = if negb (truthy (text post)) || negb (is_string (text post)) then
      [textRequired]
    else
      (if gt (str_length (post_text post)) (maxTextLength (config d))
       then [exceedsMaximum (maxTextLength (config d))] else [])
      ++
      (if lt (str_length (trim (post_text post))) (minTextLength (config d))
       then [belowMinimum (minTextLength (config d))] else []).
Proof. reflexivity. Qed.

(** *** The reason of a block at the origin *)

(** When the origin check blocks, the one reason of the decision is the
    reason [validateIP] gives: the in-blocklist reason, or the reason that
    names a listed range containing the address. *)
Lemma origin_block_reason (d : SpamDetector) (post : TwitterPost) :
  originBlocked d post = true ->
  exists ip,
    clientIP post = Some ip
    /\ (or_default (reason (originVerdict d post))
          (js "IP address is blocked")
        = js "IP address is in blocklist"
        \/ exists range,
             List.In range (blockedRanges (ipBlocker d))
             /\ isIPInRange ip range = true
             /\ or_default (reason (originVerdict d post))
                  (js "IP address is blocked")
                = js "IP address is in blocked range: " ++ range).
Proof.
  unfold originBlocked, originVerdict.
  destruct (clientIP post) as [ip|]; [|discriminate].
  destruct (enableIPBlocking (config d) && negb (str_eqb ip []));
    [|discriminate].
  intros Hblocked. exists ip. split; [reflexivity|].
  unfold result, validateIP in Hblocked |- *.
  destruct (str_eqb ip [] || negb (isValidIP ip)); [discriminate Hblocked|].
  unfold bind, get, ret in Hblocked |- *. cbn [fst] in Hblocked |- *.
  destruct (bool_decide (ip ∈ blockedIPs (ipBlocker d))).
  - left. vm_compute. reflexivity.
  - destruct (find (isIPInRange ip) (blockedRanges (ipBlocker d)))
      as [range|] eqn:Hfound; [|discriminate Hblocked].
    apply find_some in Hfound as [Hlisted Hcontains].
    right. exists range. split; [exact Hlisted|]. split; [exact Hcontains|].
    cbn [fst reason or_default].
    change (js "IP address is in blocked range: " ++ range)
      with (ch "I" :: (js "P address is in blocked range: " ++ range)).
    unfold str_eqb. rewrite bool_decide_eq_false_2 by discriminate.
    reflexivity.
Qed.

End WithHost.

End PipelineFacts.

(* ================================================================== *)
(** ** Properties of the decision pipeline *)
(* ================================================================== *)

Module DecisionProperties.
Import IPBlocker SpamRules Gemini SpamDetector Stage NumberFacts ReadOnly.
Import PipelineFacts.

Section WithHost.
Context `{host : Host}.

(** C1.  A post that passes the origin check and validation and for which
    no analyzer override qualifies (no verdict, or a verdict that does not
    mark spam with a confidence above 0.8) is rejected when the total
    severity reaches [spamThreshold], else flagged when it reaches
    [flagThreshold], else allowed; and it is spam exactly when the total
    reaches [flagThreshold].  The total is the sum of the severities of the
    triggered rules: the rules of the table whose check holds for the
    post, each counted with its severity, a whole number; it is what
    [detectSpam] computes as [totalSeverity].  The verdict the hypothesis
    speaks of is the one the decision carries in [aiAnalysis]. *)
Theorem baseline_decision (d : SpamDetector) (post : TwitterPost)
  (reply : ProviderReply) :
  originBlocked d post = false ->
  Validation.isValid (validation d post) = true ->
  overrides (analyzerVerdict d post reply) = false ->
  let r := result (detectSpam post reply) d in
  let triggered := List.filter (fun rule => check rule post) spamRules in
  let total := ofZ (sumZ (map severityZ triggered)) in
  Forall (fun rule => severity rule = ofZ (severityZ rule)) triggered
  /\ totalSeverity post = total
  /\ SpamDetectionResult.action r
     = (if ge total (spamThreshold (config d)) then reject
        else if ge total (flagThreshold (config d)) then flag
        else allow)
  /\ SpamDetectionResult.isSpam r = ge total (flagThreshold (config d))
  /\ SpamDetectionResult.aiAnalysis r = analyzerVerdict d post reply.
Proof.
  intros Horigin Hvalid Hoverride r triggered total.
  assert (Hints : Forall (fun rule => severity rule = ofZ (severityZ rule))
                    triggered).
  { apply List.Forall_forall. intros rule Hin.
    apply filter_In in Hin as [Hin _].
    assert (Htable : Forall (fun rule => severity rule = ofZ (severityZ rule))
                       spamRules).
    { unfold spamRules. repeat constructor. }
    exact (proj1 (List.Forall_forall _ _) Htable rule Hin). }
  assert (Htotal : totalSeverity post = total).
  { unfold totalSeverity, triggeredRules. fold triggered.
    rewrite (total_of_integers triggered 0 Hints). reflexivity. }
  split; [exact Hints|]. split; [exact Htotal|].
  rewrite <- Htotal. subst r.
  unfold result. rewrite detectSpam_run. cbn [fst].
  rewrite Horigin, Hvalid. cbn [negb].
  rewrite synthesize_action, synthesize_isSpam, synthesize_aiAnalysis,
    Hoverride.
  split; [|split; reflexivity].
  destruct (analyzerVerdict d post reply); reflexivity.
Qed.

(** C2.  A post that reaches the synthesis with an analyzer verdict that
    marks spam with a confidence above 0.8 is spam whatever the rules'
    total; it is rejected when the verdict's severity is high, and
    otherwise rejected when the total reaches [spamThreshold] and flagged
    when it does not.  The decision carries that verdict in [aiAnalysis]. *)
Theorem analyzer_override (d : SpamDetector) (post : TwitterPost)
  (reply : ProviderReply) (ai : AIDetectionResult.t) :
  originBlocked d post = false ->
  Validation.isValid (validation d post) = true ->
  analyzerVerdict d post reply = Some ai ->
  AIDetectionResult.isSpam ai = true ->
  gt (AIDetectionResult.confidence ai) (Fin 0.8) = true ->
  let r := result (detectSpam post reply) d in
  let total := totalSeverity post in
  SpamDetectionResult.isSpam r = true
  /\ SpamDetectionResult.action r
     = match AIDetectionResult.severity ai with
       | high => reject
       | _ => if ge total (spamThreshold (config d)) then reject else flag
       end
  /\ SpamDetectionResult.aiAnalysis r = Some ai.
Proof.
  intros Horigin Hvalid Hverdict Hspam Hconfident r total. subst r total.
  assert (Hoverride : overrides (Some ai) = true).
  { unfold overrides. rewrite Hspam, Hconfident. reflexivity. }
  unfold result. rewrite detectSpam_run. cbn [fst].
  rewrite Horigin, Hvalid. cbn [negb].
  rewrite synthesize_action, synthesize_isSpam, synthesize_aiAnalysis,
    Hverdict, Hoverride.
  repeat split; reflexivity.
Qed.

(** C3, amended.  Whenever [spamThreshold] is greater than 0, the
    confidence of the decision is a number between 0 and 1, for every
    post, every blocklist and every analyzer outcome: none, a well-formed
    verdict, or a reply whose fields are missing or of the wrong kind. *)
Theorem confidence_in_unit (d : SpamDetector) (post : TwitterPost)
  (reply : ProviderReply) :
  gt (spamThreshold (config d)) (ofZ 0) = true ->
  in_unit (SpamDetectionResult.confidence (result (detectSpam post reply) d)).
Proof.
  intros Hthreshold. unfold result. rewrite detectSpam_run. cbn [fst].
  destruct (originBlocked d post); [apply in_unit_one|].
  destruct (negb (Validation.isValid (validation d post)));
    [apply in_unit_one|].
  rewrite synthesize_confidence.
  assert (Hbase : in_unit (baseline (config d) (totalSeverity post))).
  { apply baseline_in_unit;
      [apply totalSeverity_nonnegative | exact Hthreshold]. }
  destruct (analyzerVerdict d post reply) as [ai|] eqn:Hverdict;
    [|exact Hbase].
  destruct (AIDetectionResult.isSpam ai); [|exact Hbase].
  apply max_in_unit; [exact Hbase|].
  eapply analyzerVerdict_confidence; exact Hverdict.
Qed.

(** C5, amended.  A post whose text is missing, empty or not a string,
    or longer than [maxTextLength], or shorter than [minTextLength] once
    trimmed, is rejected at once, whatever the provider would answer:
    action [reject], [isSpam] true, confidence 1, no analyzer verdict.
    Unless the origin check has already rejected the post, the reasons are
    the violation messages of [validatePost]: the text-required message
    alone for a missing text, and otherwise the length-exceeded and the
    below-minimum messages for the bounds that are violated.  When the
    origin check has rejected the post, the reasons hold the one block
    reason instead: the in-blocklist reason, or the reason that names a
    listed range containing the client address. *)
Theorem invalid_post_rejected (d : SpamDetector) (post : TwitterPost)
  (reply : ProviderReply) :
  textMissing post = true \/ overLong (config d) post = true
  \/ tooShort (config d) post = true ->
  let r := result (detectSpam post reply) d in
  SpamDetectionResult.action r = reject
  /\ SpamDetectionResult.isSpam r = true
  /\ SpamDetectionResult.confidence r = Fin 1
  /\ SpamDetectionResult.aiAnalysis r = None
  /\ (forall reply', result (detectSpam post reply') d = r)
  /\ (originBlocked d post = false ->
      SpamDetectionResult.reasons r = Validation.reasons (validation d post)
      /\ (textMissing post = true ->
          SpamDetectionResult.reasons r = [textRequired])
      /\ (overLong (config d) post = true ->
          List.In (exceedsMaximum (maxTextLength (config d)))
            (SpamDetectionResult.reasons r))
      /\ (tooShort (config d) post = true ->
          List.In (belowMinimum (minTextLength (config d)))
            (SpamDetectionResult.reasons r)))
  /\ (originBlocked d post = true ->
      exists ip,
        clientIP post = Some ip
        /\ (SpamDetectionResult.reasons r = [js "IP address is in blocklist"]
            \/ exists range,
                 List.In range (blockedRanges (ipBlocker d))
                 /\ isIPInRange ip range = true
                 /\ SpamDetectionResult.reasons r
                    = [js "IP address is in blocked range: " ++ range])).
Proof.
  intros Hviolation r.
  assert (Hinvalid : Validation.isValid (validation d post) = false).
  { rewrite validation_isValid, validation_reasons.
    unfold overLong, tooShort in Hviolation.
    fold (textMissing post).
    destruct (textMissing post); [reflexivity|].
    cbn [negb andb] in Hviolation.
    destruct Hviolation as [Hm | [Hl | Hs]];
      [discriminate | rewrite Hl; reflexivity | rewrite Hs].
    destruct (gt _ _); reflexivity. }
  assert (Hr : forall reply',
    result (detectSpam post reply') d
    = if originBlocked d post then
        rejected [or_default (reason (originVerdict d post))
                    (js "IP address is blocked")]
      else rejected (Validation.reasons (validation d post))).
  { intros reply'. unfold result. rewrite detectSpam_run. cbn [fst].
    rewrite Hinvalid. reflexivity. }
  subst r. rewrite (Hr reply).
  destruct (originBlocked d post) eqn:Horigin.
  - do 4 (split; [reflexivity|]). split; [apply Hr|].
    split; [discriminate|]. intros _.
    destruct (origin_block_reason d post Horigin)
      as (ip & Hip & [Hexact | (range & Hlisted & Hcontains & Hrange)]);
      exists ip; (split; [exact Hip|]);
      cbn [rejected SpamDetectionResult.reasons].
    + left. rewrite Hexact. reflexivity.
    + right. exists range. rewrite Hrange. repeat split; assumption.
  - do 4 (split; [reflexivity|]). split; [apply Hr|].
    split; [|discriminate]. intros _.
    split; [reflexivity|]. split; [|split].
    + intros Hm. cbn [rejected SpamDetectionResult.reasons].
      rewrite validation_reasons. fold (textMissing post).
      rewrite Hm. reflexivity.
    + intros Hl. cbn [rejected SpamDetectionResult.reasons].
      rewrite validation_reasons. fold (textMissing post).
      unfold overLong in Hl. apply andb_true_iff in Hl as [Hm Hl].
      apply negb_true_iff in Hm. rewrite Hm, Hl.
      apply in_or_app. left. left. reflexivity.
    + intros Hs. cbn [rejected SpamDetectionResult.reasons].
      rewrite validation_reasons. fold (textMissing post).
      unfold tooShort in Hs. apply andb_true_iff in Hs as [Hm Hs].
      apply negb_true_iff in Hm. rewrite Hm, Hs.
      apply in_or_app. right. left. reflexivity.
Qed.

(** C7, amended.  Whenever [flagThreshold] is greater than 0, a decision
    with [isSpam] true has at least one reason, for every post, every
    blocklist and every analyzer outcome. *)
Theorem spam_has_reasons (d : SpamDetector) (post : TwitterPost)
  (reply : ProviderReply) :
  gt (flagThreshold (config d)) (ofZ 0) = true ->
  let r := result (detectSpam post reply) d in
  SpamDetectionResult.isSpam r = true ->
  SpamDetectionResult.reasons r <> [].
Proof.
  intros Hthreshold r. subst r.
  unfold result. rewrite detectSpam_run. cbn [fst].
  destruct (originBlocked d post); [discriminate|].
  destruct (negb (Validation.isValid (validation d post))) eqn:Hvalid.
  - intros _. cbn [rejected SpamDetectionResult.reasons].
    apply negb_true_iff in Hvalid. rewrite validation_isValid in Hvalid.
    destruct (Validation.reasons (validation d post));
      [discriminate Hvalid | discriminate].
  - rewrite synthesize_isSpam, synthesize_reasons. intros Hspam.
    apply orb_true_iff in Hspam as [Hoverride | Htotal].
    + destruct (analyzerVerdict d post reply) as [ai|];
        [|discriminate Hoverride].
      cbn [overrides] in Hoverride.
      apply andb_true_iff in Hoverride as [Hai Hconfident].
      unfold gatheredReasons.
      rewrite Hai, (gt_08_gt_07 _ Hconfident). cbn [andb].
      intros Hnil. apply app_eq_nil in Hnil as [_ Hnil]. discriminate.
    + pose proof (ge_gt_trans _ _ _ Htotal Hthreshold) as Hpositive.
      unfold gatheredReasons.
      destruct (triggeredRules post) as [|rule rules] eqn:Htriggered.
      * unfold totalSeverity in Hpositive. rewrite Htriggered in Hpositive.
        cbn [fold_left] in Hpositive. rewrite gt_irrefl in Hpositive.
        discriminate.
      * destruct (analyzerVerdict d post reply) as [ai|];
          [destruct (_ && _)|]; discriminate.
Qed.

(** C10.  A call of [detectSpam] leaves the detector as it was: every
    field of the configuration, the exact-IP set and the range list of
    the blocklist, and the analyzer adapter. *)
Theorem detectSpam_leaves_state (d : SpamDetector) (post : TwitterPost)
  (reply : ProviderReply) :
  let d' := final (detectSpam post reply) d in
  d' = d
  /\ config d' = config d
  /\ blockedIPs (ipBlocker d') = blockedIPs (ipBlocker d)
  /\ blockedRanges (ipBlocker d') = blockedRanges (ipBlocker d)
  /\ geminiDetector d' = geminiDetector d.
Proof.
  intros d'. assert (Hd : d' = d) by apply detectSpam_preserves.
  rewrite Hd. repeat split.
Qed.

(** X7.  The total severity does not depend on the order in which the
    rules are evaluated: over any reordering of the rule table,
    [detectSpam]'s filter-and-sum gives the total it gives over the
    table as written. *)
Theorem total_is_order_independent (rules : list SpamRule)
  (post : TwitterPost) :
  Permutation rules spamRules -> totalOver rules post = totalSeverity post.
Proof.
  intros Hperm.
  assert (Hints : Forall (fun rule => severity rule = ofZ (severityZ rule))
                    spamRules).
  { unfold spamRules. repeat constructor. }
  assert (Hfiltered : forall l, Permutation l spamRules ->
    Forall (fun rule => severity rule = ofZ (severityZ rule))
      (List.filter (fun rule => check rule post) l)).
  { intros l Hl. apply List.Forall_forall. intros rule Hin.
    apply filter_In in Hin as [Hin _].
    apply (Permutation_in _ Hl) in Hin.
    exact (proj1 (List.Forall_forall _ _) Hints rule Hin). }
  unfold totalOver, totalSeverity, triggeredRules.
  rewrite (total_of_integers _ 0 (Hfiltered rules Hperm)).
  rewrite (total_of_integers _ 0 (Hfiltered spamRules (Permutation_refl _))).
  f_equal. f_equal. apply sumZ_permutation, Permutation_map.
  apply filter_permutation. exact Hperm.
Qed.

End WithHost.

End DecisionProperties.

(* ================================================================== *)
(** ** Properties of the IP blocklist *)
(* ================================================================== *)

Module BlocklistFacts.
Import IPBlocker ReadOnly Stage Sample NumberFacts RegexFacts.
Import Regex (lang, lang_Seq, lang_Eps, lang_Class, chr, rep, test).

Lemma isValidIP_nonempty (ip : jsstring) :
  isValidIP ip = true -> str_eqb ip [] = false.
Proof.
  destruct ip as [|c rest]; intros Hvalid.
  - vm_compute in Hvalid. discriminate.
  - apply bool_decide_eq_false. discriminate.
Qed.

Lemma strict_eq_ofZ (a b : Z) : strict_eq (ofZ a) (ofZ b) = (a =? b)%Z.
Proof.
  unfold strict_eq, ofZ, Qeq_bool, inject_Z. cbn [Qnum Qden].
  rewrite !Z.mul_1_r. reflexivity.
Qed.

(** *** Splitting at a separator *)

Lemma split_without_separator (sep : N) (s : jsstring) :
  includes_char s sep = false -> split sep s = [s].
Proof.
  unfold includes_char. induction s as [|c s IH]; intros Hs; [reflexivity|].
  cbn [existsb] in Hs. apply orb_false_iff in Hs as [Hc Hs].
  cbn [split]. rewrite N.eqb_sym, Hc, (IH Hs). reflexivity.
Qed.

Lemma split_at_separator (sep : N) (s rest : jsstring) :
  includes_char s sep = false ->
  split sep (s ++ sep :: rest) = s :: split sep rest.
Proof.
  unfold includes_char. induction s as [|c s IH]; intros Hs.
  - cbn [app split]. rewrite N.eqb_refl. reflexivity.
  - cbn [existsb] in Hs. apply orb_false_iff in Hs as [Hc Hs].
    cbn [app split]. rewrite N.eqb_sym, Hc, (IH Hs). reflexivity.
Qed.

(** *** The 32-bit operators on integers *)

Local Open Scope Z_scope.

Lemma wrap_small x : 0 <= x < two31 -> wrap_int32 x = x.
Proof.
  intros Hx. unfold wrap_int32, two31, two32 in *.
  rewrite Z.mod_small by lia.
  destruct (Z.ltb_spec x 2147483648); [reflexivity | lia].
Qed.

Lemma wrap_large x : two31 <= x < two32 -> wrap_int32 x = x - two32.
Proof.
  intros Hx. unfold wrap_int32, two31, two32 in *.
  rewrite Z.mod_small by lia.
  destruct (Z.ltb_spec x 2147483648); [lia | reflexivity].
Qed.

Lemma testbit_wrap x k :
  0 <= x < two32 -> 0 <= k ->
  Z.testbit (wrap_int32 x) k = Z.testbit x (Z.min k 31).
Proof.
  intros Hx Hk. unfold two32 in Hx.
  destruct (Z.lt_ge_cases x two31) as [Hlow | Hhigh]; unfold two31 in *.
  - rewrite wrap_small by (unfold two31; lia).
    destruct (Z.le_gt_cases k 30) as [Hk30 | Hk31].
    + rewrite Z.min_l by lia. reflexivity.
    + assert (Hx31 : x = x mod 2 ^ 31) by (rewrite Z.mod_small; lia).
      rewrite Hx31, !Z.mod_pow2_bits_high by lia. reflexivity.
  - rewrite wrap_large by (unfold two31, two32; lia). unfold two32.
    destruct (Z.le_gt_cases k 31) as [Hk31 | Hk32].
    + rewrite Z.min_l by lia.
      rewrite <- (Z.mod_pow2_bits_low (x - 4294967296) 32 k) by lia.
      rewrite <- (Z.mod_pow2_bits_low x 32 k) by lia.
      f_equal. change (2 ^ 32) with 4294967296.
      replace (x - 4294967296) with (x + (-1) * 4294967296) by lia.
      apply Z.mod_add. lia.
    + rewrite Z.min_r by lia.
      rewrite Z.bits_above_log2_neg.
      * symmetry. apply Z.testbit_true; [lia|].
        change (2 ^ 31) with 2147483648.
        assert (Hq : x / 2147483648 = 1).
        { symmetry. apply (Z.div_unique x 2147483648 1 (x - 2147483648)); lia. }
        rewrite Hq. reflexivity.
      * lia.
      * destruct (Z.eq_dec (Z.pred (- (x - 4294967296))) 0) as [E|E].
        { rewrite E. simpl. lia. }
        apply Z.log2_lt_pow2; [lia|].
        eapply Z.lt_le_trans with (m := 2 ^ 31).
        { change (2 ^ 31) with 2147483648. lia. }
        apply Z.pow_le_mono_r; lia.
Qed.

Lemma wrap_mod x : 0 <= x < two32 -> (wrap_int32 x) mod two32 = x.
Proof.
  intros Hx. destruct (Z.lt_ge_cases x two31) as [Hlow | Hhigh].
  - rewrite wrap_small by lia. apply Z.mod_small. exact Hx.
  - rewrite wrap_large by lia. unfold two32 in *.
    replace (x - 4294967296) with (x + (-1) * 4294967296) by lia.
    rewrite Z.mod_add by lia. apply Z.mod_small. exact Hx.
Qed.

Lemma land_uint32 u m :
  0 <= u < two32 -> 0 <= m < two32 -> 0 <= Z.land u m < two32.
Proof.
  intros Hu Hm. unfold two32 in *.
  assert (Hmask : Z.land u m = Z.land u m mod 2 ^ 32).
  { rewrite <- Z.land_ones by lia. rewrite <- Z.land_assoc.
    rewrite (Z.land_ones m) by lia. rewrite (Z.mod_small m) by (simpl; lia).
    reflexivity. }
  rewrite Hmask. change 4294967296 with (2 ^ 32).
  apply Z.mod_pos_bound. reflexivity.
Qed.

Lemma land_wrap u m :
  0 <= u < two32 -> 0 <= m < two32 ->
  Z.land (wrap_int32 u) (wrap_int32 m) = wrap_int32 (Z.land u m).
Proof.
  intros Hu Hm. apply Z.bits_inj'. intros k Hk.
  rewrite Z.land_spec, !testbit_wrap by (auto using land_uint32).
  rewrite Z.land_spec. reflexivity.
Qed.

Lemma toUint32_range a : 0 <= toUint32 a < two32.
Proof.
  destruct a; simpl; unfold two32; try lia.
  apply Z.mod_pos_bound. reflexivity.
Qed.

Lemma toUint32_ofZ u : 0 <= u < two32 -> toUint32 (ofZ u) = u.
Proof.
  intros Hu. unfold toUint32, ofZ, truncate, inject_Z. cbn [Qnum Qden].
  rewrite Z.quot_1_r. apply Z.mod_small. exact Hu.
Qed.

Lemma ushr_zero a : ushr a (ofZ 0) = ofZ (toUint32 a).
Proof. unfold ushr. change (toUint32 (ofZ 0) mod 32) with 0. reflexivity. Qed.

Lemma ipv4ToNumber_uint32 ip :
  ipv4ToNumber ip = ofZ (toUint32 (ipv4ToNumber ip)).
Proof.
  unfold ipv4ToNumber. rewrite ushr_zero.
  rewrite toUint32_ofZ by apply toUint32_range. reflexivity.
Qed.

Lemma mask_of_prefix p :
  0 <= p <= 32 ->
  ushr (shl (ofZ 4294967295) (sub (ofZ 32) (ofZ p))) (ofZ 0)
  = ofZ (codeMask p).
Proof.
  intros Hp.
  assert (Hcases : In p (map Z.of_nat (List.seq 0 33))).
  { rewrite <- (Z2Nat.id p) by lia. apply in_map, in_seq. lia. }
  cbn [List.seq map In Z.of_nat Pos.of_succ_nat Pos.succ] in Hcases.
  repeat (destruct Hcases as [<- | Hcases]; [vm_compute; reflexivity|]).
  contradiction.
Qed.

Lemma codeMask_range p : 0 <= p <= 32 -> 0 <= codeMask p < two32.
Proof.
  intros Hp. unfold codeMask, prefixMask, two32.
  destruct (Z.eqb_spec p 0) as [_ | Hne]; [lia|].
  change (2 ^ 32) with 4294967296.
  assert (0 < 2 ^ (32 - p) <= 2 ^ 31).
  { split; [apply Z.pow_pos_nonneg; lia | apply Z.pow_le_mono_r; lia]. }
  change (2 ^ 31) with 2147483648 in *. lia.
Qed.

Lemma band_ofZ u m :
  0 <= u < two32 -> 0 <= m < two32 ->
  band (ofZ u) (ofZ m) = ofZ (wrap_int32 (Z.land u m)).
Proof.
  intros Hu Hm. unfold band, toInt32.
  rewrite !toUint32_ofZ, land_wrap by assumption. reflexivity.
Qed.

(** [isIPv4InRange] compares the two encodings under the mask the code
    computes for the prefix length. *)
Lemma isIPv4InRange_by_mask (ip network : jsstring) (p : Z) :
  0 <= p <= 32 ->
  isIPv4InRange ip network (ofZ p)
  = (Z.land (toUint32 (ipv4ToNumber ip)) (codeMask p)
     =? Z.land (toUint32 (ipv4ToNumber network)) (codeMask p)).
Proof.
  intros Hp. unfold isIPv4InRange.
  rewrite (mask_of_prefix p Hp).
  rewrite (ipv4ToNumber_uint32 ip), (ipv4ToNumber_uint32 network).
  set (u := toUint32 (ipv4ToNumber ip)).
  set (v := toUint32 (ipv4ToNumber network)).
  assert (Hu : 0 <= u < two32) by apply toUint32_range.
  assert (Hv : 0 <= v < two32) by apply toUint32_range.
  pose proof (codeMask_range p Hp) as Hm.
  rewrite !toUint32_ofZ by assumption.
  rewrite !band_ofZ by assumption.
  rewrite strict_eq_ofZ.
  pose proof (land_uint32 u _ Hu Hm) as Hlu.
  pose proof (land_uint32 v _ Hv Hm) as Hlv.
  destruct (Z.eqb_spec (Z.land u (codeMask p)) (Z.land v (codeMask p)))
    as [Heq | Hne].
  - rewrite Heq. apply Z.eqb_refl.
  - apply Z.eqb_neq. intros Hwrap. apply Hne.
    rewrite <- (wrap_mod _ Hlu), <- (wrap_mod _ Hlv), Hwrap. reflexivity.
Qed.

Lemma ge_ofZ (x y : Z) : ge (ofZ x) (ofZ y) = (y <=? x).
Proof.
  unfold ge, le, lt, ofZ, Qlt_bool, Qle_bool, inject_Z. cbn [Qnum Qden].
  rewrite negb_involutive, !Z.mul_1_r. reflexivity.
Qed.

Lemma le_ofZ (x y : Z) : le (ofZ x) (ofZ y) = (x <=? y).
Proof. apply (ge_ofZ y x). Qed.

Lemma isOctet_spec (x : Z) : isOctet x = true -> 0 <= x <= 255.
Proof.
  unfold isOctet. intros Hx. apply andb_true_iff in Hx as [Hlo Hhi].
  apply Z.leb_le in Hlo, Hhi. lia.
Qed.

Lemma encoding_range (a b c d : Z) :
  0 <= a <= 255 -> 0 <= b <= 255 -> 0 <= c <= 255 -> 0 <= d <= 255 ->
  0 <= encoding a b c d < two32.
Proof.
  intros Ha Hb Hc Hd. unfold encoding, two32.
  change (2 ^ 24) with 16777216. change (2 ^ 16) with 65536.
  change (2 ^ 8) with 256. lia.
Qed.

Lemma shl_ofZ x : 0 <= x < two32 ->
  shl (ofZ x) (ofZ 8) = ofZ (wrap_int32 (wrap_int32 x * 256)).
Proof.
  intros Hx. unfold shl, toInt32. rewrite toUint32_ofZ by exact Hx.
  change (toUint32 (ofZ 8) mod 32) with 8.
  rewrite Z.shiftl_mul_pow2 by lia. reflexivity.
Qed.

Lemma shl_ofZ_small x : 0 <= x < 2 ^ 23 ->
  shl (ofZ x) (ofZ 8) = ofZ (x * 256).
Proof.
  intros Hx. change (2 ^ 23) with 8388608 in Hx.
  rewrite shl_ofZ by (unfold two32; lia).
  rewrite (wrap_small x) by (unfold two31; lia).
  rewrite wrap_small by (unfold two31; lia). reflexivity.
Qed.

Lemma toUint32_ofZ_mod z : toUint32 (ofZ z) = z mod two32.
Proof.
  unfold toUint32, ofZ, truncate, inject_Z. cbn [Qnum Qden].
  rewrite Z.quot_1_r. reflexivity.
Qed.


(** *** Printed octets and dotted quads *)

Lemma is_integer_spec n z : is_integer n z = true -> n = ofZ z.
Proof.
  destruct n as [| | |[num den]]; try discriminate. simpl.
  destruct den; try discriminate. intros Hz. apply Z.eqb_eq in Hz.
  subst. reflexivity.
Qed.

Lemma octet_cases (a : Z) :
  0 <= a <= 255 -> In a (map Z.of_nat (List.seq 0 256)).
Proof.
  intros Ha. rewrite <- (Z2Nat.id a) by lia.
  apply in_map, in_seq. lia.
Qed.

Lemma octet_printed (a : Z) :
  0 <= a <= 255 ->
  includes_char (decimal a) (ch ".") = false
  /\ includes_char (decimal a) (ch "/") = false
  /\ parseInt (decimal a) = ofZ a
  /\ lang octet (decimal a).
Proof.
  intros Ha. apply octet_cases in Ha.
  assert (Hall :
    forallb octet_prints_well (map Z.of_nat (List.seq 0 256)) = true)
    by (vm_compute; reflexivity).
  rewrite forallb_forall in Hall. specialize (Hall a Ha).
  unfold octet_prints_well in Hall.
  apply andb_true_iff in Hall as [Hall Hword].
  apply andb_true_iff in Hall as [Hall Hint].
  apply andb_true_iff in Hall as [Hdot Hslash].
  repeat split.
  - apply negb_true_iff, Hdot.
  - apply negb_true_iff, Hslash.
  - apply is_integer_spec, Hint.
  - apply test_spec, Hword.
Qed.

Lemma includes_char_app (s t : jsstring) (c : N) :
  includes_char (s ++ t) c = includes_char s c || includes_char t c.
Proof. unfold includes_char. apply existsb_app. Qed.

Lemma includes_char_cons (x : N) (s : jsstring) (c : N) :
  includes_char (x :: s) c = (c =? x)%N || includes_char s c.
Proof. reflexivity. Qed.

Lemma dotted_has_no_slash (a b c d : Z) :
  0 <= a <= 255 -> 0 <= b <= 255 -> 0 <= c <= 255 -> 0 <= d <= 255 ->
  includes_char (dotted a b c d) (ch "/") = false.
Proof.
  intros Ha Hb Hc Hd.
  destruct (octet_printed a Ha) as (_ & Hsa & _).
  destruct (octet_printed b Hb) as (_ & Hsb & _).
  destruct (octet_printed c Hc) as (_ & Hsc & _).
  destruct (octet_printed d Hd) as (_ & Hsd & _).
  unfold dotted.
  rewrite !includes_char_app, !includes_char_cons, !includes_char_app,
    !includes_char_cons, !includes_char_app, !includes_char_cons.
  rewrite Hsa, Hsb, Hsc, Hsd. reflexivity.
Qed.

Lemma dotted_has_dot (a b c d : Z) :
  includes_char (dotted a b c d) (ch ".") = true.
Proof.
  unfold dotted. rewrite includes_char_app, includes_char_cons, N.eqb_refl.
  apply orb_true_r.
Qed.

Lemma dotted_valid (a b c d : Z) :
  0 <= a <= 255 -> 0 <= b <= 255 -> 0 <= c <= 255 -> 0 <= d <= 255 ->
  isValidIP (dotted a b c d) = true.
Proof.
  intros Ha Hb Hc Hd.
  destruct (octet_printed a Ha) as (_ & _ & _ & Hwa).
  destruct (octet_printed b Hb) as (_ & _ & _ & Hwb).
  destruct (octet_printed c Hc) as (_ & _ & _ & Hwc).
  destruct (octet_printed d Hd) as (_ & _ & _ & Hwd).
  assert (Hdot : lang (chr ".") [ch "."]).
  { apply lang_Class. apply N.eqb_refl. }
  assert (Hword : lang ipv4Regex (dotted a b c d)).
  { unfold ipv4Regex, dotted. cbn [rep].
    replace (decimal a ++ ch "." :: decimal b ++ ch "." :: decimal c
             ++ ch "." :: decimal d)
      with (((decimal a ++ [ch "."]) ++ (decimal b ++ [ch "."])
             ++ (decimal c ++ [ch "."]) ++ []) ++ decimal d).
    2:{ rewrite app_nil_r, <- !app_assoc. reflexivity. }
    repeat (first [apply lang_Seq | exact lang_Eps | assumption]). }
  unfold isValidIP. rewrite (proj2 (test_spec _ _) Hword). reflexivity.
Qed.

Lemma ipv4ToNumber_dotted (a b c d : Z) :
  0 <= a <= 255 -> 0 <= b <= 255 -> 0 <= c <= 255 -> 0 <= d <= 255 ->
  ipv4ToNumber (dotted a b c d)
  = ofZ (encoding a b c d).
Proof.
  intros Ha Hb Hc Hd.
  destruct (octet_printed a Ha) as (Hda & _ & Hpa & _).
  destruct (octet_printed b Hb) as (Hdb & _ & Hpb & _).
  destruct (octet_printed c Hc) as (Hdc & _ & Hpc & _).
  destruct (octet_printed d Hd) as (Hdd & _ & Hpd & _).
  unfold ipv4ToNumber, dotted.
  rewrite !split_at_separator by assumption.
  rewrite split_without_separator by assumption.
  cbn [fold_left]. rewrite Hpa, Hpb, Hpc, Hpd.
  rewrite (shl_ofZ_small 0) by (simpl; lia). rewrite add_ofZ.
  rewrite (shl_ofZ_small (0 * 256 + a)) by (change (2 ^ 23) with 8388608; lia).
  rewrite add_ofZ.
  rewrite (shl_ofZ_small ((0 * 256 + a) * 256 + b))
    by (change (2 ^ 23) with 8388608; lia).
  rewrite add_ofZ.
  set (x := ((0 * 256 + a) * 256 + b) * 256 + c).
  assert (Hx : 0 <= x < 16777216) by (subst x; lia).
  rewrite (shl_ofZ x) by (unfold two32; lia).
  rewrite (wrap_small x) by (unfold two31; lia).
  rewrite add_ofZ, ushr_zero, toUint32_ofZ_mod.
  unfold encoding. f_equal.
  rewrite Z.add_mod by (unfold two32; lia).
  rewrite wrap_mod by (unfold two32; lia).
  rewrite (Z.mod_small d) by (unfold two32; lia).
  rewrite Z.mod_small by (unfold two32; lia).
  change (2 ^ 24) with 16777216. change (2 ^ 16) with 65536.
  change (2 ^ 8) with 256. subst x. lia.
Qed.

Local Close Scope Z_scope.

Section WithHost.
Context `{host : Host}.

(** The loop over the ranges answers whether some range contains the
    address. *)
Lemma range_scan (ip : jsstring) (ranges : list jsstring) :
  isBlocked
    match find (isIPInRange ip) ranges with
    | Some range =>
        {| isBlocked := true;
           reason := Some (js "IP address is in blocked range: " ++ range);
           blockedIP := Some ip |}
    | None => notBlocked
    end
  = existsb (isIPInRange ip) ranges.
Proof.
  induction ranges as [|range ranges IH]; [reflexivity|].
  cbn [find existsb]. destruct (isIPInRange ip range); [reflexivity|].
  exact IH.
Qed.

(** [validateIP] on a valid address: the exact set first, the ranges
    next. *)
Lemma validateIP_valid (ip : jsstring) (bl : IPBlocklist) :
  isValidIP ip = true ->
  isBlocked (result (validateIP ip) bl)
  = bool_decide (ip ∈ blockedIPs bl)
    || existsb (isIPInRange ip) (blockedRanges bl).
Proof.
  intros Hvalid. unfold result, validateIP.
  rewrite (isValidIP_nonempty ip Hvalid), Hvalid. cbn [negb orb].
  unfold bind, get, ret. cbn [fst].
  destruct (bool_decide (ip ∈ blockedIPs bl)); [reflexivity|].
  cbn [orb]. rewrite <- range_scan.
  destruct (find (isIPInRange ip) (blockedRanges bl)); reflexivity.
Qed.

End WithHost.

End BlocklistFacts.

Module BlocklistProperties.
Import IPBlocker ReadOnly BlocklistFacts Stage Sample.

Section WithHost.
Context `{host : Host}.


(** What the exact set does: it holds the string as it was given.  After
    [addIP] of a valid address that very string is blocked with the
    in-blocklist reason, and the answer of [validateIP] for any other
    string, a differently-cased spelling of the address included, is what
    it was before. *)
Theorem exact_match_is_by_spelling (bl : IPBlocklist) (ip other : jsstring) :
  isValidIP ip = true ->
  other <> ip ->
  let bl1 := final (addIP ip) bl in
  result (validateIP ip) bl1
  = {| isBlocked := true;
       reason := Some (js "IP address is in blocklist");
       blockedIP := Some ip |}
  /\ result (validateIP other) bl1 = result (validateIP other) bl.
Proof.
  intros Hvalid Hother bl1.
  assert (Hbl1 : bl1 = {| blockedIPs := {[ ip ]} ∪ blockedIPs bl;
                          blockedRanges := blockedRanges bl |}).
  { subst bl1. unfold final, addIP. rewrite Hvalid. reflexivity. }
  rewrite Hbl1. split.
  - unfold result, validateIP.
    rewrite (isValidIP_nonempty ip Hvalid), Hvalid. cbn [negb orb].
    unfold bind, get, ret. cbn [fst blockedIPs].
    rewrite bool_decide_eq_true_2
      by (apply elem_of_union_l, elem_of_singleton; reflexivity).
    reflexivity.
  - unfold result, validateIP.
    destruct (str_eqb other [] || negb (isValidIP other)); [reflexivity|].
    unfold bind, get, ret. cbn [fst blockedIPs blockedRanges].
    destruct (bool_decide (other ∈ blockedIPs bl)) eqn:Hmember.
    + apply bool_decide_eq_true_1 in Hmember.
      rewrite bool_decide_eq_true_2 by (apply elem_of_union_r; exact Hmember).
      reflexivity.
    + apply bool_decide_eq_false_1 in Hmember.
      rewrite bool_decide_eq_false_2.
      2:{ rewrite elem_of_union, elem_of_singleton.
          intros [Heq | Hin]; [exact (Hother Heq) | exact (Hmember Hin)]. }
      destruct (find (isIPInRange other) (blockedRanges bl)); reflexivity.
Qed.

(** With a prefix length of 0 the mask [(0xFFFFFFFF << 32) >>> 0] has all
    its 32 bits set, so the containment test compares the two addresses
    in full. *)
Lemma prefix_zero_compares_all_bits (ip network : jsstring) :
  isIPv4InRange ip network (ofZ 0)
  = (toInt32 (ipv4ToNumber ip) =? toInt32 (ipv4ToNumber network))%Z.
Proof.
  unfold isIPv4InRange.
  change (ushr (shl (ofZ 4294967295) (sub (ofZ 32) (ofZ 0))) (ofZ 0))
    with (ofZ 4294967295).
  unfold band. change (toInt32 (ofZ 4294967295)) with (-1)%Z.
  rewrite !Z.land_m1_r. apply strict_eq_ofZ.
Qed.

(** X2.  The containment test on printed addresses.  For octets [a.b.c.d] and
    [a'.b'.c'.d'] and a prefix length [p] from 0 to 32, both texts pass
    validation, and the address is in the range [a'.b'.c'.d'/p] exactly
    when the two 32-bit encodings agree under the mask the code computes;
    that mask is the one whose top [p] bits are ones for [p] from 1 to 32,
    and for [p = 0] it is all ones where the prefix mask is 0. *)
Theorem dotted_range_containment (a b c d a' b' c' d' p : Z) :
  forallb isOctet [a; b; c; d; a'; b'; c'; d'] = true ->
  (0 <= p <= 32)%Z ->
  let ip := dotted a b c d in
  let cidr := dotted a' b' c' d' ++ ch "/" :: decimal p in
  isValidIP ip = true
  /\ isValidCIDR cidr = true
  /\ isIPInRange ip cidr
     = (Z.land (encoding a b c d) (codeMask p)
        =? Z.land (encoding a' b' c' d') (codeMask p))%Z
  /\ ((1 <= p)%Z -> codeMask p = prefixMask p)
  /\ (codeMask 0 = 4294967295%Z /\ prefixMask 0 = 0%Z).
Proof.
  intros Hoctets Hp ip cidr. subst ip.
  cbn [forallb] in Hoctets.
  apply andb_true_iff in Hoctets as [Ha Hoctets].
  apply andb_true_iff in Hoctets as [Hb Hoctets].
  apply andb_true_iff in Hoctets as [Hc Hoctets].
  apply andb_true_iff in Hoctets as [Hd Hoctets].
  apply andb_true_iff in Hoctets as [Ha' Hoctets].
  apply andb_true_iff in Hoctets as [Hb' Hoctets].
  apply andb_true_iff in Hoctets as [Hc' Hoctets].
  apply andb_true_iff in Hoctets as [Hd' _].
  apply isOctet_spec in Ha, Hb, Hc, Hd, Ha', Hb', Hc', Hd'.
  assert (Hp' : (0 <= p <= 255)%Z) by lia.
  destruct (octet_printed p Hp') as (_ & Hpslash & Hpint & _).
  pose proof (dotted_has_no_slash a' b' c' d' Ha' Hb' Hc' Hd') as Hnet.
  assert (Hsplit : split (ch "/") cidr = [dotted a' b' c' d'; decimal p]).
  { subst cidr. rewrite (split_at_separator _ _ _ Hnet).
    rewrite (split_without_separator _ _ Hpslash). reflexivity. }
  split; [apply dotted_valid; assumption|].
  split.
  - unfold isValidCIDR. rewrite Hsplit.
    rewrite (dotted_valid a' b' c' d' Ha' Hb' Hc' Hd'). cbn [negb].
    rewrite Hpint. cbn [isNaN ofZ]. fold (ofZ p). fold (ofZ 0). fold (ofZ 32).
    rewrite dotted_has_dot, ge_ofZ, le_ofZ.
    apply andb_true_iff. split; apply Z.leb_le; lia.
  - split.
    + unfold isIPInRange. rewrite Hsplit. cbn [hd nth_error parseInt_opt].
      rewrite Hpint, !dotted_has_dot. cbn [andb].
      rewrite (isIPv4InRange_by_mask _ _ p Hp).
      rewrite (ipv4ToNumber_dotted a b c d Ha Hb Hc Hd).
      rewrite (ipv4ToNumber_dotted a' b' c' d' Ha' Hb' Hc' Hd').
      rewrite !toUint32_ofZ by (apply encoding_range; assumption).
      reflexivity.
    + split.
      * intros Hpos. unfold codeMask.
        destruct (Z.eqb_spec p 0); [lia | reflexivity].
      * split; reflexivity.
Qed.

(** X6.  The first range of the list that contains the address is the
    one the reason names, whatever ranges follow it. *)
Theorem first_matching_range_wins (ip range : jsstring)
  (before after : list jsstring) (ips : gset (list N)) :
  isValidIP ip = true ->
  ip ∉ ips ->
  forallb (fun r => negb (isIPInRange ip r)) before = true ->
  isIPInRange ip range = true ->
  result (validateIP ip)
    {| blockedIPs := ips; blockedRanges := before ++ range :: after |}
  = {| isBlocked := true;
       reason := Some (js "IP address is in blocked range: " ++ range);
       blockedIP := Some ip |}.
Proof.
  intros Hvalid Habsent Hbefore Hrange. unfold result, validateIP.
  rewrite (isValidIP_nonempty ip Hvalid), Hvalid. cbn [negb orb].
  unfold bind, get, ret. cbn [fst blockedIPs blockedRanges].
  rewrite (bool_decide_eq_false_2 _ Habsent).
  assert (Hfind : find (isIPInRange ip) (before ++ range :: after)
                  = Some range).
  { induction before as [|r before IH]; cbn [app find].
    - rewrite Hrange. reflexivity.
    - cbn [forallb] in Hbefore. apply andb_true_iff in Hbefore as [Hr Hrest].
      apply negb_true_iff in Hr. rewrite Hr. exact (IH Hrest). }
  rewrite Hfind. reflexivity.
Qed.

Lemma rangeAll_fields :
  Sample.rangeAll = {| blockedIPs := ∅; blockedRanges := [js "0.0.0.0/0"] |}.
Proof. vm_compute. reflexivity. Qed.

(** C4, evaluated.  The range 0.0.0.0/0 is accepted by [addRange], yet
    with it as the only range an address is blocked only if its 32-bit
    encoding is that of the network, 0: the address 1.2.3.4 is not
    blocked.  The range 192.168.1.0/24 blocks 192.168.1.1 and
    192.168.1.254 and not 192.168.2.1. *)
Theorem prefix_zero_range_blocks_only_its_network (ip : jsstring) :
  result (addRange (js "0.0.0.0/0")) IPBlocker.empty = true
  /\ isBlocked (result (validateIP ip) Sample.rangeAll)
     = isValidIP ip && includes_char ip (ch ".")
       && (toInt32 (ipv4ToNumber ip) =? 0)%Z
  /\ isBlocked (result (validateIP (js "1.2.3.4")) Sample.rangeAll) = false
  /\ isBlocked (result (validateIP (js "192.168.1.1")) Sample.range24) = true
  /\ isBlocked (result (validateIP (js "192.168.1.254")) Sample.range24) = true
  /\ isBlocked (result (validateIP (js "192.168.2.1")) Sample.range24) = false.
Proof.
  split; [vm_compute; reflexivity|].
  split; [|repeat split; vm_compute; reflexivity].
  destruct (isValidIP ip) eqn:Hvalid.
  - rewrite (validateIP_valid ip _ Hvalid), rangeAll_fields.
    cbn [blockedIPs blockedRanges existsb].
    rewrite bool_decide_eq_false_2 by apply not_elem_of_empty.
    cbn [orb andb]. rewrite orb_false_r.
    unfold isIPInRange.
    change (split (ch "/") (js "0.0.0.0/0")) with [js "0.0.0.0"; js "0"].
    cbn [hd nth_error].
    change (parseInt_opt (Some (js "0"))) with (ofZ 0).
    change (includes_char (js "0.0.0.0") (ch ".")) with true.
    change (includes_char (js "0.0.0.0") (ch ":")) with false.
    rewrite andb_true_r, andb_false_r.
    destruct (includes_char ip (ch ".")); [|reflexivity].
    rewrite prefix_zero_compares_all_bits. reflexivity.
  - unfold result, validateIP. rewrite Hvalid, orb_true_r. reflexivity.
Qed.

End WithHost.

(** [parseInt] reads the digits and ignores what follows them. *)
Lemma digits_prefix_app (ds rest : jsstring) :
  forallb isDigit ds = true ->
  match rest with
  | c :: _ => isDigit c = false
  | [] => True
  end ->
  digits_prefix (ds ++ rest) = digits_prefix ds.
Proof.
  intros Hds Hrest. induction ds as [|d ds IH].
  - destruct rest as [|c rest]; [reflexivity|]. simpl. rewrite Hrest.
    reflexivity.
  - simpl in Hds. apply andb_true_iff in Hds as [Hd Hds].
    simpl. rewrite Hd, (IH Hds). reflexivity.
Qed.

Lemma digit_cases (d : N) :
  isDigit d = true ->
  In d [48; 49; 50; 51; 52; 53; 54; 55; 56; 57]%N.
Proof.
  unfold isDigit. intros Hd. apply andb_true_iff in Hd as [Hlo Hhi].
  apply N.leb_le in Hlo, Hhi. cbn [In].
  assert (Hcases : (d = 48 \/ d = 49 \/ d = 50 \/ d = 51 \/ d = 52
                    \/ d = 53 \/ d = 54 \/ d = 55 \/ d = 56 \/ d = 57)%N)
    by lia.
  intuition auto.
Qed.

(** A text that starts with a digit is read as its leading digits. *)
Lemma parseInt_digits (d : N) (tail : jsstring) :
  isDigit d = true ->
  parseInt (d :: tail) = ofZ (decimal_value (digits_prefix (d :: tail))).
Proof.
  intros Hd. apply digit_cases in Hd. cbn [In] in Hd.
  repeat (destruct Hd as [<- | Hd]; [reflexivity|]). contradiction.
Qed.

Lemma parseInt_ignores_suffix (d : N) (ds rest : jsstring) :
  forallb isDigit (d :: ds) = true ->
  match rest with
  | c :: _ => isDigit c = false
  | [] => True
  end ->
  parseInt ((d :: ds) ++ rest) = parseInt (d :: ds).
Proof.
  intros Hds Hrest.
  pose proof Hds as Hd. cbn [forallb] in Hd.
  apply andb_true_iff in Hd as [Hd _].
  rewrite (parseInt_digits d ds Hd).
  change ((d :: ds) ++ rest) with (d :: (ds ++ rest)).
  rewrite (parseInt_digits d (ds ++ rest) Hd).
  change (d :: (ds ++ rest)) with ((d :: ds) ++ rest).
  rewrite (digits_prefix_app (d :: ds) rest Hds Hrest). reflexivity.
Qed.

(** X1.  The defect behind C6 in general: whatever text follows the digits of
    the prefix part, as long as it holds no slash and does not start with
    a digit, [isValidCIDR] answers as it does without that text. *)
Lemma trailing_text_after_prefix_is_ignored
  (ip : jsstring) (d : N) (ds rest : jsstring) :
  includes_char ip (ch "/") = false ->
  forallb isDigit (d :: ds) = true ->
  includes_char rest (ch "/") = false ->
  match rest with
  | c :: _ => isDigit c = false
  | [] => True
  end ->
  isValidCIDR (ip ++ ch "/" :: (d :: ds) ++ rest)
  = isValidCIDR (ip ++ ch "/" :: d :: ds).
Proof.
  intros Hip Hds Hslash Hrest.
  assert (Hdigits : includes_char (d :: ds) (ch "/") = false).
  { clear - Hds. unfold includes_char.
    induction (d :: ds) as [|c l IH]; [reflexivity|].
    cbn [forallb] in Hds. apply andb_true_iff in Hds as [Hc Hl].
    cbn [existsb]. rewrite (IH Hl), orb_false_r.
    apply digit_cases in Hc. cbn [In] in Hc.
    repeat (destruct Hc as [<- | Hc]; [reflexivity|]). contradiction. }
  assert (Hmask : includes_char ((d :: ds) ++ rest) (ch "/") = false).
  { unfold includes_char in *. rewrite existsb_app, Hdigits, Hslash.
    reflexivity. }
  unfold isValidCIDR.
  rewrite (split_at_separator _ ip _ Hip), (split_without_separator _ _ Hmask).
  rewrite (split_at_separator _ ip _ Hip),
    (split_without_separator _ _ Hdigits).
  rewrite (parseInt_ignores_suffix d ds rest Hds Hrest). reflexivity.
Qed.

(** C6, evaluated.  [isValidCIDR] accepts 192.168.1.0/2x, whose prefix part
    is no integer: [parseInt] reads the 2 and ignores the x.  It rejects
    192.168.1.0/33 and 192.168.1.0, and accepts 192.168.1.0/24. *)
Theorem prefix_with_trailing_text_is_accepted :
  isValidCIDR (js "192.168.1.0/2x") = true
  /\ parseInt (js "2x") = ofZ 2
  /\ isValidCIDR (js "192.168.1.0/24abc") = true
  /\ isValidCIDR (js "192.168.1.0/33") = false
  /\ isValidCIDR (js "192.168.1.0") = false
  /\ isValidCIDR (js "192.168.1.0/24") = true.
Proof. repeat split; vm_compute; reflexivity. Qed.

End BlocklistProperties.

(* ================================================================== *)
(** ** Further properties of the decision pipeline *)
(* ================================================================== *)

Module DecisionFacts.
Import IPBlocker SpamRules Gemini SpamDetector Stage NumberFacts ReadOnly.
Import PipelineFacts Scenario.

Lemma ge_trans (a b c : number) :
  ge a b = true -> ge b c = true -> ge a c = true.
Proof.
  destruct a as [| | |p], b as [| | |q], c as [| | |r]; simpl;
    try discriminate; try reflexivity.
  unfold Qlt_bool. rewrite !negb_involutive, !Qle_bool_iff.
  intros H1 H2. eapply Qle_trans; eassumption.
Qed.

Lemma min_reaches_one (t s : number) :
  nonnegative t -> gt s (ofZ 0) = true -> ge t s = true ->
  strict_eq (min (div t s) (Fin 1)) (Fin 1) = true.
Proof.
  destruct t as [| | |p]; try contradiction.
  destruct s as [| | |q]; try discriminate.
  intros Hp Hq Hge. simpl in Hp, Hq, Hge.
  unfold Qlt_bool in Hge. rewrite negb_involutive in Hge.
  apply Qle_bool_iff in Hge.
  assert (Hq' : (0 < q)%Q) by (apply Qlt_bool_iff; exact Hq).
  unfold div.
  destruct (Qeq_bool q 0) eqn:Hzero.
  { apply Qeq_bool_iff in Hzero. rewrite Hzero in Hq'.
    exfalso. exact (Qlt_irrefl _ Hq'). }
  assert (Hratio : (1 <= p / q)%Q).
  { apply Qle_shift_div_l; [exact Hq'|]. rewrite Qmult_1_l. exact Hge. }
  unfold min, lt, Qlt_bool.
  destruct (Qle_bool (p / q) 1) eqn:Hle; cbn [negb strict_eq].
  - apply Qeq_bool_iff. apply Qle_bool_iff in Hle.
    apply Qle_antisym; assumption.
  - reflexivity.
Qed.

Lemma max_keeps_one (c a : number) :
  strict_eq c (Fin 1) = true -> in_unit a ->
  strict_eq (max c a) (Fin 1) = true.
Proof.
  destruct c as [| | |p]; try discriminate.
  destruct a as [| | |q]; try contradiction.
  simpl. intros Hc [_ Hq]. apply Qeq_bool_iff in Hc.
  unfold Qlt_bool.
  assert (Hle : Qle_bool q p = true).
  { apply Qle_bool_iff. rewrite Hc. exact Hq. }
  rewrite Hle. cbn [negb strict_eq]. apply Qeq_bool_iff. exact Hc.
Qed.

Lemma max_not_below (b a : number) :
  in_unit b -> in_unit a -> ge (max b a) b = true.
Proof.
  destruct b as [| | |p]; try contradiction.
  destruct a as [| | |q]; try contradiction.
  intros _ _. simpl. unfold Qlt_bool.
  destruct (Qle_bool q p) eqn:Hle; cbn [negb le lt]; unfold Qlt_bool;
    rewrite negb_involutive; apply Qle_bool_iff.
  - apply Qle_refl.
  - apply Qlt_le_weak, Qnot_le_lt. intros H. apply Qle_bool_iff in H.
    rewrite H in Hle. discriminate.
Qed.

Lemma ge_refl_in_unit (b : number) : in_unit b -> ge b b = true.
Proof.
  destruct b as [| | |p]; try contradiction. intros _. simpl.
  unfold Qlt_bool. rewrite negb_involutive. apply Qle_bool_iff, Qle_refl.
Qed.

Lemma str_eqb_cons_nil (c : N) (s : jsstring) : str_eqb (c :: s) [] = false.
Proof. apply bool_decide_eq_false_2. discriminate. Qed.

Section WithHost.
Context `{host : Host}.

Lemma analyzerVerdict_call_fails (d : SpamDetector) (post : TwitterPost) :
  analyzerVerdict d post CallFails = None.
Proof.
  unfold analyzerVerdict.
  destruct (enableAIDetection (config d)
            && result isConfigured (geminiDetector d)); [|reflexivity].
  unfold result, analyzeSpam, bind.
  rewrite (preserves_run _ isConfigured_preserves (geminiDetector d)).
  destruct (negb (result isConfigured (geminiDetector d))); reflexivity.
Qed.

Lemma analyzerVerdict_parsed (d : SpamDetector) (post : TwitterPost)
  (reply : ProviderReply) (ai : AIDetectionResult.t) :
  analyzerVerdict d post reply = Some ai ->
  exists body, reply = Responds body /\ ai = parseAIResponse body.
Proof.
  unfold analyzerVerdict.
  destruct (enableAIDetection (config d)
            && result isConfigured (geminiDetector d)); [|discriminate].
  unfold result, analyzeSpam, bind.
  rewrite (preserves_run _ isConfigured_preserves (geminiDetector d)).
  destruct (negb (result isConfigured (geminiDetector d)));
    [discriminate|].
  destruct reply as [|body]; [discriminate|].
  cbn. intros [= <-]. exists body. split; reflexivity.
Qed.

(** The decision when the analyzer gives no verdict. *)
Lemma detectSpam_call_fails (d : SpamDetector) (post : TwitterPost) :
  result (detectSpam post CallFails) d
  = if originBlocked d post then
      rejected [or_default (reason (originVerdict d post))
                  (js "IP address is blocked")]
    else if negb (Validation.isValid (validation d post)) then
      rejected (Validation.reasons (validation d post))
    else
      synthesize (config d) (totalSeverity post)
        (map description (triggeredRules post)) None.
Proof.
  unfold result. rewrite detectSpam_run. cbn [fst].
  rewrite analyzerVerdict_call_fails. reflexivity.
Qed.

Lemma rules_read_the_text (post post' : TwitterPost) :
  text post = text post' -> triggeredRules post = triggeredRules post'.
Proof.
  intros Htext.
  assert (Hsame : post_text post = post_text post').
  { unfold post_text. rewrite Htext. reflexivity. }
  unfold triggeredRules, spamRules. cbn [List.filter check].
  unfold excessive_caps, repeated_characters, excessive_emojis,
    suspicious_urls, spam_keywords, excessive_mentions, excessive_hashtags,
    profanity_filter, too_short, all_numbers.
  cbn [check]. rewrite Hsame. reflexivity.
Qed.

End WithHost.

End DecisionFacts.

Module PipelineProperties.
Import IPBlocker SpamRules Gemini SpamDetector Stage NumberFacts ReadOnly.
Import PipelineFacts BlocklistFacts Scenario DecisionFacts.

Section WithHost.
Context `{host : Host}.

(** X9.  A post from a blocked origin is rejected whatever its text and
    whatever the provider would answer, with the one reason [validateIP]
    gives: the in-blocklist reason when the address is in the exact set,
    and otherwise the reason naming the first range of the list that
    contains the address.  The default reason of the source,
    'IP address is blocked', is never used. *)
Theorem blocked_origin_is_rejected (d : SpamDetector) (post : TwitterPost)
  (reply : ProviderReply) (ip : jsstring) :
  enableIPBlocking (config d) = true ->
  clientIP post = Some ip ->
  isBlocked (result (validateIP ip) (ipBlocker d)) = true ->
  let r := result (detectSpam post reply) d in
  SpamDetectionResult.action r = reject
  /\ SpamDetectionResult.isSpam r = true
  /\ SpamDetectionResult.confidence r = Fin 1
  /\ SpamDetectionResult.aiAnalysis r = None
  /\ SpamDetectionResult.reasons r <> [js "IP address is blocked"]
  /\ (((ip ∈ blockedIPs (ipBlocker d))
       /\ SpamDetectionResult.reasons r = [js "IP address is in blocklist"])
      \/ ((ip ∉ blockedIPs (ipBlocker d))
          /\ exists range,
               find (isIPInRange ip) (blockedRanges (ipBlocker d))
               = Some range
               /\ SpamDetectionResult.reasons r
                  = [js "IP address is in blocked range: " ++ range])).
Proof.
  intros Henabled Hip Hblocked r.
  assert (Hnonempty : str_eqb ip [] = false).
  { destruct (str_eqb ip []) eqn:Hempty; [|reflexivity].
    unfold result, validateIP in Hblocked. rewrite Hempty in Hblocked.
    discriminate Hblocked. }
  assert (Horigin : originVerdict d post = result (validateIP ip) (ipBlocker d)).
  { unfold originVerdict. rewrite Hip, Henabled, Hnonempty. reflexivity. }
  assert (Hr : r = rejected [or_default (reason (originVerdict d post))
                              (js "IP address is blocked")]).
  { subst r. unfold result. rewrite detectSpam_run. cbn [fst].
    unfold originBlocked. rewrite Horigin, Hblocked. reflexivity. }
  rewrite Hr, Horigin. clear Hr Horigin r.
  do 4 (split; [reflexivity|]).
  cbn [rejected SpamDetectionResult.reasons].
  unfold result, validateIP in Hblocked |- *.
  destruct (str_eqb ip [] || negb (isValidIP ip)); [discriminate Hblocked|].
  unfold bind, get, ret in Hblocked |- *. cbn [fst] in Hblocked |- *.
  destruct (bool_decide (ip ∈ blockedIPs (ipBlocker d))) eqn:Hmember.
  - apply bool_decide_eq_true_1 in Hmember.
    split; [discriminate|]. left. split; [exact Hmember | reflexivity].
  - apply bool_decide_eq_false_1 in Hmember.
    destruct (find (isIPInRange ip) (blockedRanges (ipBlocker d)))
      as [range|]; [|discriminate Hblocked].
    cbn [fst reason or_default].
    change (js "IP address is in blocked range: " ++ range)
      with (ch "I" :: (js "P address is in blocked range: " ++ range)).
    rewrite str_eqb_cons_nil.
    split.
    + intros Heq.
      apply (f_equal (fun l => nth 14 (hd [] l) 0%N)) in Heq.
      vm_compute in Heq. discriminate Heq.
    + right. split; [exact Hmember|]. exists range. split; reflexivity.
Qed.

(** X10.  With [enableIPBlocking] off the blocklist and the post's origin
    play no part: two detectors with the same configuration and analyzer
    give the same decision for two posts with the same text, whatever
    their blocklists and the posts' client addresses. *)
Theorem disabled_blocking_ignores_origin (d d' : SpamDetector)
  (post post' : TwitterPost) (reply : ProviderReply) :
  enableIPBlocking (config d) = false ->
  config d' = config d ->
  geminiDetector d' = geminiDetector d ->
  text post' = text post ->
  result (detectSpam post' reply) d' = result (detectSpam post reply) d.
Proof.
  intros Hoff Hconfig Hgemini Htext.
  assert (Horigin : forall e p, enableIPBlocking (config e) = false ->
                      originBlocked e p = false).
  { intros e p He. unfold originBlocked, originVerdict. rewrite He.
    destruct (clientIP p); reflexivity. }
  assert (Hrules : triggeredRules post' = triggeredRules post)
    by (apply rules_read_the_text; exact Htext).
  assert (Hvalidation : validation d' post' = validation d post).
  { unfold validation, result, validatePost, bind, get, ret. cbn [fst].
    unfold post_text. rewrite Hconfig, Htext. reflexivity. }
  assert (Hverdict : analyzerVerdict d' post' reply
                     = analyzerVerdict d post reply).
  { unfold analyzerVerdict. rewrite Hconfig, Hgemini. reflexivity. }
  unfold result. rewrite !detectSpam_run. cbn [fst].
  rewrite (Horigin d post Hoff).
  rewrite (Horigin d' post') by (rewrite Hconfig; exact Hoff).
  rewrite Hvalidation, Hverdict. unfold gatheredReasons, totalSeverity.
  rewrite Hrules, Hconfig. reflexivity.
Qed.

(** X11.  A provider call that fails degrades to the decision of the
    rules alone: it is the decision the same detector gives, for any
    behaviour of the provider, once [updateConfig] has switched
    [enableAIDetection] off. *)
Theorem failed_call_is_rule_decision (d : SpamDetector) (post : TwitterPost)
  (reply : ProviderReply) (env : option jsstring) :
  result (detectSpam post CallFails) d
  = result (detectSpam post reply) (final (updateConfig analyzerOff env) d).
Proof.
  set (d' := final (updateConfig analyzerOff env) d).
  assert (Hblocker : ipBlocker d' = ipBlocker d) by reflexivity.
  assert (Hblocking : enableIPBlocking (config d')
                      = enableIPBlocking (config d)) by reflexivity.
  assert (Hoff : enableAIDetection (config d') = false) by reflexivity.
  assert (Horigin : originVerdict d' post = originVerdict d post).
  { unfold originVerdict. rewrite Hblocking, Hblocker. reflexivity. }
  assert (Hverdict : analyzerVerdict d' post reply = None).
  { unfold analyzerVerdict. rewrite Hoff. reflexivity. }
  rewrite detectSpam_call_fails.
  unfold result. rewrite detectSpam_run. cbn [fst].
  unfold originBlocked. rewrite Horigin, Hverdict.
  reflexivity.
Qed.

(** X12.  The analyzer never weakens the decision of the rules.  Against
    the decision the same call gives when the provider fails, the decision
    for any reply has an action that is at least as severe, is spam when
    that one is, carries the same reasons followed by at most one more,
    and, when [spamThreshold] is greater than 0, has a confidence that is
    not lower. *)
Theorem analyzer_never_weakens (d : SpamDetector) (post : TwitterPost)
  (reply : ProviderReply) :
  let r0 := result (detectSpam post CallFails) d in
  let r := result (detectSpam post reply) d in
  (rank (SpamDetectionResult.action r0)
   <= rank (SpamDetectionResult.action r))%nat
  /\ (SpamDetectionResult.isSpam r0 = true ->
      SpamDetectionResult.isSpam r = true)
  /\ (exists extra,
        SpamDetectionResult.reasons r
        = SpamDetectionResult.reasons r0 ++ extra
        /\ (length extra <= 1)%nat)
  /\ (gt (spamThreshold (config d)) (ofZ 0) = true ->
      ge (SpamDetectionResult.confidence r) (SpamDetectionResult.confidence r0)
      = true).
Proof.
  intros r0 r. subst r0 r. rewrite detectSpam_call_fails.
  unfold result. rewrite detectSpam_run. cbn [fst].
  assert (Hsame : forall x : SpamDetectionResult.t,
    (rank (SpamDetectionResult.action x)
     <= rank (SpamDetectionResult.action x))%nat
    /\ (SpamDetectionResult.isSpam x = true ->
        SpamDetectionResult.isSpam x = true)
    /\ (exists extra,
          SpamDetectionResult.reasons x = SpamDetectionResult.reasons x ++ extra
          /\ (length extra <= 1)%nat)
    /\ (in_unit (SpamDetectionResult.confidence x) ->
        ge (SpamDetectionResult.confidence x) (SpamDetectionResult.confidence x)
        = true)).
  { intros x. split; [lia|]. split; [tauto|]. split.
    - exists []. rewrite app_nil_r. split; [reflexivity | simpl; lia].
    - apply ge_refl_in_unit. }
  destruct (originBlocked d post).
  { destruct (Hsame (rejected [or_default (reason (originVerdict d post))
                                 (js "IP address is blocked")]))
      as (H1 & H2 & H3 & H4).
    split; [exact H1|]. split; [exact H2|]. split; [exact H3|].
    intros _. apply H4, in_unit_one. }
  destruct (negb (Validation.isValid (validation d post))).
  { destruct (Hsame (rejected (Validation.reasons (validation d post))))
      as (H1 & H2 & H3 & H4).
    split; [exact H1|]. split; [exact H2|]. split; [exact H3|].
    intros _. apply H4, in_unit_one. }
  rewrite !synthesize_action, !synthesize_isSpam, !synthesize_reasons,
    !synthesize_confidence.
  destruct (analyzerVerdict d post reply) as [ai|] eqn:Hverdict.
  2:{ split; [lia|]. split; [tauto|]. split.
      - exists []. rewrite app_nil_r. split; [reflexivity | simpl; lia].
      - intros Hthreshold. apply ge_refl_in_unit, baseline_in_unit;
          [apply totalSeverity_nonnegative | exact Hthreshold]. }
  split; [|split; [|split]].
  - unfold baselineAction.
    destruct (overrides (Some ai)); [|lia].
    destruct (AIDetectionResult.severity ai);
      destruct (ge (totalSeverity post) (spamThreshold (config d)));
      try destruct (ge (totalSeverity post) (flagThreshold (config d)));
      simpl; lia.
  - cbn [overrides orb]. intros Hspam. rewrite Hspam. apply orb_true_r.
  - unfold gatheredReasons.
    destruct (AIDetectionResult.isSpam ai
              && gt (AIDetectionResult.confidence ai) (Fin 0.7)).
    + eexists. split; [reflexivity | simpl; lia].
    + exists []. rewrite app_nil_r. split; [reflexivity | simpl; lia].
  - intros Hthreshold.
    assert (Hbase : in_unit (baseline (config d) (totalSeverity post))).
    { apply baseline_in_unit;
        [apply totalSeverity_nonnegative | exact Hthreshold]. }
    destruct (AIDetectionResult.isSpam ai).
    + apply max_not_below; [exact Hbase|].
      eapply analyzerVerdict_confidence; exact Hverdict.
    + apply ge_refl_in_unit. exact Hbase.
Qed.

(** X13.  A verdict that does not mark the post as spam changes nothing
    but the [aiAnalysis] field: [isSpam], the action, the confidence and
    the reasons are those of the rules alone.  The fallback verdict for a
    reply without JSON is such a verdict, so a malformed reply never
    moves a decision. *)
Theorem verdict_without_spam_changes_nothing (d : SpamDetector)
  (post : TwitterPost) (body : ResponseBody) :
  AIDetectionResult.isSpam (parseAIResponse body) = false ->
  let r0 := result (detectSpam post CallFails) d in
  let r := result (detectSpam post (Responds body)) d in
  SpamDetectionResult.isSpam r = SpamDetectionResult.isSpam r0
  /\ SpamDetectionResult.action r = SpamDetectionResult.action r0
  /\ SpamDetectionResult.confidence r = SpamDetectionResult.confidence r0
  /\ SpamDetectionResult.reasons r = SpamDetectionResult.reasons r0.
Proof.
  intros Hclean r0 r. subst r0 r. rewrite detectSpam_call_fails.
  unfold result. rewrite detectSpam_run. cbn [fst].
  destruct (originBlocked d post); [repeat split|].
  destruct (negb (Validation.isValid (validation d post)));
    [repeat split|].
  rewrite !synthesize_action, !synthesize_isSpam, !synthesize_reasons,
    !synthesize_confidence.
  destruct (analyzerVerdict d post (Responds body)) as [ai|] eqn:Hverdict;
    [|repeat split].
  apply analyzerVerdict_parsed in Hverdict as (body' & [= <-] & ->).
  unfold gatheredReasons. cbn [overrides]. rewrite Hclean.
  repeat split.
Qed.

(** X14.  When [flagThreshold] does not exceed [spamThreshold], a
    decision is spam exactly when its action is not [allow]. *)
Theorem spam_exactly_when_not_allowed (d : SpamDetector) (post : TwitterPost)
  (reply : ProviderReply) :
  le (flagThreshold (config d)) (spamThreshold (config d)) = true ->
  let r := result (detectSpam post reply) d in
  SpamDetectionResult.isSpam r = true <-> SpamDetectionResult.action r <> allow.
Proof.
  intros Hordered r. subst r.
  unfold result. rewrite detectSpam_run. cbn [fst].
  destruct (originBlocked d post);
    [split; [discriminate | reflexivity]|].
  destruct (negb (Validation.isValid (validation d post)));
    [split; [discriminate | reflexivity]|].
  rewrite synthesize_action, synthesize_isSpam.
  assert (Hbaseline :
    ge (totalSeverity post) (flagThreshold (config d)) = true
    <-> baselineAction (config d) (totalSeverity post) <> allow).
  { unfold baselineAction.
    destruct (ge (totalSeverity post) (spamThreshold (config d))) eqn:Hspam.
    - split; [discriminate|]. intros _.
      exact (ge_trans _ _ _ Hspam Hordered).
    - destruct (ge (totalSeverity post) (flagThreshold (config d)));
        split; try discriminate; try reflexivity.
      intros H. exfalso. apply H. reflexivity. }
  destruct (analyzerVerdict d post reply) as [ai|]; [|exact Hbaseline].
  destruct (overrides (Some ai)); [|exact Hbaseline].
  cbn [orb]. split; [|reflexivity]. intros _.
  destruct (AIDetectionResult.severity ai);
    try destruct (ge (totalSeverity post) (spamThreshold (config d)));
    discriminate.
Qed.

(** X15.  When [spamThreshold] is greater than 0, a rejection that is not
    an analyzer override carries the confidence 1: a block at the origin,
    a validation failure, or a rule total that reaches [spamThreshold].
    A rejection with a lower confidence is always an override. *)
Theorem rejection_without_override_is_certain (d : SpamDetector)
  (post : TwitterPost) (reply : ProviderReply) :
  gt (spamThreshold (config d)) (ofZ 0) = true ->
  let r := result (detectSpam post reply) d in
  SpamDetectionResult.action r = reject ->
  overrides (SpamDetectionResult.aiAnalysis r) = false ->
  strict_eq (SpamDetectionResult.confidence r) (Fin 1) = true.
Proof.
  intros Hthreshold r. subst r.
  unfold result. rewrite detectSpam_run. cbn [fst].
  destruct (originBlocked d post); [reflexivity|].
  destruct (negb (Validation.isValid (validation d post))); [reflexivity|].
  rewrite synthesize_action, synthesize_aiAnalysis, synthesize_confidence.
  intros Haction Hoverride.
  assert (Hreached :
    ge (totalSeverity post) (spamThreshold (config d)) = true).
  { assert (Hbase : baselineAction (config d) (totalSeverity post) = reject).
    { destruct (analyzerVerdict d post reply) as [ai|];
        [rewrite Hoverride in Haction|]; exact Haction. }
    unfold baselineAction in Hbase.
    destruct (ge (totalSeverity post) (spamThreshold (config d)));
      [reflexivity|].
    destruct (ge (totalSeverity post) (flagThreshold (config d)));
      discriminate Hbase. }
  assert (Hone : strict_eq (baseline (config d) (totalSeverity post)) (Fin 1)
                 = true).
  { apply min_reaches_one;
      [apply totalSeverity_nonnegative | exact Hthreshold | exact Hreached]. }
  destruct (analyzerVerdict d post reply) as [ai|] eqn:Hverdict;
    [|exact Hone].
  destruct (AIDetectionResult.isSpam ai); [|exact Hone].
  apply max_keeps_one; [exact Hone|].
  eapply analyzerVerdict_confidence; exact Hverdict.
Qed.

(** X16.  A detector built with no credential, neither in the supplied
    configuration nor in the environment, never consults the analyzer,
    even with [enableAIDetection] on: it reports itself as not configured,
    its decisions carry no verdict, and they do not depend on what the
    provider would answer. *)
Theorem no_credential_no_analyzer (supplied : PartialConfig)
  (env : option jsstring) (post : TwitterPost) (reply : ProviderReply) :
  noCredential (p_geminiApiKey supplied) = true ->
  noCredential env = true ->
  let d := create supplied env in
  result isAIConfigured d = false
  /\ SpamDetectionResult.aiAnalysis (result (detectSpam post reply) d) = None
  /\ result (detectSpam post reply) d = result (detectSpam post CallFails) d.
Proof.
  intros Hsupplied Henv d.
  assert (Hgen : genAI (geminiDetector d) = false).
  { subst d. unfold create, Gemini.create, merge, defaults.
    cbn [geminiDetector geminiApiKey genAI].
    destruct (p_geminiApiKey supplied) as [k|], env as [e|];
      cbn [noCredential] in Hsupplied, Henv; cbn [or_default];
      rewrite ?Hsupplied, ?Henv; reflexivity. }
  assert (Hconfigured : result isConfigured (geminiDetector d) = false).
  { unfold result, isConfigured, bind, get, ret. cbn [fst].
    rewrite Hgen. reflexivity. }
  assert (Hverdict : forall reply', analyzerVerdict d post reply' = None).
  { intros reply'. unfold analyzerVerdict. rewrite Hconfigured.
    rewrite andb_false_r. reflexivity. }
  assert (Hrun : forall reply',
    result (detectSpam post reply') d
    = if originBlocked d post then
        rejected [or_default (reason (originVerdict d post))
                    (js "IP address is blocked")]
      else if negb (Validation.isValid (validation d post)) then
        rejected (Validation.reasons (validation d post))
      else
        synthesize (config d) (totalSeverity post)
          (map description (triggeredRules post)) None).
  { intros reply'. unfold result. rewrite detectSpam_run. cbn [fst].
    rewrite Hverdict. reflexivity. }
  split; [|split].
  - unfold isAIConfigured, on_geminiDetector, zoom, result.
    unfold result in Hconfigured.
    destruct (isConfigured (geminiDetector d)) as [b g].
    cbn [fst] in Hconfigured |- *. exact Hconfigured.
  - rewrite Hrun.
    destruct (originBlocked d post); [reflexivity|].
    destruct (negb (Validation.isValid (validation d post)));
      [reflexivity|].
    apply synthesize_aiAnalysis.
  - rewrite !Hrun. reflexivity.
Qed.

(** X17.  [updateConfig] never touches the blocklist, and it can replace
    the analyzer's credential but not remove it: a non-empty key builds a
    configured analyzer holding that key, while an absent or empty key
    leaves the analyzer as it was, so an analyzer that is configured
    stays configured through every update. *)
Theorem updateConfig_keeps_blocklist_and_analyzer (newConfig : PartialConfig)
  (env : option jsstring) (d : SpamDetector) :
  let d' := final (updateConfig newConfig env) d in
  ipBlocker d' = ipBlocker d
  /\ config d' = merge (config d) newConfig
  /\ (noCredential (p_geminiApiKey newConfig) = true ->
      geminiDetector d' = geminiDetector d)
  /\ (forall k, p_geminiApiKey newConfig = Some k -> k <> [] ->
      apiKey (geminiDetector d') = k /\ result isAIConfigured d' = true)
  /\ (result isAIConfigured d = true -> result isAIConfigured d' = true).
Proof.
  intros d'.
  assert (Hnew : forall k, p_geminiApiKey newConfig = Some k -> k <> [] ->
    apiKey (geminiDetector d') = k /\ result isAIConfigured d' = true).
  { intros k Hk Hnonempty.
    assert (Hneq : str_eqb k [] = false)
      by (apply bool_decide_eq_false_2; exact Hnonempty).
    assert (Hdetector : geminiDetector d' = Gemini.create (Some k) env).
    { subst d'. unfold final, updateConfig, bind, get, put.
      cbn [snd geminiDetector]. rewrite Hk, Hneq. reflexivity. }
    assert (Hkey : apiKey (geminiDetector d') = k).
    { rewrite Hdetector. unfold Gemini.create. cbn [apiKey or_default].
      rewrite Hneq. reflexivity. }
    split; [exact Hkey|].
    unfold result, isAIConfigured, on_geminiDetector, zoom, isConfigured,
      bind, get, ret. cbn [fst].
    rewrite Hdetector. unfold Gemini.create. cbn [apiKey genAI or_default].
    rewrite Hneq. cbn [negb andb].
    destruct k as [|c k]; [contradiction|]. reflexivity. }
  assert (Hkept : noCredential (p_geminiApiKey newConfig) = true ->
    geminiDetector d' = geminiDetector d).
  { intros Hnone. subst d'. unfold final, updateConfig, bind, get, put.
    cbn [snd geminiDetector].
    destruct (p_geminiApiKey newConfig) as [k|]; [|reflexivity].
    cbn [noCredential] in Hnone. rewrite Hnone. reflexivity. }
  split; [reflexivity|]. split; [reflexivity|].
  split; [exact Hkept|]. split; [exact Hnew|].
  intros Hconfigured.
  destruct (noCredential (p_geminiApiKey newConfig)) eqn:Hcredential.
  - unfold result, isAIConfigured, on_geminiDetector, zoom in Hconfigured |- *.
    rewrite (Hkept eq_refl).
    destruct (isConfigured (geminiDetector d)) as [b g].
    exact Hconfigured.
  - destruct (p_geminiApiKey newConfig) as [k|] eqn:Hk; [|discriminate].
    cbn [noCredential] in Hcredential.
    apply bool_decide_eq_false_1 in Hcredential.
    exact (proj2 (Hnew k eq_refl Hcredential)).
Qed.

End WithHost.

End PipelineProperties.

(* ================================================================== *)
(** ** The blocklist under sequences of calls *)
(* ================================================================== *)

Module OperationFacts.
Import IPBlocker ReadOnly BlocklistFacts Scenario.

Lemma str_eqb_refl (x : jsstring) : str_eqb x x = true.
Proof. apply bool_decide_eq_true_2. reflexivity. Qed.

Lemma str_eqb_neq (x y : jsstring) : x <> y -> str_eqb x y = false.
Proof. intros Hneq. apply bool_decide_eq_false_2. exact Hneq. Qed.

Lemma existsb_str_eqb (x : jsstring) (l : list jsstring) :
  existsb (str_eqb x) l = true <-> List.In x l.
Proof.
  rewrite existsb_exists. split.
  - intros (y & Hin & Heq). apply bool_decide_eq_true_1 in Heq.
    subst y. exact Hin.
  - intros Hin. exists x. split; [exact Hin|].
    apply bool_decide_eq_true_2. reflexivity.
Qed.

Lemma existsb_str_eqb_false (x : jsstring) (l : list jsstring) :
  existsb (str_eqb x) l = false <-> ~ List.In x l.
Proof.
  rewrite <- existsb_str_eqb. destruct (existsb (str_eqb x) l);
    split; congruence.
Qed.

Lemma remove_first_In (x y : jsstring) (l : list jsstring) :
  List.In y (remove_first x l) -> List.In y l.
Proof.
  induction l as [|z l IH]; [intros []|].
  cbn [remove_first]. destruct (str_eqb z x).
  - intros Hin. right. exact Hin.
  - intros [Heq | Hin]; [left; exact Heq | right; apply IH, Hin].
Qed.

Lemma remove_first_NoDup (x : jsstring) (l : list jsstring) :
  List.NoDup l -> List.NoDup (remove_first x l).
Proof.
  induction 1 as [|z l Hz Hl IH]; [constructor|].
  cbn [remove_first]. destruct (str_eqb z x); [exact Hl|].
  constructor; [|exact IH].
  intros Hin. apply Hz. eapply remove_first_In. exact Hin.
Qed.

Lemma remove_first_Forall (P : jsstring -> Prop) (x : jsstring)
  (l : list jsstring) :
  Forall P l -> Forall P (remove_first x l).
Proof.
  induction 1 as [|z l Hz Hl IH]; [constructor|].
  cbn [remove_first]. destruct (str_eqb z x); [exact Hl|].
  constructor; assumption.
Qed.

(** [splice(index, 1)] at the first occurrence takes out that one entry
    and keeps the others in their order. *)
Lemma remove_first_splits (x : jsstring) (l : list jsstring) :
  List.In x l ->
  exists before after,
    l = before ++ x :: after /\ remove_first x l = before ++ after
    /\ ~ List.In x before.
Proof.
  induction l as [|z l IH]; [intros []|].
  intros Hin. cbn [remove_first].
  destruct (str_eqb z x) eqn:Hz.
  - apply bool_decide_eq_true_1 in Hz. subst z.
    exists [], l. repeat split. intros [].
  - apply bool_decide_eq_false_1 in Hz.
    destruct Hin as [Heq | Hin]; [contradiction|].
    destruct (IH Hin) as (before & after & Hl & Hr & Hfresh).
    exists (z :: before), after. cbn [app]. rewrite <- Hl, <- Hr.
    repeat split. intros [Heq | Hb]; [exact (Hz Heq) | exact (Hfresh Hb)].
Qed.

Lemma remove_first_appended (x : jsstring) (l : list jsstring) :
  ~ List.In x l -> remove_first x (l ++ [x]) = l.
Proof.
  induction l as [|z l IH]; intros Hfresh; cbn [app remove_first].
  - rewrite str_eqb_refl. reflexivity.
  - rewrite str_eqb_neq.
    2:{ intros Heq. apply Hfresh. left. exact Heq. }
    rewrite IH; [reflexivity|]. intros Hin. apply Hfresh. right. exact Hin.
Qed.

Lemma wellFormed_empty : wellFormed IPBlocker.empty.
Proof.
  split; [|split]; cbn [IPBlocker.empty blockedIPs blockedRanges].
  - intros ip Hin. exfalso. exact (not_elem_of_empty ip Hin).
  - constructor.
  - constructor.
Qed.

Lemma perform_wellFormed (op : Operation) (bl : IPBlocklist) :
  wellFormed bl -> wellFormed (final (perform op) bl).
Proof.
  intros (Hips & Hranges & Hdistinct).
  destruct op as [ip|ip|cidr|cidr|]; unfold final, perform, bind.
  - unfold addIP. destruct (isValidIP ip) eqn:Hvalid; cbn [negb].
    + unfold bind, get, put, ret. cbn [snd fst].
      split; [|split]; cbn [blockedIPs blockedRanges];
        [|assumption|assumption].
      intros ip' Hin. apply elem_of_union in Hin as [Hin|Hin].
      * apply elem_of_singleton in Hin. subst ip'. exact Hvalid.
      * apply Hips, Hin.
    + unfold ret. cbn [snd]. repeat split; assumption.
  - unfold removeIP, bind, get, put, ret. cbn [snd fst].
    split; [|split]; cbn [blockedIPs blockedRanges];
      [|assumption|assumption].
    intros ip' Hin. apply elem_of_difference in Hin as [Hin _].
    apply Hips, Hin.
  - unfold addRange. destruct (isValidCIDR cidr) eqn:Hvalid; cbn [negb].
    + unfold bind, get. cbn [fst snd].
      destruct (existsb (str_eqb cidr) (blockedRanges bl)) eqn:Hlisted;
        cbn [negb]; unfold put, ret; cbn [snd fst].
      * repeat split; assumption.
      * apply existsb_str_eqb_false in Hlisted.
        split; [|split]; cbn [blockedIPs blockedRanges]; [assumption| |].
        -- apply List.Forall_app. split; [assumption|].
           constructor; [exact Hvalid | constructor].
        -- apply (Permutation_NoDup (Permutation_cons_append _ cidr)).
           constructor; assumption.
    + unfold ret. cbn [snd]. repeat split; assumption.
  - unfold removeRange, bind, get. cbn [fst snd].
    destruct (existsb (str_eqb cidr) (blockedRanges bl));
      unfold bind, put, ret; cbn [snd fst].
    + split; [|split]; cbn [blockedIPs blockedRanges]; [assumption| |].
      * apply remove_first_Forall, Hranges.
      * apply remove_first_NoDup, Hdistinct.
    + repeat split; assumption.
  - unfold clearAll, put. cbn [snd]. apply wellFormed_empty.
Qed.

End OperationFacts.

Module OperationProperties.
Import IPBlocker ReadOnly BlocklistFacts Scenario OperationFacts.

(** X18.  Whatever calls of [addIP], [removeIP], [addRange],
    [removeRange] and [clearAll] are made on a new blocklist, in whatever
    order and with whatever arguments, the exact set holds only texts that
    pass [isValidIP], and the range list holds only texts that pass
    [isValidCIDR], none of them twice. *)
Theorem reachable_blocklist_is_well_formed (ops : list Operation) :
  wellFormed (performAll ops IPBlocker.empty).
Proof.
  unfold performAll.
  assert (Hfrom : forall bl, wellFormed bl ->
    wellFormed (fold_left (fun bl op => final (perform op) bl) ops bl)).
  { induction ops as [|op ops IH]; intros bl Hbl; cbn [fold_left].
    - exact Hbl.
    - apply IH, perform_wellFormed, Hbl. }
  apply Hfrom, wellFormed_empty.
Qed.

(** X19.  Blocking and then unblocking an entry that was not there
    restores the blocklist exactly: for a valid address that is not in the
    exact set, [addIP] then [removeIP]; for a valid CIDR that is not in
    the range list, [addRange] then [removeRange].  Each of the four calls
    answers true. *)
Theorem new_entry_round_trip (bl : IPBlocklist) (ip cidr : jsstring) :
  isValidIP ip = true ->
  ip ∉ blockedIPs bl ->
  isValidCIDR cidr = true ->
  ~ List.In cidr (blockedRanges bl) ->
  (result (addIP ip) bl = true
   /\ result (removeIP ip) (final (addIP ip) bl) = true
   /\ final (removeIP ip) (final (addIP ip) bl) = bl)
  /\ (result (addRange cidr) bl = true
      /\ result (removeRange cidr) (final (addRange cidr) bl) = true
      /\ final (removeRange cidr) (final (addRange cidr) bl) = bl).
Proof.
  intros Hip Hfresh Hcidr Hunlisted. destruct bl as [ips ranges].
  cbn [blockedIPs blockedRanges] in Hfresh, Hunlisted.
  split.
  - unfold result, final, addIP. rewrite Hip. cbn [negb].
    unfold removeIP, bind, get, put, ret. cbn [fst snd blockedIPs blockedRanges].
    split; [reflexivity|]. split.
    + apply bool_decide_eq_true_2, elem_of_union_l, elem_of_singleton.
      reflexivity.
    + f_equal. apply leibniz_equiv. intros x.
      rewrite elem_of_difference, elem_of_union, elem_of_singleton.
      split.
      * intros [[Heq | Hin] Hneq]; [contradiction | exact Hin].
      * intros Hin. split; [right; exact Hin|].
        intros Heq. subst x. exact (Hfresh Hin).
  - apply existsb_str_eqb_false in Hunlisted.
    unfold result, final, addRange. rewrite Hcidr. cbn [negb].
    unfold bind, get. cbn [fst snd blockedRanges]. rewrite Hunlisted.
    cbn [negb]. unfold put, ret. cbn [fst snd].
    unfold removeRange, bind, get. cbn [fst snd blockedRanges blockedIPs].
    assert (Hlisted : existsb (str_eqb cidr) (ranges ++ [cidr]) = true).
    { apply existsb_str_eqb, in_or_app. right. left. reflexivity. }
    rewrite Hlisted. unfold put, ret. cbn [fst snd].
    split; [reflexivity|]. split; [reflexivity|].
    rewrite remove_first_appended; [reflexivity|].
    apply existsb_str_eqb_false. exact Hunlisted.
Qed.

(** X20.  On a blocklist whose range list has no duplicate (every
    blocklist built by the operations is one), a [removeRange] that
    answers true takes out that one entry and keeps the others in their
    order: the range is no longer listed by [getBlockedRanges], a second
    [removeRange] of it answers false, and the exact set is untouched. *)
Theorem removed_range_is_gone (cidr : jsstring) (bl : IPBlocklist) :
  List.NoDup (blockedRanges bl) ->
  result (removeRange cidr) bl = true ->
  let bl' := final (removeRange cidr) bl in
  (exists before after,
     result getBlockedRanges bl = before ++ cidr :: after
     /\ result getBlockedRanges bl' = before ++ after)
  /\ ~ List.In cidr (result getBlockedRanges bl')
  /\ result (removeRange cidr) bl' = false
  /\ blockedIPs bl' = blockedIPs bl.
Proof.
  intros Hdistinct Hremoved bl'.
  destruct bl as [ips ranges]. cbn [blockedRanges] in Hdistinct.
  assert (Hlisted : existsb (str_eqb cidr) ranges = true).
  { unfold result, removeRange, bind, get in Hremoved.
    cbn [fst blockedRanges] in Hremoved.
    destruct (existsb (str_eqb cidr) ranges); [reflexivity|].
    discriminate Hremoved. }
  assert (Hbl' : bl' = {| blockedIPs := ips;
                          blockedRanges := remove_first cidr ranges |}).
  { subst bl'. unfold final, removeRange, bind, get.
    cbn [fst snd blockedRanges blockedIPs]. rewrite Hlisted. reflexivity. }
  rewrite Hbl'. clear Hbl' bl'.
  destruct (remove_first_splits cidr ranges
              (proj1 (existsb_str_eqb cidr ranges) Hlisted))
    as (before & after & Hranges & Hspliced & Hfresh).
  assert (Hgone : ~ List.In cidr (remove_first cidr ranges)).
  { rewrite Hspliced. rewrite Hranges in Hdistinct.
    apply List.NoDup_remove_2 in Hdistinct. exact Hdistinct. }
  unfold result, getBlockedRanges, bind, get, ret.
  cbn [fst blockedRanges blockedIPs].
  split; [exists before, after; split; assumption|].
  split; [exact Hgone|]. split; [|reflexivity].
  unfold removeRange, bind, get. cbn [fst blockedRanges].
  apply existsb_str_eqb_false in Hgone. rewrite Hgone. reflexivity.
Qed.

End OperationProperties.

(* ================================================================== *)
(** ** The syntax of addresses and the matching of IPv6 ranges *)
(* ================================================================== *)

Module SyntaxFacts.
Import IPBlocker ReadOnly BlocklistFacts RegexFacts NumberFacts Scenario.
Import SpamRules (between).
Import Regex (regex, lang, lang_Seq, lang_Eps, lang_Class, chr, rep, test,
              Class, Seq, Alt, Eps, Void, lit, rep_range, upto, opt, range).

Lemma lang_within (P : N -> bool) (r : regex) (s : jsstring) :
  within P r -> lang r s -> forallb P s = true.
Proof.
  intros Hwithin Hlang. revert Hwithin.
  induction Hlang as [|p c Hc|r1 r2 s1 s2 _ IH1 _ IH2|r1 r2 s _ IH|r1 r2 s _ IH];
    cbn [within].
  - reflexivity.
  - intros Hp. cbn [forallb]. rewrite (Hp c Hc). reflexivity.
  - intros [H1 H2]. rewrite forallb_app, (IH1 H1), (IH2 H2). reflexivity.
  - intros [H1 _]. exact (IH H1).
  - intros [_ H2]. exact (IH H2).
Qed.

Lemma within_rep (P : N -> bool) (r : regex) (n : nat) :
  within P r -> within P (rep n r).
Proof. intros Hr. induction n as [|n IH]; cbn; [exact I | split; assumption]. Qed.

Lemma within_upto (P : N -> bool) (r : regex) (n : nat) :
  within P r -> within P (upto n r).
Proof.
  intros Hr. induction n as [|n IH]; cbn; [exact I|].
  split; [split; assumption | exact I].
Qed.

(** The code units from [lo] up, [n] of them. *)
Lemma checked_on_range (P : N -> bool) (lo : N) (n : nat) (c : N) :
  forallb P (map (fun k => (lo + N.of_nat k)%N) (List.seq 0 n)) = true ->
  (lo <= c)%N -> (c < lo + N.of_nat n)%N -> P c = true.
Proof.
  intros Hall Hlow Hhigh. rewrite forallb_forall in Hall.
  apply Hall. apply in_map_iff. exists (N.to_nat (c - lo)). split.
  - rewrite N2Nat.id. lia.
  - apply in_seq. lia.
Qed.

Lemma within_chr (P : N -> bool) (a : ascii) :
  P (ch a) = true -> within P (chr a).
Proof. intros Ha c Hc. apply N.eqb_eq in Hc. subst c. exact Ha. Qed.

Lemma within_range (P : N -> bool) (a b : ascii) :
  forallb P (map (fun k => (ch a + N.of_nat k)%N)
               (List.seq 0 (N.to_nat (ch b - ch a + 1)))) = true ->
  within P (range a b).
Proof.
  intros Hall c Hc. apply andb_true_iff in Hc as [Hlow Hhigh].
  apply N.leb_le in Hlow, Hhigh.
  apply (checked_on_range P (ch a) _ c Hall); lia.
Qed.

Lemma within_lit (P : N -> bool) (w : jsstring) :
  forallb P w = true -> within P (lit w).
Proof.
  induction w as [|c w IH]; cbn [forallb lit within]; [intros _; exact I|].
  intros Hw. apply andb_true_iff in Hw as [Hc Hw]. split; [|exact (IH Hw)].
  intros c' Hc'. apply N.eqb_eq in Hc'. subst c'. exact Hc.
Qed.

Ltac within_classes :=
  repeat first
    [ apply within_rep
    | apply within_upto
    | apply within_chr; reflexivity
    | apply within_range; vm_compute; reflexivity
    | apply within_lit; reflexivity
    | exact I
    | split ].

Lemma within_ipv4Regex : within isIPv4Unit ipv4Regex.
Proof. unfold ipv4Regex, octet, opt. within_classes. Qed.

Lemma within_ipv6Regex : within isIPv6Unit ipv6Regex.
Proof. unfold ipv6Regex, rep_range, hex. within_classes. Qed.

Lemma isValidIP_family (ip : jsstring) :
  isValidIP ip = true -> lang ipv4Regex ip \/ lang ipv6Regex ip.
Proof.
  unfold isValidIP. destruct (test ipv4Regex ip) eqn:H4.
  - intros _. left. apply test_spec, H4.
  - intros H6. right. apply test_spec, H6.
Qed.

Lemma unit_absent (P : N -> bool) (c : N) (s : jsstring) :
  P c = false -> forallb P s = true -> includes_char s c = false.
Proof.
  intros Hc. unfold includes_char.
  induction s as [|x s IH]; [reflexivity|]. cbn [forallb existsb].
  intros Hs. apply andb_true_iff in Hs as [Hx Hs]. rewrite (IH Hs).
  destruct (N.eqb_spec c x) as [->|_]; [congruence | reflexivity].
Qed.

Lemma lang_lit (w s : jsstring) : lang (lit w) s -> s = w.
Proof.
  revert s. induction w as [|c w IH]; intros s Hs; cbn [lit] in Hs.
  - apply lang_Eps_inv, Hs.
  - apply lang_Seq_inv in Hs as (s1 & s2 & -> & H1 & H2).
    apply lang_Class_inv in H1 as (c' & -> & Hc').
    apply N.eqb_eq in Hc'. subst c'. rewrite (IH s2 H2). reflexivity.
Qed.

Lemma lang_hex (s : jsstring) :
  lang hex s -> exists c, s = [c] /\ isHexUnit c = true.
Proof.
  intros Hs.
  assert (Hunits : forallb isHexUnit s = true).
  { apply (lang_within _ hex); [|exact Hs]. unfold hex. within_classes. }
  unfold hex in Hs.
  assert (Hone : exists c, s = [c]).
  { apply lang_Alt_inv in Hs as [Hs|Hs];
      [|apply lang_Alt_inv in Hs as [Hs|Hs]];
      apply lang_Class_inv in Hs as (c & -> & _); exists c; reflexivity. }
  destruct Hone as (c & ->). exists c. split; [reflexivity|].
  cbn [forallb] in Hunits. apply andb_true_iff in Hunits as [Hc _].
  exact Hc.
Qed.

(** A group of the full form: one to four hexadecimal digits. *)
Lemma lang_group (g : jsstring) :
  lang (rep_range 1 4 hex) g ->
  exists h rest, g = h :: rest /\ forallb isHexUnit (h :: rest) = true.
Proof.
  intros Hg.
  assert (Hunits : forallb isHexUnit g = true).
  { apply (lang_within _ (rep_range 1 4 hex)); [|exact Hg].
    unfold rep_range, hex. within_classes. }
  unfold rep_range in Hg. cbn [rep] in Hg.
  apply lang_Seq_inv in Hg as (s1 & s2 & -> & H1 & _).
  apply lang_Seq_inv in H1 as (s3 & s4 & -> & H3 & _).
  apply lang_hex in H3 as (h & -> & _).
  exists h, (s4 ++ s2). split; [reflexivity | exact Hunits].
Qed.

Lemma hex_is_no_colon (c : N) : isHexUnit c = true -> (ch ":" =? c)%N = false.
Proof.
  intros Hc. destruct (N.eqb_spec (ch ":") c) as [<-|_]; [|reflexivity].
  vm_compute in Hc. discriminate Hc.
Qed.

Lemma colon_after_digits (g rest : jsstring) :
  forallb isHexUnit g = true ->
  includes rest (js "::") = false ->
  startsWith rest (js ":") = false ->
  includes (g ++ ch ":" :: rest) (js "::") = false.
Proof.
  intros Hg Hrest Hhead. induction g as [|h g IH].
  - cbn [app]. change (js "::") with [ch ":"; ch ":"].
    cbn [includes startsWith]. rewrite N.eqb_refl. cbn [andb].
    change (js "::") with [ch ":"; ch ":"] in Hrest.
    change (js ":") with [ch ":"] in Hhead.
    rewrite Hhead, Hrest. reflexivity.
  - cbn [forallb] in Hg. apply andb_true_iff in Hg as [Hh Hg].
    cbn [app]. change (js "::") with [ch ":"; ch ":"] in IH |- *.
    cbn [includes startsWith]. rewrite (hex_is_no_colon h Hh), (IH Hg).
    reflexivity.
Qed.

Lemma digits_without_colons (g : jsstring) :
  forallb isHexUnit g = true -> includes g (js "::") = false.
Proof.
  change (js "::") with [ch ":"; ch ":"].
  induction g as [|h g IH]; [reflexivity|].
  cbn [forallb]. intros Hg. apply andb_true_iff in Hg as [Hh Hg].
  cbn [includes startsWith]. rewrite (hex_is_no_colon h Hh), (IH Hg).
  reflexivity.
Qed.

(** The full form has no two adjacent colons and does not start with
    one. *)
Lemma full_form_colons (n : nat) (s1 s2 : jsstring) :
  lang (rep n (Seq (rep_range 1 4 hex) (chr ":"))) s1 ->
  lang (rep_range 1 4 hex) s2 ->
  includes (s1 ++ s2) (js "::") = false
  /\ startsWith (s1 ++ s2) (js ":") = false.
Proof.
  revert s1. induction n as [|n IH]; intros s1 H1 H2; cbn [rep] in H1.
  - apply lang_Eps_inv in H1. subst s1. cbn [app].
    apply lang_group in H2 as (h & rest & -> & Hunits).
    split; [apply digits_without_colons, Hunits|].
    cbn [forallb] in Hunits. apply andb_true_iff in Hunits as [Hh _].
    change (js ":") with [ch ":"]. cbn [startsWith].
    rewrite (hex_is_no_colon h Hh). reflexivity.
  - apply lang_Seq_inv in H1 as (s3 & s4 & -> & H3 & H4).
    apply lang_Seq_inv in H3 as (g & colon & -> & Hg & Hcolon).
    apply lang_Class_inv in Hcolon as (c & -> & Hc).
    apply N.eqb_eq in Hc. subst c.
    destruct (IH s4 H4 H2) as [Hincl Hhead].
    apply lang_group in Hg as (h & rest & -> & Hunits).
    rewrite <- !app_assoc. cbn [app]. split.
    + apply (colon_after_digits (h :: rest)); assumption.
    + cbn [forallb] in Hunits. apply andb_true_iff in Hunits as [Hh _].
      change (js ":") with [ch ":"]. cbn [startsWith].
      rewrite (hex_is_no_colon h Hh). reflexivity.
Qed.

Lemma includes_needs_head (s sub : jsstring) (c : N) :
  includes s (c :: sub) = true -> includes_char s c = true.
Proof.
  unfold includes_char. induction s as [|x s IH]; cbn [includes startsWith].
  - discriminate.
  - intros Hs. cbn [existsb]. apply orb_true_iff in Hs as [Hs|Hs].
    + apply andb_true_iff in Hs as [Hx _]. rewrite Hx. reflexivity.
    + rewrite (IH Hs). apply orb_true_r.
Qed.

Lemma ipv6_has_colon (s : jsstring) :
  lang ipv6Regex s -> includes_char s (ch ":") = true.
Proof.
  unfold ipv6Regex. intros Hs.
  apply lang_Alt_inv in Hs as [Hs|Hs].
  - apply lang_Seq_inv in Hs as (s1 & s2 & -> & H1 & _).
    cbn [rep] in H1.
    apply lang_Seq_inv in H1 as (s3 & s4 & -> & H3 & _).
    apply lang_Seq_inv in H3 as (g & colon & -> & _ & Hcolon).
    apply lang_Class_inv in Hcolon as (c & -> & Hc).
    apply N.eqb_eq in Hc. subst c.
    rewrite !includes_char_app. cbn [includes_char existsb].
    rewrite N.eqb_refl. rewrite !orb_true_r. reflexivity.
  - apply lang_Alt_inv in Hs as [Hs|Hs]; apply lang_lit in Hs; subst s;
      reflexivity.
Qed.

Lemma forallb_weaken (P Q : N -> bool) (s : jsstring) :
  (forall c, P c = true -> Q c = true) ->
  forallb P s = true -> forallb Q s = true.
Proof.
  intros HPQ. induction s as [|c s IH]; [reflexivity|]. cbn [forallb].
  intros Hs. apply andb_true_iff in Hs as [Hc Hs].
  rewrite (HPQ c Hc), (IH Hs). reflexivity.
Qed.

Lemma ipv6_unit_is_ascii (c : N) : isIPv6Unit c = true -> isAsciiUnit c = true.
Proof.
  unfold isIPv6Unit, isHexUnit, isDigit, between, isAsciiUnit.
  change (ch "a") with 97%N. change (ch "f") with 102%N.
  change (ch "A") with 65%N. change (ch "F") with 70%N.
  change (ch ":") with 58%N.
  intros Hc. apply N.ltb_lt.
  repeat (apply orb_true_iff in Hc as [Hc|Hc]);
    try (apply andb_true_iff in Hc as [_ Hc]; apply N.leb_le in Hc; lia).
  apply N.eqb_eq in Hc. lia.
Qed.

Lemma floor_of_quarter (p : Z) : floor (div (ofZ p) (ofZ 4)) = ofZ (p / 4).
Proof.
  unfold div, ofZ.
  change (Qeq_bool (inject_Z 4) 0) with false. cbv iota.
  unfold floor, ofZ. do 2 f_equal.
  unfold Qfloor, Qdiv, Qmult, Qinv, inject_Z. cbn [Qnum Qden].
  rewrite Z.mul_1_r. reflexivity.
Qed.

Lemma substring0_ofZ (s : jsstring) (k : Z) :
  substring0 s (ofZ k) = take (Z.to_nat k) s.
Proof.
  unfold substring0, ofZ, truncate, inject_Z. cbn [Qnum Qden].
  rewrite Z.quot_1_r. reflexivity.
Qed.

Section WithHost.
Context `{host : Host}.

Lemma expandIPv6_nonempty (ip : jsstring) :
  lowersAscii -> lang ipv6Regex ip -> str_eqb (expandIPv6 ip) [] = false.
Proof.
  intros Hhost Hip. unfold expandIPv6.
  destruct (str_eqb ip (js "::")); [reflexivity|].
  destruct (str_eqb ip (js "::1")); [reflexivity|].
  rewrite Hhost.
  2:{ apply (forallb_weaken isIPv6Unit); [exact ipv6_unit_is_ascii|].
      exact (lang_within _ _ _ within_ipv6Regex Hip). }
  apply ipv6_has_colon in Hip.
  destruct ip as [|c ip]; [discriminate Hip|].
  apply bool_decide_eq_false_2. discriminate.
Qed.

(** The match of an IPv6 address against an IPv6 range with a printed
    prefix length. *)
Lemma isIPInRange_ipv6 (ip network : jsstring) (p : Z) :
  lowersAscii ->
  lang ipv6Regex ip ->
  lang ipv6Regex network ->
  (0 <= p <= 128)%Z ->
  isIPInRange ip (network ++ ch "/" :: Sample.decimal p)
  = str_eqb (take (Z.to_nat (p / 4)) (expandIPv6 ip))
      (take (Z.to_nat (p / 4)) (expandIPv6 network)).
Proof.
  intros Hhost Hip Hnetwork Hp.
  pose proof (lang_within _ _ _ within_ipv6Regex Hip) as Hunits.
  pose proof (lang_within _ _ _ within_ipv6Regex Hnetwork) as Hunits'.
  destruct (octet_printed p ltac:(lia)) as (_ & Hslash' & Hparsed & _).
  unfold isIPInRange.
  rewrite (split_at_separator _ network _
             (unit_absent isIPv6Unit (ch "/") network eq_refl Hunits')).
  rewrite (split_without_separator _ _ Hslash').
  cbn [hd nth_error parseInt_opt].
  rewrite (unit_absent isIPv6Unit (ch ".") ip eq_refl Hunits).
  rewrite (ipv6_has_colon ip Hip), (ipv6_has_colon network Hnetwork).
  cbn [andb]. unfold isIPv6InRange.
  rewrite (expandIPv6_nonempty ip Hhost Hip),
    (expandIPv6_nonempty network Hhost Hnetwork).
  cbn [orb]. rewrite Hparsed, floor_of_quarter, !substring0_ofZ.
  reflexivity.
Qed.

End WithHost.

End SyntaxFacts.

Module SyntaxProperties.
Import IPBlocker ReadOnly BlocklistFacts RegexFacts NumberFacts Scenario.
Import SyntaxFacts.
Import Regex (lang, test).

(** X21.  The only compressed IPv6 forms that pass [isValidIP] are '::'
    and '::1': every other text with two adjacent colons, such as
    'fe80::1' or '::ffff:10.0.0.1', is no valid address, so [addIP]
    refuses it and [validateIP] reports it as not blocked. *)
Theorem only_two_compressed_forms (ip : jsstring) :
  isValidIP ip = true ->
  includes ip (js "::") = true ->
  ip = js "::" \/ ip = js "::1".
Proof.
  intros Hvalid Hcompressed.
  apply isValidIP_family in Hvalid as [H4|H6].
  - exfalso.
    pose proof (lang_within _ _ _ within_ipv4Regex H4) as Hunits.
    apply includes_needs_head in Hcompressed.
    exact (eq_true_false_abs _ Hcompressed
             (unit_absent isIPv4Unit (ch ":") ip eq_refl Hunits)).
  - unfold ipv6Regex in H6. apply lang_Alt_inv in H6 as [Hfull|Hshort].
    + exfalso. apply lang_Seq_inv in Hfull as (s1 & s2 & -> & H1 & H2).
      destruct (full_form_colons 7 s1 s2 H1 H2) as [Hnone _].
      rewrite Hnone in Hcompressed. discriminate Hcompressed.
    + apply lang_Alt_inv in Hshort as [Hone|Hzero].
      * right. apply lang_lit, Hone.
      * left. apply lang_lit, Hzero.
Qed.

Section WithHost.
Context `{host : Host}.

(** X22.  An address of one family is never matched by a range of the
    other: an IPv4 address is in no range whose network part is an IPv6
    address, and an IPv6 address in none whose network part is an IPv4
    address, whatever follows the slash. *)
Theorem address_families_do_not_mix (v4 v6 mask : jsstring) :
  test ipv4Regex v4 = true ->
  test ipv6Regex v6 = true ->
  isIPInRange v4 (v6 ++ ch "/" :: mask) = false
  /\ isIPInRange v6 (v4 ++ ch "/" :: mask) = false.
Proof.
  intros H4 H6. apply test_spec in H4, H6.
  pose proof (lang_within _ _ _ within_ipv4Regex H4) as Hunits4.
  pose proof (lang_within _ _ _ within_ipv6Regex H6) as Hunits6.
  pose proof (unit_absent isIPv4Unit (ch ":") v4 eq_refl Hunits4) as Hcolon4.
  pose proof (unit_absent isIPv4Unit (ch "/") v4 eq_refl Hunits4) as Hslash4.
  pose proof (unit_absent isIPv6Unit (ch ".") v6 eq_refl Hunits6) as Hdot6.
  pose proof (unit_absent isIPv6Unit (ch "/") v6 eq_refl Hunits6) as Hslash6.
  unfold isIPInRange.
  rewrite (split_at_separator _ v6 mask Hslash6).
  rewrite (split_at_separator _ v4 mask Hslash4).
  cbn [hd]. rewrite Hdot6, Hcolon4, !andb_false_r.
  split; [reflexivity|]. rewrite andb_false_l. reflexivity.
Qed.

(** X23.  Matching an IPv6 address against an IPv6 range compares text,
    not bits: with a prefix length [p] from 0 to 128 it compares the
    first [p / 4] characters, colons included, of the two lower-cased
    texts.  So a prefix length below 4 matches every IPv6 address, and no
    prefix length compares more than the first 32 characters. *)
Theorem ipv6_range_compares_text (ip network : jsstring) (p : Z) :
  lowersAscii ->
  test ipv6Regex ip = true ->
  test ipv6Regex network = true ->
  (0 <= p <= 128)%Z ->
  let cidr := network ++ ch "/" :: Sample.decimal p in
  let n := Z.to_nat (p / 4) in
  isValidCIDR cidr = true
  /\ isIPInRange ip cidr
     = str_eqb (take n (expandIPv6 ip)) (take n (expandIPv6 network))
  /\ ((p < 4)%Z -> isIPInRange ip cidr = true)
  /\ (n <= 32)%nat.
Proof.
  intros Hhost Hip Hnetwork Hp cidr n.
  assert (Hvalid : isValidIP network = true).
  { unfold isValidIP. rewrite Hnetwork.
    destruct (test ipv4Regex network); reflexivity. }
  apply test_spec in Hip, Hnetwork.
  pose proof (lang_within _ _ _ within_ipv6Regex Hip) as Hunits.
  pose proof (lang_within _ _ _ within_ipv6Regex Hnetwork) as Hunits'.
  pose proof (unit_absent isIPv6Unit (ch ".") ip eq_refl Hunits) as Hdot.
  pose proof (unit_absent isIPv6Unit (ch ".") network eq_refl Hunits')
    as Hdot'.
  pose proof (unit_absent isIPv6Unit (ch "/") network eq_refl Hunits')
    as Hslash.
  destruct (octet_printed p ltac:(lia)) as (_ & Hslash' & Hparsed & _).
  assert (Hparts : split (ch "/") cidr = [network; Sample.decimal p]).
  { subst cidr. rewrite (split_at_separator _ network _ Hslash).
    rewrite (split_without_separator _ _ Hslash'). reflexivity. }
  assert (Hmatch : isIPInRange ip cidr
    = str_eqb (take n (expandIPv6 ip)) (take n (expandIPv6 network))).
  { unfold isIPInRange. rewrite Hparts. cbn [hd nth_error parseInt_opt].
    rewrite Hdot, (ipv6_has_colon ip Hip), (ipv6_has_colon network Hnetwork).
    cbn [andb]. unfold isIPv6InRange.
    rewrite (expandIPv6_nonempty ip Hhost Hip),
      (expandIPv6_nonempty network Hhost Hnetwork).
    cbn [orb]. rewrite Hparsed, floor_of_quarter, !substring0_ofZ.
    reflexivity. }
  split; [|split; [exact Hmatch|split]].
  - unfold isValidCIDR. rewrite Hparts, Hvalid, Hparsed, Hdot'.
    cbn [negb isNaN ofZ]. rewrite ge_ofZ, le_ofZ.
    apply andb_true_iff. split; apply Z.leb_le; lia.
  - intros Hsmall. rewrite Hmatch.
    assert (Hzero : n = 0%nat).
    { subst n. rewrite Z.div_small by lia. reflexivity. }
    rewrite Hzero. cbn [take]. reflexivity.
  - subst n. assert (p / 4 <= 32)%Z; [|lia].
    apply Z.div_le_upper_bound; lia.
Qed.

(** C9, evaluated.  The exact set is matched by spelling, although the
    two spellings are both valid addresses and the ranges are matched
    without regard to case.  After [addIP] of the upper-case spelling of
    an address that spelling is blocked, but the lower-case spelling of
    the same address is not; after [addRange] of the upper-case spelling
    with the prefix length 128, both spellings are blocked. *)
Theorem exact_match_misses_other_case :
  lowersAscii ->
  let upper := Sample.upperCaseAddress in
  let lower := Sample.lowerCaseAddress in
  let cidr := upper ++ ch "/" :: Sample.decimal 128 in
  let added := final (addIP upper) IPBlocker.empty in
  let ranged := final (addRange cidr) IPBlocker.empty in
  (isValidIP upper = true
   /\ isValidIP lower = true
   /\ map asciiLower upper = lower)
  /\ (result (addIP upper) IPBlocker.empty = true
      /\ isBlocked (result (validateIP upper) added) = true
      /\ isBlocked (result (validateIP lower) added) = false)
  /\ (result (addRange cidr) IPBlocker.empty = true
      /\ isBlocked (result (validateIP upper) ranged) = true
      /\ isBlocked (result (validateIP lower) ranged) = true).
Proof.
  intros Hhost upper lower cidr added ranged.
  assert (Hupper : isValidIP upper = true) by (vm_compute; reflexivity).
  assert (Hlower : isValidIP lower = true) by (vm_compute; reflexivity).
  assert (Hword : lang ipv6Regex upper)
    by (apply test_spec; vm_compute; reflexivity).
  assert (Hword' : lang ipv6Regex lower)
    by (apply test_spec; vm_compute; reflexivity).
  assert (Hexpand : expandIPv6 upper = lower /\ expandIPv6 lower = lower).
  { unfold expandIPv6.
    change (str_eqb upper (js "::")) with false.
    change (str_eqb upper (js "::1")) with false.
    change (str_eqb lower (js "::")) with false.
    change (str_eqb lower (js "::1")) with false.
    cbv iota. rewrite !Hhost by (vm_compute; reflexivity).
    split; vm_compute; reflexivity. }
  destruct Hexpand as [Hexpand Hexpand'].
  assert (Hranged : ranged = {| blockedIPs := ∅; blockedRanges := [cidr] |})
    by (vm_compute; reflexivity).
  assert (Hp : (0 <= 128 <= 128)%Z) by lia.
  split; [|split].
  - split; [exact Hupper|]. split; [exact Hlower|]. vm_compute. reflexivity.
  - repeat split; vm_compute; reflexivity.
  - split; [vm_compute; reflexivity|].
    rewrite (validateIP_valid upper ranged Hupper),
      (validateIP_valid lower ranged Hlower), Hranged.
    cbn [blockedIPs blockedRanges existsb]. unfold cidr.
    rewrite (isIPInRange_ipv6 upper upper 128 Hhost Hword Hword Hp),
      (isIPInRange_ipv6 lower upper 128 Hhost Hword' Hword Hp).
    rewrite Hexpand, Hexpand'.
    split; apply orb_true_iff; right; apply orb_true_iff; left;
      apply bool_decide_eq_true_2; reflexivity.
Qed.

End WithHost.

End SyntaxProperties.

(* ================================================================== *)
(** ** The client address of a request and the routes *)
(* ================================================================== *)

Module ServerFacts.
Import IPBlocker SpamRules Gemini SpamDetector Server Stage ReadOnly.
Import PipelineFacts BlocklistFacts Scenario DecisionFacts OperationFacts.

Lemma split_first (sep : N) (s : jsstring) :
  nth_error (split sep s) 0 = Some (textBefore sep s).
Proof.
  unfold textBefore. induction s as [|c s IH]; [reflexivity|].
  cbn [split takeWhile]. destruct (c =? sep)%N; cbn [negb]; [reflexivity|].
  destruct (split sep s) as [|part parts]; [discriminate IH|].
  cbn [nth_error] in IH |- *. injection IH as ->. reflexivity.
Qed.

Lemma whenTruthy_nonempty (s : jsstring) :
  s <> [] -> whenTruthy (Some s) = Some s.
Proof.
  intros Hs. unfold whenTruthy. rewrite str_eqb_neq by exact Hs. reflexivity.
Qed.

Lemma whenTruthy_some (o : option jsstring) (s : jsstring) :
  whenTruthy o = Some s -> o = Some s /\ str_eqb s [] = false.
Proof.
  destruct o as [t|]; [|discriminate]. cbn [whenTruthy].
  destruct (str_eqb t []) eqn:Ht; [discriminate|].
  intros [= ->]. split; [reflexivity | exact Ht].
Qed.

Section WithHost.
Context `{host : Host}.

Lemma ipBlocking_preserves (req : Request) : preserves (ipBlocking req).
Proof.
  unfold ipBlocking. destruct (whenTruthy (extractClientIP req));
    [|apply preserves_ret].
  apply preserves_bind.
  - apply on_ipBlocker_preserves, validateIP_preserves.
  - intros v. apply preserves_if; apply preserves_ret.
Qed.

Lemma ipBlocking_result (req : Request) (d : SpamDetector) :
  result (ipBlocking req) d
  = match whenTruthy (extractClientIP req) with
    | Some clientIP =>
        if isBlocked (result (validateIP clientIP) (ipBlocker d)) then
          Forbidden (reason (result (validateIP clientIP) (ipBlocker d)))
            clientIP
        else Next (Some clientIP)
    | None => Next None
    end.
Proof.
  unfold ipBlocking. destruct (whenTruthy (extractClientIP req)) as [c|];
    [|reflexivity].
  unfold result, bind.
  rewrite (preserves_run _
             (on_ipBlocker_preserves _ (validateIP_preserves c)) d).
  replace (result (on_ipBlocker (validateIP c)) d)
    with (result (validateIP c) (ipBlocker d)).
  2:{ unfold result, on_ipBlocker, zoom.
      destruct (validateIP c (ipBlocker d)); reflexivity. }
  unfold result.
  destruct (isBlocked (validateIP c (ipBlocker d)).1); reflexivity.
Qed.

End WithHost.

End ServerFacts.

Module ServerProperties.
Import IPBlocker SpamRules Gemini SpamDetector Server Stage ReadOnly.
Import PipelineFacts BlocklistFacts Scenario DecisionFacts OperationFacts.
Import ServerFacts.

Section WithHost.
Context `{host : Host}.

(** X24.  A request with a non-empty X-Forwarded-For header is judged by
    that header alone.  Its client address is the text of the header
    before the first comma, trimmed, whatever the other headers and the
    connection say; and if that address is not blocked the middleware
    lets the request through, even when the address of the connection is
    in the blocklist.  The middleware leaves the detector as it was. *)
Theorem forwarded_header_decides (req : Request) (forwarded : jsstring)
  (d : SpamDetector) :
  x_forwarded_for req = Some forwarded ->
  forwarded <> [] ->
  let claimed := trim (textBefore (ch ",") forwarded) in
  extractClientIP req = Some claimed
  /\ (isBlocked (result (validateIP claimed) (ipBlocker d)) = false ->
      result (ipBlocking req) d = Next (whenTruthy (Some claimed)))
  /\ final (ipBlocking req) d = d.
Proof.
  intros Hheader Hnonempty claimed.
  assert (Haddress : extractClientIP req = Some claimed).
  { unfold extractClientIP.
    rewrite Hheader, (whenTruthy_nonempty _ Hnonempty). cbv zeta.
    rewrite nth_error_map, split_first. reflexivity. }
  split; [exact Haddress|]. split; [|apply ipBlocking_preserves].
  intros Hfree. rewrite ipBlocking_result, Haddress.
  destruct (whenTruthy (Some claimed)) as [c|] eqn:Hc; [|reflexivity].
  apply whenTruthy_some in Hc as [[= <-] _]. rewrite Hfree. reflexivity.
Qed.

(** X25.  A request that the middleware lets through meets no second
    block in [detectSpam]: for a post that carries the client address the
    middleware recorded, the decision is the one for the same post
    without a client address. *)
Theorem passed_request_is_judged_on_content (req : Request)
  (d : SpamDetector) (address : option jsstring) (post : TwitterPost)
  (reply : ProviderReply) :
  result (ipBlocking req) d = Next address ->
  clientIP post = address ->
  let d' := final (ipBlocking req) d in
  d' = d
  /\ result (detectSpam post reply) d'
     = result (detectSpam (withoutOrigin post) reply) d'.
Proof.
  intros Hpassed Hpost d'.
  assert (Hd : d' = d) by apply ipBlocking_preserves.
  split; [exact Hd|]. rewrite Hd. clear Hd d'.
  assert (Horigin : originBlocked d post = false).
  { unfold originBlocked, originVerdict. rewrite Hpost.
    rewrite ipBlocking_result in Hpassed.
    destruct (whenTruthy (extractClientIP req)) as [c|].
    - destruct (isBlocked (result (validateIP c) (ipBlocker d))) eqn:Hc;
        [discriminate Hpassed|].
      injection Hpassed as <-.
      destruct (enableIPBlocking (config d) && negb (str_eqb c []));
        [exact Hc | reflexivity].
    - injection Hpassed as <-. reflexivity. }
  assert (Hrules : triggeredRules (withoutOrigin post) = triggeredRules post)
    by (apply rules_read_the_text; reflexivity).
  unfold result. rewrite !detectSpam_run. cbn [fst].
  rewrite Horigin. unfold gatheredReasons, totalSeverity. rewrite Hrules.
  reflexivity.
Qed.

End WithHost.

(** X26.  The unblocking route answers 200 exactly when the blocklist
    held the identifier, in the range list with [type=range] and in the
    exact set without it, and 404 exactly when it did not.  A 404 leaves
    the detector as it was; a 200 has removed the identifier, the first
    occurrence in the range list or the member of the exact set.  Without
    [type=range] the route only ever touches the exact set, so a blocked
    range is never removed that way; with it, only the range list. *)
Theorem unblocking_route_reports_what_it_did (identifier : jsstring)
  (type : value) (d : SpamDetector) :
  let r := result (deleteBlockedIP identifier type) d in
  let d' := final (deleteBlockedIP identifier type) d in
  let held :=
    if isRangeType type then
      List.In identifier (blockedRanges (ipBlocker d))
    else identifier ∈ blockedIPs (ipBlocker d) in
  (status r = 200%Z <-> held)
  /\ (status r = 404%Z <-> ~ held)
  /\ (status r = 200%Z \/ status r = 404%Z)
  /\ (status r = 404%Z -> d' = d)
  /\ (status r = 200%Z ->
      if isRangeType type then
        List.In identifier (blockedRanges (ipBlocker d))
        /\ blockedRanges (ipBlocker d')
           = remove_first identifier (blockedRanges (ipBlocker d))
      else
        (identifier ∈ blockedIPs (ipBlocker d))
        /\ (identifier ∉ blockedIPs (ipBlocker d')))
  /\ (if isRangeType type then
        blockedIPs (ipBlocker d') = blockedIPs (ipBlocker d)
      else blockedRanges (ipBlocker d') = blockedRanges (ipBlocker d))
  /\ config d' = config d
  /\ geminiDetector d' = geminiDetector d.
Proof.
  intros r d' held. subst r d' held. destruct d as [c [ips ranges] g].
  unfold result, final, deleteBlockedIP, bind.
  destruct (isRangeType type).
  - unfold unblockIPRange, on_ipBlocker, zoom, removeRange, bind, get.
    cbn [ipBlocker blockedRanges blockedIPs fst snd].
    destruct (existsb (str_eqb identifier) ranges) eqn:Hlisted;
      unfold put, ret; cbn [fst snd status ipBlocker blockedRanges blockedIPs
                             config geminiDetector].
    + pose proof (proj1 (existsb_str_eqb identifier ranges) Hlisted) as Hin.
      split; [split; [intros _; exact Hin | reflexivity]|].
      split; [split; [discriminate | intros Hnot; contradiction]|].
      split; [left; reflexivity|]. split; [discriminate|].
      split; [|repeat split]. intros _. split; [exact Hin | reflexivity].
    + pose proof (proj1 (existsb_str_eqb_false identifier ranges) Hlisted)
        as Hout.
      split; [split; [discriminate | intros Hin; contradiction]|].
      split; [split; [intros _; exact Hout | reflexivity]|].
      split; [right; reflexivity|]. split; [reflexivity|].
      split; [discriminate|]. repeat split.
  - unfold unblockIP, on_ipBlocker, zoom, removeIP, bind, get, put, ret.
    cbn [ipBlocker blockedRanges blockedIPs fst snd].
    destruct (bool_decide (identifier ∈ ips)) eqn:Hmember;
      cbn [fst snd status ipBlocker blockedRanges blockedIPs
           config geminiDetector].
    + apply bool_decide_eq_true_1 in Hmember.
      split; [split; [intros _; exact Hmember | reflexivity]|].
      split; [split; [discriminate | intros Hnot; contradiction]|].
      split; [left; reflexivity|]. split; [discriminate|].
      split; [|repeat split]. intros _. split; [exact Hmember|].
      rewrite elem_of_difference, elem_of_singleton. intros [_ Hneq].
      apply Hneq. reflexivity.
    + apply bool_decide_eq_false_1 in Hmember.
      split; [split; [discriminate | intros Hin; contradiction]|].
      split; [split; [intros _; exact Hmember | reflexivity]|].
      split; [right; reflexivity|]. split; [|split; [discriminate|]].
      * intros _. do 2 f_equal. apply leibniz_equiv. intros x.
        rewrite elem_of_difference, elem_of_singleton. split.
        -- intros [Hin _]. exact Hin.
        -- intros Hin. split; [exact Hin|]. intros ->. exact (Hmember Hin).
      * repeat split.
Qed.

End ServerProperties.

(* ================================================================== *)
(** ** Properties of single rules *)
(* ================================================================== *)

Module RuleFacts.
Import SpamRules SpamDetector Stage NumberFacts PipelineFacts BlocklistFacts.

Lemma gt_ofZ (x y : Z) : gt (ofZ x) (ofZ y) = (y <? x)%Z.
Proof.
  unfold gt, lt, ofZ, Qlt_bool, Qle_bool, inject_Z. cbn [Qnum Qden].
  rewrite !Z.mul_1_r. rewrite Z.ltb_antisym. reflexivity.
Qed.

Lemma run_of_spec (c : N) (n : nat) (s : jsstring) :
  run_of c n s = true <-> exists rest, s = List.repeat c n ++ rest.
Proof.
  revert s. induction n as [|n IH]; intros s; cbn [run_of List.repeat app].
  - split; [intros _; exists s; reflexivity | reflexivity].
  - destruct s as [|x s].
    + split; [discriminate | intros (rest & Hrest); discriminate Hrest].
    + rewrite andb_true_iff, N.eqb_eq, IH. split.
      * intros (-> & rest & ->). exists rest. reflexivity.
      * intros (rest & [= -> ->]). split; [reflexivity|].
        exists rest. reflexivity.
Qed.

(** *** Sums of severities *)

Lemma sumZ_bounds (low high : Z) (zs : list Z) :
  Forall (fun z => (low <= z <= high)%Z) zs ->
  (low * Z.of_nat (length zs) <= sumZ zs <= high * Z.of_nat (length zs))%Z.
Proof.
  induction 1 as [|z zs Hz _ IH]; cbn [sumZ fold_right length].
  - lia.
  - fold (sumZ zs). lia.
Qed.

Lemma sumZ_filter (f : SpamRule -> bool) (rules : list SpamRule) :
  Forall (fun rule => (0 <= severityZ rule)%Z) rules ->
  (sumZ (map severityZ (List.filter f rules)) <= sumZ (map severityZ rules))%Z.
Proof.
  induction 1 as [|rule rules Hrule _ IH]; cbn [List.filter map sumZ fold_right].
  - lia.
  - destruct (f rule); cbn [map sumZ fold_right]; fold sumZ;
      unfold sumZ in IH |- *; lia.
Qed.

(** *** Scanning for links *)

Lemma matchUrls_resumes (w : N) (front rest : jsstring) (inMatch : bool) :
  isWhiteSpace w = true ->
  exists found,
    matchUrls inMatch (front ++ w :: rest) = found ++ matchUrls false rest.
Proof.
  intros Hw. revert inMatch.
  induction front as [|c front IH]; intros inMatch; cbn [app matchUrls].
  - rewrite Hw. exists []. reflexivity.
  - destruct (isWhiteSpace c); [apply IH|].
    destruct inMatch; [apply IH|].
    destruct (urlStartsAt (c :: front ++ w :: rest)); [|apply IH].
    destruct (IH true) as (found & ->).
    eexists (_ :: found). reflexivity.
Qed.

Lemma startsWith_app (s t prefix : jsstring) :
  startsWith s prefix = true -> startsWith (s ++ t) prefix = true.
Proof.
  revert s. induction prefix as [|p prefix IH]; intros s.
  { intros _. destruct (s ++ t); reflexivity. }
  destruct s as [|c s]; cbn [startsWith app]; [discriminate|].
  intros Hs. apply andb_true_iff in Hs as [Hc Hs]. rewrite Hc, (IH s Hs).
  reflexivity.
Qed.

Lemma urlAfter_app (prefix s t : jsstring) :
  urlAfter prefix s = true -> urlAfter prefix (s ++ t) = true.
Proof.
  unfold urlAfter. intros Hs. apply andb_true_iff in Hs as [Hprefix Hnext].
  rewrite (startsWith_app _ t _ Hprefix). cbn [andb].
  destruct (drop (length prefix) s) as [|c rest] eqn:Hdrop;
    [discriminate Hnext|].
  assert (Hlong : (length prefix < length s)%nat).
  { destruct (Nat.lt_ge_cases (length prefix) (length s)) as [H|H];
      [exact H|]. rewrite drop_ge in Hdrop by exact H. discriminate Hdrop. }
  rewrite drop_app_le by lia. rewrite Hdrop. exact Hnext.
Qed.

Lemma urlStartsAt_app (s t : jsstring) :
  urlStartsAt s = true -> urlStartsAt (s ++ t) = true.
Proof.
  unfold urlStartsAt. intros Hs. apply orb_true_iff in Hs as [Hs|Hs];
    rewrite (urlAfter_app _ _ t Hs); [reflexivity | apply orb_true_r].
Qed.

Lemma takeWhile_to_boundary (p : N -> bool) (s tail : jsstring) :
  forallb p s = true ->
  match tail with
  | c :: _ => p c = false
  | [] => True
  end ->
  takeWhile p (s ++ tail) = s.
Proof.
  intros Hs Htail. induction s as [|x s IH]; cbn [app takeWhile].
  - destruct tail as [|c tail]; [reflexivity|]. cbn [takeWhile].
    rewrite Htail. reflexivity.
  - cbn [forallb] in Hs. apply andb_true_iff in Hs as [Hx Hs].
    rewrite Hx, (IH Hs). reflexivity.
Qed.

Lemma includes_app_r (s t sub : jsstring) :
  includes t sub = true -> includes (s ++ t) sub = true.
Proof.
  intros Ht. induction s as [|c s IH]; [exact Ht|].
  cbn [app includes]. rewrite IH. apply orb_true_r.
Qed.

End RuleFacts.

Module RuleProperties.
Import SpamRules SpamDetector Stage NumberFacts PipelineFacts BlocklistFacts.
Import RuleFacts Scenario.

Section WithHost.
Context `{host : Host}.

(** X27.  The repeated-characters rule fires exactly when the text holds
    five copies in a row of one code unit that is no line terminator. *)
Theorem repeated_characters_rule (post : TwitterPost) :
  check repeated_characters post = true
  <-> exists front c back,
        post_text post = front ++ List.repeat c 5 ++ back
        /\ isLineTerminator c = false.
Proof.
  cbn [check repeated_characters]. generalize (post_text post) as s.
  intros s. split.
  - induction s as [|x s IH]; cbn [hasRepeatedCharacters]; [discriminate|].
    intros Hs. apply orb_true_iff in Hs as [Hhere | Hlater].
    + apply andb_true_iff in Hhere as [Hx Hrun].
      apply negb_true_iff in Hx.
      apply run_of_spec in Hrun as (back & ->).
      exists [], x, back. split; [reflexivity | exact Hx].
    + destruct (IH Hlater) as (front & c & back & -> & Hc).
      exists (x :: front), c, back. split; [reflexivity | exact Hc].
  - intros (front & c & back & -> & Hc).
    induction front as [|x front IH]; cbn [app hasRepeatedCharacters].
    + change (List.repeat c 5 ++ back)
        with (c :: (List.repeat c 4 ++ back)).
      cbn [hasRepeatedCharacters]. rewrite Hc. cbn [negb andb].
      rewrite (proj2 (run_of_spec c 4 _)); [reflexivity|].
      exists back. reflexivity.
    + rewrite IH. apply orb_true_r.
Qed.

(** X28.  The total severity of a post is a whole number: at least the
    number of triggered rules, at most five times that number, and never
    more than 28, the sum over the whole rule table. *)
Theorem total_severity_bounds (post : TwitterPost) :
  exists t : Z,
    totalSeverity post = ofZ t
    /\ (Z.of_nat (length (triggeredRules post)) <= t
        <= 5 * Z.of_nat (length (triggeredRules post)))%Z
    /\ (t <= 28)%Z.
Proof.
  assert (Hints : Forall (fun rule => severity rule = ofZ (severityZ rule))
                    spamRules).
  { unfold spamRules. repeat constructor. }
  assert (Hrange : Forall (fun rule => (1 <= severityZ rule <= 5)%Z)
                     spamRules).
  { unfold spamRules. repeat constructor; cbn; lia. }
  assert (Hsub : forall (P : SpamRule -> Prop), Forall P spamRules ->
                   Forall P (triggeredRules post)).
  { intros P HP. apply List.Forall_forall. intros rule Hin.
    apply filter_In in Hin as [Hin _].
    exact (proj1 (List.Forall_forall _ _) HP rule Hin). }
  exists (sumZ (map severityZ (triggeredRules post))). split; [|split].
  - unfold totalSeverity.
    rewrite (total_of_integers _ 0 (Hsub _ Hints)). reflexivity.
  - pose proof (sumZ_bounds 1 5 (map severityZ (triggeredRules post))) as Hb.
    rewrite length_map in Hb. rewrite Z.mul_1_l in Hb. apply Hb.
    apply Forall_map. apply (Hsub _ Hrange).
  - unfold triggeredRules.
    etransitivity; [apply sumZ_filter|].
    + eapply List.Forall_impl; [|exact Hrange]. cbn. intros rule Hr. lia.
    + vm_compute. discriminate.
Qed.

(** X29.  A link whose text holds 't.co' anywhere, as 'microsoft.com' and
    'reddit.com' do, makes the suspicious-links rule fire: any post in
    which a run of characters without white space, set off by white space
    or the ends of the text, starts with 'http://' or 'https://' and
    holds 't.co'. *)
Theorem link_holding_t_co_is_suspicious (post : TwitterPost)
  (front url back : jsstring) :
  post_text post = front ++ url ++ back ->
  endsAtSpace front = true ->
  startsAtSpace back = true ->
  forallb (fun c => negb (isWhiteSpace c)) url = true ->
  urlStartsAt url = true ->
  includes url (js "t.co") = true ->
  check suspicious_urls post = true.
Proof.
  intros Htext Hfront Hback Hword Hlink Hshort.
  assert (Hfound : exists found later,
    matchUrls false (url ++ back) = url :: later
    /\ matchUrls false (post_text post) = found ++ url :: later).
  { assert (Hhere : exists later, matchUrls false (url ++ back) = url :: later).
    { destruct url as [|c url']; [discriminate Hlink|].
      pose proof Hword as Hc. cbn [forallb] in Hc.
      apply andb_true_iff in Hc as [Hc _]. apply negb_true_iff in Hc.
      change ((c :: url') ++ back) with (c :: (url' ++ back)).
      cbn [matchUrls]. rewrite Hc.
      change (c :: (url' ++ back)) with ((c :: url') ++ back).
      rewrite (urlStartsAt_app _ back Hlink).
      rewrite (takeWhile_to_boundary _ (c :: url') back Hword).
      - eexists. reflexivity.
      - destruct back as [|w back']; [exact I|].
        cbn [startsAtSpace] in Hback. rewrite Hback. reflexivity. }
    destruct Hhere as (later & Hhere). rewrite Htext.
    unfold endsAtSpace in Hfront.
    destruct (rev front) as [|w rfront] eqn:Hrev.
    - apply (f_equal (@rev N)) in Hrev. rewrite rev_involutive in Hrev.
      subst front. exists [], later. split; [exact Hhere|]. exact Hhere.
    - apply (f_equal (@rev N)) in Hrev. rewrite rev_involutive in Hrev.
      cbn [rev] in Hrev. subst front. rewrite <- app_assoc. cbn [app].
      destruct (matchUrls_resumes w (rev rfront) (url ++ back) false Hfront)
        as (found & ->).
      exists found, later. rewrite Hhere. split; reflexivity. }
  destruct Hfound as (found & later & _ & Hurls).
  cbn [check suspicious_urls]. rewrite Hurls.
  apply orb_true_iff. right. rewrite existsb_app. cbn [existsb].
  rewrite Hshort. rewrite !orb_true_r. reflexivity.
Qed.

(** X30.  The only-numbers rule fires exactly when the text holds at
    least one decimal digit and no ASCII letter; punctuation, white space
    and characters outside ASCII do not count.  So a date, a telephone
    number, or a text in another script with one digit in it, fires the
    rule. *)
Theorem only_numbers_rule (post : TwitterPost) :
  check all_numbers post = true
  <-> (exists c, List.In c (post_text post) /\ isDigit c = true)
      /\ (forall c, List.In c (post_text post) ->
            isUpper c = false /\ isLower c = false).
Proof.
  cbn [check all_numbers]. set (s := post_text post).
  assert (Hdisjoint : forall c, isDigit c = true ->
            isUpper c = false /\ isLower c = false).
  { intros c Hc. unfold isDigit in Hc. unfold isUpper, isLower.
    change (ch "A") with 65%N. change (ch "Z") with 90%N.
    change (ch "a") with 97%N. change (ch "z") with 122%N.
    apply andb_true_iff in Hc as [_ Hc]. apply N.leb_le in Hc.
    split; apply andb_false_iff; left; apply N.leb_gt; lia. }
  assert (Hlength : gt (str_length (List.filter isAlphaNumeric s)) (ofZ 0)
                    = true
                    <-> List.filter isAlphaNumeric s <> []).
  { unfold str_length, ofNat. rewrite gt_ofZ.
    destruct (List.filter isAlphaNumeric s); cbn [length].
    - split; [discriminate | intros H; contradiction].
    - split; [discriminate|]. intros _. apply Z.ltb_lt. lia. }
  rewrite andb_true_iff, Hlength, forallb_forall. split.
  - intros [Hnonempty Hdigits]. split.
    + destruct (List.filter isAlphaNumeric s) as [|c rest] eqn:Hclean;
        [contradiction|].
      assert (Hin : List.In c (List.filter isAlphaNumeric s))
        by (rewrite Hclean; left; reflexivity).
      exists c. split; [apply filter_In in Hin as [Hin _]; exact Hin|].
      apply Hdigits. left. reflexivity.
    + intros c Hin.
      destruct (isAlphaNumeric c) eqn:Halnum.
      * apply Hdisjoint, Hdigits, filter_In. split; assumption.
      * unfold isAlphaNumeric in Halnum.
        apply orb_false_iff in Halnum as [Halnum _].
        apply orb_false_iff in Halnum as [Hupper Hlower].
        split; assumption.
  - intros [(c & Hin & Hc) Hletters]. split.
    + intros Hempty.
      assert (Hclean : List.In c (List.filter isAlphaNumeric s)).
      { apply filter_In. split; [exact Hin|]. unfold isAlphaNumeric.
        rewrite Hc. apply orb_true_r. }
      rewrite Hempty in Hclean. exact Hclean.
    + intros x Hx. apply filter_In in Hx as [Hx Halnum].
      destruct (Hletters x Hx) as [Hupper Hlower].
      unfold isAlphaNumeric in Halnum. rewrite Hupper, Hlower in Halnum.
      exact Halnum.
Qed.

End WithHost.

End RuleProperties.

(* ================================================================== *)
(** ** The properties at concrete inputs *)
(* ================================================================== *)

Module Evidence.
Import IPBlocker SpamRules Gemini SpamDetector Stage Sample.
Import DecisionProperties BlocklistProperties.

#[local] Existing Instance asciiHost.

(** C1 at the default configuration: the text 11111 triggers the
    repeated-characters rule and the only-numbers rule, of severity 2
    each; the total 4 reaches [flagThreshold], which neither severity
    does alone, and the post is flagged. *)
Lemma baseline_decision_witness :
  let post := post_of (js "11111") None in
  originBlocked fresh post = false
  /\ Validation.isValid (validation fresh post) = true
  /\ overrides (analyzerVerdict fresh post CallFails) = false
  /\ map name (List.filter (fun rule => check rule post) spamRules)
     = [js "repeated_characters"; js "all_numbers"]
  /\ totalSeverity post = ofZ 4
  /\ SpamDetectionResult.action (result (detectSpam post CallFails) fresh)
     = flag
  /\ SpamDetectionResult.isSpam (result (detectSpam post CallFails) fresh)
     = true.
Proof.
  intros post.
  assert (Horigin : originBlocked fresh post = false)
    by (vm_compute; reflexivity).
  assert (Hvalid : Validation.isValid (validation fresh post) = true)
    by (vm_compute; reflexivity).
  assert (Hoverride : overrides (analyzerVerdict fresh post CallFails) = false)
    by (vm_compute; reflexivity).
  destruct (baseline_decision fresh post CallFails Horigin Hvalid Hoverride)
    as (_ & Htotal & Haction & HisSpam & _).
  do 3 (split; [assumption|]).
  split; [vm_compute; reflexivity|].
  split; [rewrite Htotal; vm_compute; reflexivity|].
  split; [rewrite Haction | rewrite HisSpam]; vm_compute; reflexivity.
Defined.

(** C2 at the spec's example: a high-severity verdict of confidence 0.9 on
    a post that triggers no rule. *)
Lemma analyzer_override_witness :
  originBlocked with_analyzer (post_of (js "Spam message") None) = false
  /\ Validation.isValid
       (validation with_analyzer (post_of (js "Spam message") None)) = true
  /\ analyzerVerdict with_analyzer (post_of (js "Spam message") None)
       highVerdict = Some highVerdictParsed
  /\ ge (totalSeverity (post_of (js "Spam message") None))
       (spamThreshold (config with_analyzer)) = false
  /\ SpamDetectionResult.isSpam
       (result (detectSpam (post_of (js "Spam message") None) highVerdict)
          with_analyzer) = true
  /\ SpamDetectionResult.action
       (result (detectSpam (post_of (js "Spam message") None) highVerdict)
          with_analyzer) = reject.
Proof.
  assert (Horigin :
    originBlocked with_analyzer (post_of (js "Spam message") None) = false)
    by (vm_compute; reflexivity).
  assert (Hvalid :
    Validation.isValid
      (validation with_analyzer (post_of (js "Spam message") None)) = true)
    by (vm_compute; reflexivity).
  assert (Hverdict :
    analyzerVerdict with_analyzer (post_of (js "Spam message") None)
      highVerdict = Some highVerdictParsed)
    by (vm_compute; reflexivity).
  destruct (analyzer_override with_analyzer
              (post_of (js "Spam message") None) highVerdict
              highVerdictParsed Horigin Hvalid Hverdict
              eq_refl eq_refl) as (HisSpam & Haction & _).
  repeat split; assumption.
Defined.

(** C3 as stated fails: with [spamThreshold] at -1 the text free money,
    total 5, gets the confidence -5; with [spamThreshold] at 0 a post that
    triggers no rule gets the confidence [NaN]. *)
Lemma confidence_outside_unit :
  SpamDetectionResult.confidence
    (result (detectSpam (post_of (js "free money") None) CallFails)
       (with_thresholds (-1) 3)) = ofZ (-5)
  /\ in_unit_b (ofZ (-5)) = false
  /\ SpamDetectionResult.confidence
       (result (detectSpam (post_of park None) CallFails)
          (with_thresholds 0 3)) = NaN
  /\ in_unit_b NaN = false.
Proof. repeat split; vm_compute; reflexivity. Qed.

Lemma confidence_in_unit_witness :
  gt (spamThreshold (config fresh)) (ofZ 0) = true
  /\ in_unit
       (SpamDetectionResult.confidence
          (result (detectSpam (post_of freeMoney None) CallFails) fresh)).
Proof.
  split; [reflexivity|].
  apply (confidence_in_unit fresh (post_of freeMoney None) CallFails).
  reflexivity.
Defined.

(** C5 as stated fails: a post with an empty text that comes from a
    blocked address is rejected with the block reason, and the
    text-required message is not among its reasons. *)
Lemma blocked_origin_hides_violation :
  textMissing (post_of [] (Some (js "10.0.0.1"))) = true
  /\ SpamDetectionResult.reasons
       (result (detectSpam (post_of [] (Some (js "10.0.0.1"))) CallFails)
          blocking_10_0_0_1)
     = [js "IP address is in blocklist"]
  /\ existsb (str_eqb textRequired)
       (SpamDetectionResult.reasons
          (result (detectSpam (post_of [] (Some (js "10.0.0.1"))) CallFails)
             blocking_10_0_0_1)) = false.
Proof. repeat split; vm_compute; reflexivity. Qed.

Lemma invalid_post_rejected_witness :
  overLong (config fresh) (post_of (repeat (ch "A") 300) None) = true
  /\ originBlocked fresh (post_of (repeat (ch "A") 300) None) = false
  /\ SpamDetectionResult.action
       (result (detectSpam (post_of (repeat (ch "A") 300) None) CallFails)
          fresh) = reject
  /\ SpamDetectionResult.isSpam
       (result (detectSpam (post_of (repeat (ch "A") 300) None) CallFails)
          fresh) = true
  /\ List.In (js "Post exceeds maximum length of 280 characters")
       (SpamDetectionResult.reasons
          (result (detectSpam (post_of (repeat (ch "A") 300) None) CallFails)
             fresh)).
Proof.
  assert (Hlong :
    overLong (config fresh) (post_of (repeat (ch "A") 300) None) = true)
    by (vm_compute; reflexivity).
  assert (Horigin :
    originBlocked fresh (post_of (repeat (ch "A") 300) None) = false)
    by (vm_compute; reflexivity).
  destruct (invalid_post_rejected fresh
              (post_of (repeat (ch "A") 300) None) CallFails
              (or_intror (or_introl Hlong)))
    as (Haction & HisSpam & _ & _ & _ & Hreasons & _).
  destruct (Hreasons Horigin) as (_ & _ & Hmessage & _).
  repeat split; try assumption. exact (Hmessage Hlong).
Defined.

(** C7 as stated fails: with [flagThreshold] at 0 a post that triggers no
    rule is spam, flagged, and has no reason. *)
Lemma spam_without_reasons :
  SpamDetectionResult.isSpam
    (result (detectSpam (post_of park None) CallFails) (with_thresholds 6 0))
  = true
  /\ SpamDetectionResult.action
       (result (detectSpam (post_of park None) CallFails)
          (with_thresholds 6 0)) = flag
  /\ SpamDetectionResult.reasons
       (result (detectSpam (post_of park None) CallFails)
          (with_thresholds 6 0)) = [].
Proof. repeat split; vm_compute; reflexivity. Qed.

Lemma spam_has_reasons_witness :
  gt (flagThreshold (config fresh)) (ofZ 0) = true
  /\ SpamDetectionResult.isSpam
       (result (detectSpam (post_of freeMoney None) CallFails) fresh) = true
  /\ SpamDetectionResult.reasons
       (result (detectSpam (post_of freeMoney None) CallFails) fresh) <> [].
Proof.
  assert (HisSpam :
    SpamDetectionResult.isSpam
      (result (detectSpam (post_of freeMoney None) CallFails) fresh) = true)
    by (vm_compute; reflexivity).
  split; [reflexivity|]. split; [exact HisSpam|].
  exact (spam_has_reasons fresh (post_of freeMoney None) CallFails
           eq_refl HisSpam).
Defined.



(** The general form of the defect behind C6, at 192.168.1.0/2x. *)
Lemma trailing_text_after_prefix_is_ignored_witness :
  includes_char (js "192.168.1.0") (ch "/") = false
  /\ forallb isDigit (js "2") = true
  /\ includes_char (js "x") (ch "/") = false
  /\ isDigit (ch "x") = false
  /\ isValidCIDR (js "192.168.1.0/2x") = isValidCIDR (js "192.168.1.0/2").
Proof.
  do 4 (split; [reflexivity|]).
  exact (trailing_text_after_prefix_is_ignored (js "192.168.1.0") (ch "2") []
           (js "x") eq_refl eq_refl eq_refl eq_refl).
Defined.

(** The containment theorem at 192.168.1.1 and 192.168.1.0/24. *)
Lemma dotted_range_containment_witness :
  forallb isOctet [192; 168; 1; 1; 192; 168; 1; 0]%Z = true
  /\ (0 <= 24 <= 32)%Z
  /\ dotted 192 168 1 1 = js "192.168.1.1"
  /\ dotted 192 168 1 0 ++ ch "/" :: decimal 24 = js "192.168.1.0/24"
  /\ isValidCIDR (js "192.168.1.0/24") = true
  /\ isIPInRange (js "192.168.1.1") (js "192.168.1.0/24") = true.
Proof.
  assert (Hp : (0 <= 24 <= 32)%Z) by lia.
  destruct (dotted_range_containment 192 168 1 1 192 168 1 0 24 eq_refl Hp)
    as (_ & Hcidr & Hrange & _).
  do 4 (split; [first [reflexivity | exact Hp]|]).
  split; [exact Hcidr | exact Hrange].
Defined.

(** X6: of the ranges 10.0.0.0/8, 192.168.0.0/16 and 192.168.1.0/24, in
    that order, the second is the one reported for 192.168.1.1, although
    the third is the more specific. *)
Lemma first_matching_range_wins_witness :
  isValidIP (js "192.168.1.1") = true
  /\ (js "192.168.1.1" ∉ (∅ : gset (list N)))
  /\ forallb (fun r => negb (isIPInRange (js "192.168.1.1") r))
       [js "10.0.0.0/8"] = true
  /\ isIPInRange (js "192.168.1.1") (js "192.168.0.0/16") = true
  /\ reason
       (result (validateIP (js "192.168.1.1"))
          {| blockedIPs := ∅;
             blockedRanges :=
               [js "10.0.0.0/8"; js "192.168.0.0/16"; js "192.168.1.0/24"] |})
     = Some (js "IP address is in blocked range: 192.168.0.0/16").
Proof.
  assert (Habsent : js "192.168.1.1" ∉ (∅ : gset (list N)))
    by apply not_elem_of_empty.
  split; [reflexivity|]. split; [exact Habsent|].
  do 2 (split; [reflexivity|]).
  rewrite (first_matching_range_wins (js "192.168.1.1")
             (js "192.168.0.0/16") [js "10.0.0.0/8"]
             [js "192.168.1.0/24"] ∅ eq_refl Habsent eq_refl eq_refl).
  reflexivity.
Defined.

(** X7 at the rule table read backwards. *)
Lemma total_is_order_independent_witness :
  Permutation (rev spamRules) spamRules
  /\ totalOver (rev spamRules) (post_of freeMoney None) = ofZ 5.
Proof.
  assert (Hperm : Permutation (rev spamRules) spamRules)
    by (symmetry; apply Permutation_rev).
  split; [exact Hperm|].
  rewrite (total_is_order_independent (rev spamRules)
             (post_of freeMoney None) Hperm).
  vm_compute. reflexivity.
Defined.

(** *** The model on the inputs of the repository's tests *)

Example test_normal_post_is_allowed :
  result (detectSpam (post_of park None) CallFails) fresh
  = {| SpamDetectionResult.isSpam := false;
       SpamDetectionResult.confidence := Fin (0 # 6);
       SpamDetectionResult.reasons := [];
       SpamDetectionResult.action := allow;
       SpamDetectionResult.aiAnalysis := None |}.
Proof. vm_compute. reflexivity. Qed.

Example test_custom_thresholds :
  SpamDetectionResult.action
    (result (detectSpam (post_of (js "THIS IS SPAM WITH CAPS") None) CallFails)
       (with_thresholds 15 10)) = allow.
Proof. vm_compute. reflexivity. Qed.

Example test_updated_thresholds :
  SpamDetectionResult.action
    (result (detectSpam (post_of (js "Hi") None) CallFails)
       (final
          (updateConfig
             {| p_spamThreshold := Some (ofZ 1);
                p_flagThreshold := Some (ofZ 1);
                p_maxTextLength := None; p_minTextLength := None;
                p_enableIPBlocking := None; p_enableAIDetection := None;
                p_geminiApiKey := None |} None)
          fresh)) = reject.
Proof. vm_compute. reflexivity. Qed.

Example test_missing_text :
  SpamDetectionResult.action
    (result
       (detectSpam
          {| text := VUndefined; username := Some (js "user");
             timestamp := None; clientIP := None |} CallFails) fresh)
  = reject.
Proof. vm_compute. reflexivity. Qed.

Example test_address_validation :
  map isValidIP
    [js "192.168.1.1"; js "10.0.0.1"; js "255.255.255.255"; js "256.1.1.1";
     js "192.168.1"; js "not.an.ip.address";
     js "2001:0db8:85a3:0000:0000:8a2e:0370:7334"; js "::1"; js "::"]
  = [true; true; true; false; false; false; true; true; true].
Proof. vm_compute. reflexivity. Qed.

Example test_range_validation :
  map isValidCIDR
    [js "192.168.1.0/24"; js "10.0.0.0/8"; js "172.16.0.0/12";
     js "192.168.1.0/33"; js "invalid/range"; js "192.168.1.0"]
  = [true; true; true; false; false; false].
Proof. vm_compute. reflexivity. Qed.

Example test_range_blocking :
  map (fun ip => isBlocked (result (validateIP ip) range24))
    [js "192.168.1.1"; js "192.168.1.100"; js "192.168.1.254";
     js "192.168.2.1"; js "10.0.0.1"]
  = [true; true; true; false; false].
Proof. vm_compute. reflexivity. Qed.

Example test_analyzer_confidence_is_used :
  SpamDetectionResult.confidence
    (result
       (detectSpam (post_of (js "Normal message") None)
          (Responds
             (Json
                [(js "isSpam", VBool true);
                 (js "confidence", VNum (Fin 0.95));
                 (js "reasoning", VStr (js "High confidence spam"));
                 (js "categories", VArr [VStr (js "scam")]);
                 (js "severity", VStr (js "medium"))])))
       with_analyzer) = Fin 0.95.
Proof. vm_compute. reflexivity. Qed.

Example test_malformed_reply_gives_fallback :
  result (analyzeSpam (post_of park None) (Responds NoJson))
    (geminiDetector with_analyzer)
  = Some
      {| AIDetectionResult.isSpam := false;
         AIDetectionResult.confidence := ofZ 0;
         AIDetectionResult.reasoning := js "Failed to analyze content with AI";
         AIDetectionResult.categories := [js "analysis_error"];
         AIDetectionResult.severity := low |}.
Proof. vm_compute. reflexivity. Qed.

End Evidence.

(* ================================================================== *)
(** ** The further properties at sample inputs *)
(* ================================================================== *)

Module FurtherEvidence.
Import IPBlocker SpamRules Gemini SpamDetector Server Stage Sample Scenario.
Import PipelineProperties OperationProperties SyntaxProperties.
Import ServerProperties RuleProperties Cases.

#[local] Existing Instance asciiHost.

(** X9 at a detector that blocks 10.0.0.1: a harmless post from that
    address is rejected with the in-blocklist reason. *)
Lemma blocked_origin_is_rejected_witness :
  enableIPBlocking (config blocking_10_0_0_1) = true
  /\ isBlocked (result (validateIP (js "10.0.0.1"))
                 (ipBlocker blocking_10_0_0_1)) = true
  /\ SpamDetectionResult.reasons
       (result (detectSpam (post_of park (Some (js "10.0.0.1"))) CallFails)
          blocking_10_0_0_1)
     = [js "IP address is in blocklist"].
Proof.
  split; [reflexivity|]. split; [reflexivity|].
  destruct (blocked_origin_is_rejected blocking_10_0_0_1
              (post_of park (Some (js "10.0.0.1"))) CallFails (js "10.0.0.1")
              eq_refl eq_refl eq_refl)
    as (_ & _ & _ & _ & _ & [[_ Hreasons] | [Habsent _]]).
  - exact Hreasons.
  - exfalso. apply Habsent.
    apply (bool_decide_eq_true_1 _).
    vm_compute. reflexivity.
Defined.

(** X10 with blocking switched off: the post from the blocked address
    10.0.0.1 gets the decision of the same text from nowhere on a
    detector with an empty blocklist. *)
Lemma disabled_blocking_ignores_origin_witness :
  let d := final (updateConfig blockingOff None) blocking_10_0_0_1 in
  let d' := final (updateConfig blockingOff None) fresh in
  enableIPBlocking (config d) = false
  /\ result (detectSpam (post_of park None) CallFails) d'
     = result (detectSpam (post_of park (Some (js "10.0.0.1"))) CallFails) d.
Proof.
  intros d d'. split; [reflexivity|].
  apply (disabled_blocking_ignores_origin d d'
           (post_of park (Some (js "10.0.0.1"))) (post_of park None)
           CallFails); reflexivity.
Defined.

(** X13: a verdict of no spam with confidence 0.9 leaves the decision
    for FREE MONEY!!! CLICK HERE NOW!!! at flag. *)
Lemma verdict_without_spam_changes_nothing_witness :
  AIDetectionResult.isSpam (parseAIResponse cleanVerdict) = false
  /\ SpamDetectionResult.action
       (result (detectSpam (post_of freeMoney None) (Responds cleanVerdict))
          with_analyzer)
     = flag.
Proof.
  split; [reflexivity|].
  destruct (verdict_without_spam_changes_nothing with_analyzer
              (post_of freeMoney None) cleanVerdict eq_refl)
    as (_ & Haction & _).
  rewrite Haction. vm_compute. reflexivity.
Defined.

(** X14 at the default thresholds, 3 and 6. *)
Lemma spam_exactly_when_not_allowed_witness :
  le (flagThreshold (config fresh)) (spamThreshold (config fresh)) = true
  /\ (SpamDetectionResult.isSpam
        (result (detectSpam (post_of freeMoney None) CallFails) fresh)
      = true
      <-> SpamDetectionResult.action
            (result (detectSpam (post_of freeMoney None) CallFails) fresh)
          <> allow).
Proof.
  split; [reflexivity|].
  apply (spam_exactly_when_not_allowed fresh (post_of freeMoney None)
           CallFails).
  reflexivity.
Defined.

(** X15: keywords and a shortened link, total 10, rejected by the rules
    with confidence 1. *)
Lemma rejection_without_override_is_certain_witness :
  let r := result (detectSpam (post_of freeMoneyLink None) CallFails) fresh in
  SpamDetectionResult.action r = reject
  /\ overrides (SpamDetectionResult.aiAnalysis r) = false
  /\ strict_eq (SpamDetectionResult.confidence r) (Fin 1) = true.
Proof.
  intros r.
  assert (Haction : SpamDetectionResult.action r = reject)
    by (vm_compute; reflexivity).
  assert (Hoverride : overrides (SpamDetectionResult.aiAnalysis r) = false)
    by (vm_compute; reflexivity).
  split; [exact Haction|]. split; [exact Hoverride|].
  exact (rejection_without_override_is_certain fresh
           (post_of freeMoneyLink None) CallFails eq_refl Haction Hoverride).
Defined.

(** X16: detection switched on, no key anywhere. *)
Lemma no_credential_no_analyzer_witness :
  noCredential (p_geminiApiKey analyzerOnWithoutKey) = true
  /\ enableAIDetection (config (create analyzerOnWithoutKey None)) = true
  /\ SpamDetectionResult.aiAnalysis
       (result (detectSpam (post_of freeMoney None) highVerdict)
          (create analyzerOnWithoutKey None))
     = None.
Proof.
  split; [reflexivity|]. split; [reflexivity|].
  destruct (no_credential_no_analyzer analyzerOnWithoutKey None
              (post_of freeMoney None) highVerdict eq_refl eq_refl)
    as (_ & Hnone & _).
  exact Hnone.
Defined.

(** X19 on the blocklist that holds the range 192.168.1.0/24. *)
Lemma new_entry_round_trip_witness :
  let bl := {| blockedIPs := ∅; blockedRanges := [js "192.168.1.0/24"] |} in
  isValidIP (js "10.0.0.1") = true
  /\ isValidCIDR (js "10.0.0.0/8") = true
  /\ final (removeIP (js "10.0.0.1")) (final (addIP (js "10.0.0.1")) bl) = bl
  /\ final (removeRange (js "10.0.0.0/8"))
       (final (addRange (js "10.0.0.0/8")) bl) = bl.
Proof.
  intros bl.
  assert (Habsent : js "10.0.0.1" ∉ blockedIPs bl)
    by apply not_elem_of_empty.
  assert (Hunlisted : ~ List.In (js "10.0.0.0/8") (blockedRanges bl)).
  { intros [Heq | []]. vm_compute in Heq. discriminate Heq. }
  destruct (new_entry_round_trip bl (js "10.0.0.1") (js "10.0.0.0/8")
              eq_refl Habsent eq_refl Hunlisted)
    as ((_ & _ & Hip) & (_ & _ & Hrange)).
  split; [reflexivity|]. split; [reflexivity|].
  split; [exact Hip | exact Hrange].
Defined.

(** X20: removing the middle one of three ranges. *)
Lemma removed_range_is_gone_witness :
  let bl := {| blockedIPs := ∅;
               blockedRanges :=
                 [js "10.0.0.0/8"; js "192.168.0.0/16"; js "172.16.0.0/12"] |}
  in
  result (removeRange (js "192.168.0.0/16")) bl = true
  /\ result getBlockedRanges (final (removeRange (js "192.168.0.0/16")) bl)
     = [js "10.0.0.0/8"; js "172.16.0.0/12"]
  /\ result (removeRange (js "192.168.0.0/16"))
       (final (removeRange (js "192.168.0.0/16")) bl) = false.
Proof.
  intros bl.
  assert (Hdistinct : List.NoDup (blockedRanges bl)).
  { cbn [blockedRanges bl].
    repeat (constructor; [intros H; vm_compute in H; intuition discriminate|]).
    constructor. }
  destruct (removed_range_is_gone (js "192.168.0.0/16") bl Hdistinct eq_refl)
    as (_ & _ & Hagain & _).
  split; [reflexivity|]. split; [reflexivity | exact Hagain].
Defined.

(** X21: '::1' is one of the two compressed forms. *)
Lemma only_two_compressed_forms_witness :
  isValidIP (js "::1") = true
  /\ includes (js "::1") (js "::") = true
  /\ (js "::1" = js "::" \/ js "::1" = js "::1").
Proof.
  split; [reflexivity|]. split; [reflexivity|].
  exact (only_two_compressed_forms (js "::1") eq_refl eq_refl).
Defined.

(** X22: 192.168.1.1 against an IPv6 range, and an IPv6 address against
    192.168.1.1/24. *)
Lemma address_families_do_not_mix_witness :
  isIPInRange (js "192.168.1.1")
    (js "2001:0db8:85a3:0000:0000:8a2e:0370:7334/64") = false
  /\ isIPInRange lowerCaseAddress (js "192.168.1.1/64") = false.
Proof.
  exact (address_families_do_not_mix (js "192.168.1.1") lowerCaseAddress
           (js "64") eq_refl eq_refl).
Defined.

(** X23: with the prefix length 128, two addresses that agree on their
    first 32 characters and differ after them match. *)
Lemma ipv6_range_compares_text_witness :
  lowersAscii
  /\ lowerCaseAddress <> sameStart
  /\ sameStart ++ ch "/" :: decimal 128
     = js "2001:0db8:85a3:0000:0000:8a2e:0399:ffff/128"
  /\ isIPInRange lowerCaseAddress
       (js "2001:0db8:85a3:0000:0000:8a2e:0399:ffff/128") = true.
Proof.
  assert (Hhost : lowersAscii) by (intros s _; reflexivity).
  assert (Hp : (0 <= 128 <= 128)%Z) by lia.
  destruct (ipv6_range_compares_text lowerCaseAddress sameStart 128 Hhost
              eq_refl eq_refl Hp)
    as (_ & Hmatch & _).
  split; [exact Hhost|]. split; [|split; [reflexivity|]].
  - intros Heq. vm_compute in Heq. discriminate Heq.
  - change (js "2001:0db8:85a3:0000:0000:8a2e:0399:ffff/128")
      with (sameStart ++ ch "/" :: decimal 128).
    rewrite Hmatch. vm_compute. reflexivity.
Defined.

(** X24: the connection comes from the blocked 10.0.0.1, the header
    names 8.8.8.8 first, and the request passes as 8.8.8.8. *)
Lemma forwarded_header_decides_witness :
  isBlocked (result (validateIP (js "10.0.0.1"))
               (ipBlocker blocking_10_0_0_1)) = true
  /\ extractClientIP forwardedRequest = Some (js "8.8.8.8")
  /\ result (ipBlocking forwardedRequest) blocking_10_0_0_1
     = Next (Some (js "8.8.8.8")).
Proof.
  destruct (forwarded_header_decides forwardedRequest
              (js "8.8.8.8, 10.0.0.1") blocking_10_0_0_1 eq_refl)
    as (Haddress & Hpass & _).
  { discriminate. }
  split; [reflexivity|]. split; [exact Haddress|].
  exact (Hpass eq_refl).
Defined.

(** X25: the request that passed as 8.8.8.8 is then judged on its text
    alone. *)
Lemma passed_request_is_judged_on_content_witness :
  result (ipBlocking forwardedRequest) blocking_10_0_0_1
  = Next (Some (js "8.8.8.8"))
  /\ result (detectSpam (post_of freeMoney (Some (js "8.8.8.8"))) CallFails)
       blocking_10_0_0_1
     = result (detectSpam (post_of freeMoney None) CallFails)
         blocking_10_0_0_1.
Proof.
  split; [reflexivity|].
  destruct (passed_request_is_judged_on_content forwardedRequest
              blocking_10_0_0_1 (Some (js "8.8.8.8"))
              (post_of freeMoney (Some (js "8.8.8.8"))) CallFails
              eq_refl eq_refl)
    as (Hsame & Hdecision).
  rewrite Hsame in Hdecision. exact Hdecision.
Defined.

(** X29: 'see https://microsoft.com now'. *)
Lemma link_holding_t_co_is_suspicious_witness :
  wellKnownLink = js "see " ++ js "https://microsoft.com" ++ js " now"
  /\ includes (js "https://microsoft.com") (js "t.co") = true
  /\ check suspicious_urls (post_of wellKnownLink None) = true.
Proof.
  split; [reflexivity|]. split; [reflexivity|].
  exact (link_holding_t_co_is_suspicious (post_of wellKnownLink None)
           (js "see ") (js "https://microsoft.com") (js " now")
           eq_refl eq_refl eq_refl eq_refl eq_refl eq_refl).
Defined.

(** C9 on the host of the samples: the upper-case spelling is added,
    the lower-case spelling is asked for. *)
Lemma exact_match_misses_other_case_witness :
  lowersAscii
  /\ isBlocked
       (result (validateIP lowerCaseAddress)
          (final (addIP upperCaseAddress) IPBlocker.empty)) = false
  /\ isBlocked
       (result (validateIP lowerCaseAddress)
          (final (addRange (upperCaseAddress ++ ch "/" :: decimal 128))
             IPBlocker.empty)) = true.
Proof.
  assert (Hhost : lowersAscii) by (intros s _; reflexivity).
  destruct (exact_match_misses_other_case Hhost)
    as (_ & (_ & _ & Hexact) & (_ & _ & Hrange)).
  split; [exact Hhost|]. split; [exact Hexact | exact Hrange].
Defined.

(** X26 at a detector that blocks 10.0.0.1: unblocking that address
    answers 200, and asking for it as a range answers 404. *)
Lemma unblocking_route_reports_what_it_did_witness :
  (js "10.0.0.1" ∈ blockedIPs (ipBlocker blocking_10_0_0_1))
  /\ status (result (deleteBlockedIP (js "10.0.0.1") VUndefined)
               blocking_10_0_0_1) = 200%Z
  /\ status (result (deleteBlockedIP (js "10.0.0.1") (VStr (js "range")))
               blocking_10_0_0_1) = 404%Z.
Proof.
  assert (Hdecided :
    bool_decide (js "10.0.0.1" ∈ blockedIPs (ipBlocker blocking_10_0_0_1))
    = true) by (vm_compute; reflexivity).
  pose proof (bool_decide_eq_true_1 _ Hdecided) as Hheld.
  destruct (unblocking_route_reports_what_it_did (js "10.0.0.1") VUndefined
              blocking_10_0_0_1) as (Hfound & _).
  destruct (unblocking_route_reports_what_it_did (js "10.0.0.1")
              (VStr (js "range")) blocking_10_0_0_1) as (_ & Hmissing & _).
  split; [exact Hheld|]. split.
  - apply Hfound. exact Hheld.
  - apply Hmissing. intros [].
Defined.

End FurtherEvidence.
